(** * gitcommitmessage: status parsing and simple-message synthesis

    A shallow embedding of [parseStatus], [getChangedFiles] and
    [buildSimpleMessage] (the message module, lib/message.ts), of [plural]
    (lib/utils.ts) and of the constant [MAX_FILE_SAMPLES]
    (lib/constants.ts), followed by the properties of the specification
    that concern them.  The code around them is embedded as well: the
    other helpers of lib/utils.ts ([truncate], [maskString],
    [validateApiKey], [retry]), the configuration (lib/config.ts), the
    logger (lib/logger.ts), [getDiff] (lib/git.ts), the test [hasChanges]
    of the main command (bin/gcm.ts) and the prompt templates
    (lib/templates.ts), with properties of their own.

    Conventions of the embedding.
    - A JavaScript string is the list of its UTF-16 code units ([N]); the
      regular-expression classes [\s], [\d], [\w] and [.] are the
      ECMAScript ones on code units.
    - A JavaScript number is a mathematical integer ([Z]).  Every number
      the modelled code builds is an integer; the two agree as long as
      magnitudes stay below 2^53.
    - [null] / [undefined] are [None].
    - The regular expressions are written with continuation-passing
      backtracking combinators, so that the order in which a JavaScript
      engine explores alternatives (greedy: longest first, lazy: shortest
      first) is the order of the model.
    - The loop of [parseStatus] threads the summary it mutates through
      [processLine], one call per line.  The function and
      [buildSimpleMessage] are written a second time over a store of
      objects ([parseStatus_st], [buildSimpleMessage_st]): the summary,
      the three objects it refers to and the five arrays are at places
      of the store, and every read and assignment of the source is one
      there.  The statements about what the functions do to objects are
      about this form.
    - What a function obtains from outside is an argument of its
      embedding: the content of the configuration file, the environment
      variables, what git prints, the operation that [retry] runs (a
      function on the state of the world), the custom templates on disk,
      and [String.prototype.toUpperCase].

    Layout: the embedding; the predicates and specification-side
    definitions the statements use; supporting lemmas by topic; one
    section per claim, C1 to C10; then the further properties, X1 to
    X20. *)

From Stdlib Require Import String Ascii.
From Stdlib Require Import List ZArith NArith Lia Bool Permutation.
From Stdlib Require Import DecimalPos.
Import ListNotations.
Local Open Scope Z_scope.

(* ------------------------------------------------------------------ *)
(** ** Strings as code units *)

Definition jsstring := list N.

(** An ASCII literal as a JavaScript string. *)
Fixpoint u (s : string) : jsstring :=
  match s with
  | EmptyString => []
  | String c r => N_of_ascii c :: u r
  end.

Definition LF : N := 10%N.
Definition CR : N := 13%N.
(** U+2014 EM DASH, used in the title of the simple message. *)
Definition EM_DASH : N := 8212%N.

Definition chr (s : string) : N :=
  match s with
  | String c _ => N_of_ascii c
  | EmptyString => 0%N
  end.

Fixpoint str_eqb (a b : jsstring) : bool :=
  match a, b with
  | [], [] => true
  | x :: a', y :: b' => N.eqb x y && str_eqb a' b'
  | _, _ => false
  end.

(** [String.prototype.startsWith]. *)
Fixpoint startsWith (p s : jsstring) : bool :=
  match p, s with
  | [], _ => true
  | x :: p', y :: s' => N.eqb x y && startsWith p' s'
  | _ :: _, [] => false
  end.

(** [s.slice(n)] for [0 <= n]. *)
Definition slice (n : nat) (s : jsstring) : jsstring := skipn n s.

(** [\s] of ECMAScript regular expressions, which is also the set that
    [trim] strips: WhiteSpace and LineTerminator code points. *)
Definition is_space (c : N) : bool :=
  ((9 <=? c) && (c <=? 13) || (c =? 32) || (c =? 160) || (c =? 5760)
   || (8192 <=? c) && (c <=? 8202) || (c =? 8232) || (c =? 8233)
   || (c =? 8239) || (c =? 8287) || (c =? 12288) || (c =? 65279))%N.

(** LineTerminator: the code units that [.] does not match. *)
Definition is_line_terminator (c : N) : bool :=
  ((c =? 10) || (c =? 13) || (c =? 8232) || (c =? 8233))%N.

(** [.] (no [s] flag). *)
Definition is_dot (c : N) : bool := negb (is_line_terminator c).

(** [\d]. *)
Definition is_digit (c : N) : bool := ((48 <=? c) && (c <=? 57))%N.

Fixpoint trimStart (s : jsstring) : jsstring :=
  match s with
  | c :: s' => if is_space c then trimStart s' else s
  | [] => []
  end.

Fixpoint trimEnd (s : jsstring) : jsstring :=
  match s with
  | [] => []
  | c :: s' =>
      match trimEnd s' with
      | [] => if is_space c then [] else [c]
      | t => c :: t
      end
  end.

(** [String.prototype.trim]. *)
Definition trim (s : jsstring) : jsstring := trimEnd (trimStart s).

(** [Array.prototype.join]. *)
Fixpoint join (sep : jsstring) (l : list jsstring) : jsstring :=
  match l with
  | [] => []
  | [x] => x
  | x :: r => x ++ sep ++ join sep r
  end.

(** [output.split(/\r?\n/)]: a separator is a line feed, together with the
    carriage return right before it when there is one.  A carriage return
    that no line feed follows stays in its line.  The result is never
    empty. *)
Fixpoint split_lines (s : jsstring) : list jsstring :=
  match s with
  | [] => [[]]
  | c :: s' =>
      if N.eqb c LF then [] :: split_lines s'
      else if N.eqb c CR && startsWith [LF] s' then split_lines s'
      else match split_lines s' with
           | h :: t => (c :: h) :: t
           | [] => [[c]]
           end
  end.

(** Truthiness of a string, and of the length of an array: not empty. *)
Definition nonempty {X : Type} (l : list X) : bool :=
  match l with [] => false | _ => true end.

(** [output.split(/\r?\n/).filter(Boolean)]: the empty pieces are
    dropped. *)
Definition lines_of (output : jsstring) : list jsstring :=
  filter nonempty (split_lines output).

(** [line.split(/\s+/)]: the pieces between maximal runs of white space; a
    run at the very start or end of the line leaves an empty piece there.
    [sep] tells that the previous code unit was part of a separator. *)
Fixpoint fields (sep : bool) (s : jsstring) : list jsstring :=
  match s with
  | [] => [[]]
  | c :: s' =>
      if is_space c then
        (if sep then fields true s' else [] :: fields true s')
      else match fields false s' with
           | h :: t => (c :: h) :: t
           | [] => [[c]]
           end
  end.

Definition split_ws (line : jsstring) : list jsstring := fields false line.

(* ------------------------------------------------------------------ *)
(** ** Numbers *)

Fixpoint uint_units (d : Decimal.uint) : jsstring :=
  match d with
  | Decimal.Nil => []
  | Decimal.D0 r => 48%N :: uint_units r
  | Decimal.D1 r => 49%N :: uint_units r
  | Decimal.D2 r => 50%N :: uint_units r
  | Decimal.D3 r => 51%N :: uint_units r
  | Decimal.D4 r => 52%N :: uint_units r
  | Decimal.D5 r => 53%N :: uint_units r
  | Decimal.D6 r => 54%N :: uint_units r
  | Decimal.D7 r => 55%N :: uint_units r
  | Decimal.D8 r => 56%N :: uint_units r
  | Decimal.D9 r => 57%N :: uint_units r
  end.

(** The string a template literal produces for an integer: its decimal
    digits, with a leading minus sign when negative. *)
Definition num (n : Z) : jsstring :=
  match Z.to_int n with
  | Decimal.Pos d => uint_units d
  | Decimal.Neg d => chr "-" :: uint_units d
  end.

Definition digit_val (c : N) : Z := Z.of_N c - 48.

Definition digits_val (ds : jsstring) : Z :=
  fold_left (fun a c => 10 * a + digit_val c) ds 0.

Fixpoint takeWhile (f : N -> bool) (s : jsstring) : jsstring :=
  match s with
  | c :: s' => if f c then c :: takeWhile f s' else []
  | [] => []
  end.

(** [parseInt(s, 10)]: leading white space, an optional sign, then the
    longest run of decimal digits; [None] stands for [NaN].  The result is
    the integer the digits write, which is what JavaScript returns up to
    2^53; for a longer run JavaScript returns the nearest floating-point
    number, and a statement about the value read carries the bound. *)
Definition parseInt (s : jsstring) : option Z :=
  let s1 := trimStart s in
  let '(neg, s2) :=
    match s1 with
    | c :: r => if N.eqb c (chr "-") then (true, r)
                else if N.eqb c (chr "+") then (false, r)
                else (false, s1)
    | [] => (false, [])
    end in
  match takeWhile is_digit s2 with
  | [] => None
  | ds => Some (if neg then - digits_val ds else digits_val ds)
  end.

(** [x || 0] on a number: [NaN] and [0] are the falsy numbers. *)
Definition or0 (x : option Z) : Z :=
  match x with
  | Some z => if z =? 0 then 0 else z
  | None => 0
  end.

(* ------------------------------------------------------------------ *)
(** ** Backtracking combinators for the regular expressions

    A combinator takes the rest of the subject and a continuation that
    stands for the rest of the pattern; a quantifier hands the text it
    consumed to its continuation.  [None] is failure, upon which the
    caller tries its next alternative. *)

Section Backtracking.
Context {A : Type}.

Definition orelse (x y : option A) : option A :=
  match x with Some _ => x | None => y end.

(** A literal string. *)
Definition lit (p : jsstring) (s : jsstring)
           (k : jsstring -> option A) : option A :=
  if startsWith p s then k (skipn (length p) s) else None.

(** [c?] for a single code unit [c] (greedy). *)
Definition opt (c : N) (s : jsstring)
           (k : jsstring -> jsstring -> option A) : option A :=
  match s with
  | x :: s' => if N.eqb x c then orelse (k [c] s') (k [] s) else k [] s
  | [] => k [] s
  end.

(** [cls*], greedy: the longest run first, then shorter ones. *)
Fixpoint greedy_star (cls : N -> bool) (s : jsstring)
         (k : jsstring -> jsstring -> option A) : option A :=
  match s with
  | c :: s' =>
      if cls c
      then orelse (greedy_star cls s' (fun m r => k (c :: m) r)) (k [] s)
      else k [] s
  | [] => k [] s
  end.

(** [cls+], greedy. *)
Definition greedy_plus (cls : N -> bool) (s : jsstring)
           (k : jsstring -> jsstring -> option A) : option A :=
  match s with
  | c :: s' =>
      if cls c then greedy_star cls s' (fun m r => k (c :: m) r) else None
  | [] => None
  end.

(** [cls*?], lazy: the shortest run first, then longer ones. *)
Fixpoint lazy_star (cls : N -> bool) (s : jsstring)
         (k : jsstring -> jsstring -> option A) : option A :=
  orelse (k [] s)
         match s with
         | c :: s' =>
             if cls c then lazy_star cls s' (fun m r => k (c :: m) r)
             else None
         | [] => None
         end.

(** [cls+?], lazy. *)
Definition lazy_plus (cls : N -> bool) (s : jsstring)
           (k : jsstring -> jsstring -> option A) : option A :=
  match s with
  | c :: s' =>
      if cls c then lazy_star cls s' (fun m r => k (c :: m) r) else None
  | [] => None
  end.

(** [$] (no [m] flag): the end of the subject. *)
Definition at_end (s : jsstring) (r : A) : option A :=
  match s with [] => Some r | _ => None end.

(** An unanchored pattern is tried at every position, leftmost first. *)
Fixpoint search (at_pos : jsstring -> option A) (s : jsstring) : option A :=
  orelse (at_pos s)
         match s with
         | _ :: s' => search at_pos s'
         | [] => None
         end.
End Backtracking.

(** [/\+(-?\d+)\s+\-(-?\d+)/] tried at the start of [s]; the result is the
    pair of the two groups. *)
Definition re_ab_at (s : jsstring) : option (jsstring * jsstring) :=
  lit (u "+") s (fun s1 =>
  opt (chr "-") s1 (fun sg1 s2 =>
  greedy_plus is_digit s2 (fun d1 s3 =>
  greedy_plus is_space s3 (fun _ s4 =>
  lit (u "-") s4 (fun s5 =>
  opt (chr "-") s5 (fun sg2 s6 =>
  greedy_plus is_digit s6 (fun d2 _ =>
  Some (sg1 ++ d1, sg2 ++ d2)))))))).

(** [ab.match(/\+(-?\d+)\s+\-(-?\d+)/)]. *)
Definition re_ab (s : jsstring) : option (jsstring * jsstring) :=
  search re_ab_at s.

(** [f.match(/^(.+?)\s*->\s*(.+)$/)]: anchored at the start, so only
    position 0 is tried. *)
Definition re_rename (f : jsstring) : option (jsstring * jsstring) :=
  lazy_plus is_dot f (fun g1 r1 =>
  greedy_star is_space r1 (fun _ r2 =>
  lit (u "->") r2 (fun r3 =>
  greedy_star is_space r3 (fun _ r4 =>
  greedy_plus is_dot r4 (fun g2 r5 =>
  at_end r5 (g1, g2)))))).

(* ------------------------------------------------------------------ *)
(** ** Data model (lib/message.ts, lib/constants.ts) *)

Definition MAX_FILE_SAMPLES : Z := 10.

Module Staged.
Record t := mk
  { added : Z; modified : Z; deleted : Z; renamed : Z; copied : Z }.
End Staged.

Module Unstaged.
Record t := mk { modified : Z; deleted : Z }.
End Unstaged.

Module Samples.
Record t := mk
  { added : list jsstring;
    modified : list jsstring;
    deleted : list jsstring;
    renamed : list jsstring;
    untracked : list jsstring }.
End Samples.

Record StatusSummary := mkSummary
  { branch : option jsstring;
    ahead : Z;
    behind : Z;
    staged : Staged.t;
    unstaged : Unstaged.t;
    untracked : Z;
    conflicts : Z;
    samples : Samples.t }.

(** [MessageOptions]; every field is optional, [None] is an absent one. *)
Record MessageOptions := mkOptions
  { stagedOnly : option bool;
    commit : option bool;
    simple : option bool;
    verbose : option bool;
    template : option jsstring }.

(** Truthiness of an optional boolean. *)
Definition truthy (b : option bool) : bool :=
  match b with Some true => true | _ => false end.

(** [list.length] as a number. *)
Definition len {X : Type} (l : list X) : Z := Z.of_nat (List.length l).

(** The summary [parseStatus] starts from. *)
Definition empty_summary : StatusSummary :=
  {| branch := None; ahead := 0; behind := 0;
     staged := Staged.mk 0 0 0 0 0;
     unstaged := Unstaged.mk 0 0;
     untracked := 0; conflicts := 0;
     samples := Samples.mk [] [] [] [] [] |}.

(** Assignments to the fields of the summary under construction. *)
Definition set_branch (b : option jsstring) (s : StatusSummary) :=
  mkSummary b (ahead s) (behind s) (staged s) (unstaged s)
            (untracked s) (conflicts s) (samples s).
Definition set_ahead_behind (a b : Z) (s : StatusSummary) :=
  mkSummary (branch s) a b (staged s) (unstaged s)
            (untracked s) (conflicts s) (samples s).
Definition set_staged (x : Staged.t) (s : StatusSummary) :=
  mkSummary (branch s) (ahead s) (behind s) x (unstaged s)
            (untracked s) (conflicts s) (samples s).
Definition set_unstaged (x : Unstaged.t) (s : StatusSummary) :=
  mkSummary (branch s) (ahead s) (behind s) (staged s) x
            (untracked s) (conflicts s) (samples s).
Definition set_untracked (n : Z) (s : StatusSummary) :=
  mkSummary (branch s) (ahead s) (behind s) (staged s) (unstaged s)
            n (conflicts s) (samples s).
Definition set_conflicts (n : Z) (s : StatusSummary) :=
  mkSummary (branch s) (ahead s) (behind s) (staged s) (unstaged s)
            (untracked s) n (samples s).
Definition set_samples (x : Samples.t) (s : StatusSummary) :=
  mkSummary (branch s) (ahead s) (behind s) (staged s) (unstaged s)
            (untracked s) (conflicts s) x.

(** [if (list.length < MAX_FILE_SAMPLES) list.push(p)]. *)
Definition push_sample (l : list jsstring) (p : jsstring) : list jsstring :=
  if len l <? MAX_FILE_SAMPLES then l ++ [p] else l.

(** [c === 'x'] for a possibly undefined code unit [c]. *)
Definition is_chr (c : option N) (x : string) : bool :=
  match c with Some n => N.eqb n (chr x) | None => false end.

(* ------------------------------------------------------------------ *)
(** ** parseStatus *)

(** [origPath ? `${origPath} -> ${filePath}` : filePath]; the empty string
    is falsy as well. *)
Definition rename_sample (origPath : option jsstring) (filePath : jsstring)
  : jsstring :=
  match origPath with
  | Some (c :: o) => (c :: o) ++ u " -> " ++ filePath
  | _ => filePath
  end.

(** The "Staged changes" cascade on the index status [X]. *)
Definition record_staged (X : option N) (filePath : jsstring)
           (origPath : option jsstring) (s : StatusSummary) : StatusSummary :=
  let st := staged s in
  let sm := samples s in
  if is_chr X "A" then
    set_samples (Samples.mk (push_sample (Samples.added sm) filePath)
                            (Samples.modified sm) (Samples.deleted sm)
                            (Samples.renamed sm) (Samples.untracked sm))
      (set_staged (Staged.mk (Staged.added st + 1) (Staged.modified st)
                             (Staged.deleted st) (Staged.renamed st)
                             (Staged.copied st)) s)
  else if is_chr X "M" then
    set_samples (Samples.mk (Samples.added sm)
                            (push_sample (Samples.modified sm) filePath)
                            (Samples.deleted sm)
                            (Samples.renamed sm) (Samples.untracked sm))
      (set_staged (Staged.mk (Staged.added st) (Staged.modified st + 1)
                             (Staged.deleted st) (Staged.renamed st)
                             (Staged.copied st)) s)
  else if is_chr X "D" then
    set_samples (Samples.mk (Samples.added sm) (Samples.modified sm)
                            (push_sample (Samples.deleted sm) filePath)
                            (Samples.renamed sm) (Samples.untracked sm))
      (set_staged (Staged.mk (Staged.added st) (Staged.modified st)
                             (Staged.deleted st + 1) (Staged.renamed st)
                             (Staged.copied st)) s)
  else if is_chr X "R" then
    set_samples (Samples.mk (Samples.added sm) (Samples.modified sm)
                            (Samples.deleted sm)
                            (push_sample (Samples.renamed sm)
                                         (rename_sample origPath filePath))
                            (Samples.untracked sm))
      (set_staged (Staged.mk (Staged.added st) (Staged.modified st)
                             (Staged.deleted st) (Staged.renamed st + 1)
                             (Staged.copied st)) s)
  else if is_chr X "C" then
    set_samples (Samples.mk (Samples.added sm) (Samples.modified sm)
                            (Samples.deleted sm)
                            (push_sample (Samples.renamed sm)
                                         (rename_sample origPath filePath))
                            (Samples.untracked sm))
      (set_staged (Staged.mk (Staged.added st) (Staged.modified st)
                             (Staged.deleted st) (Staged.renamed st)
                             (Staged.copied st + 1)) s)
  else s.

(** The "Unstaged changes" cascade on the worktree status [Y]. *)
Definition record_unstaged (Y : option N) (filePath : jsstring)
           (s : StatusSummary) : StatusSummary :=
  let us := unstaged s in
  let sm := samples s in
  if is_chr Y "M" then
    set_samples (Samples.mk (Samples.added sm)
                            (push_sample (Samples.modified sm) filePath)
                            (Samples.deleted sm)
                            (Samples.renamed sm) (Samples.untracked sm))
      (set_unstaged (Unstaged.mk (Unstaged.modified us + 1)
                                 (Unstaged.deleted us)) s)
  else if is_chr Y "D" then
    set_samples (Samples.mk (Samples.added sm) (Samples.modified sm)
                            (push_sample (Samples.deleted sm) filePath)
                            (Samples.renamed sm) (Samples.untracked sm))
      (set_unstaged (Unstaged.mk (Unstaged.modified us)
                                 (Unstaged.deleted us + 1)) s)
  else s.

(** The part of the loop body for a line of kind "1" or "2". *)
Definition changed_entry (type : option N) (line : jsstring)
           (s : StatusSummary) : StatusSummary :=
  let parts := split_ws line in
  if len parts <? 2 then s else
  match nth_error parts 1 with
  | None => s
  | Some xy =>
      if len xy <? 2 then s else
      let indexStatus := nth_error xy 0 in
      let worktreeStatus := nth_error xy 1 in
      let filePath := last parts [] in
      let origPath :=
        if is_chr type "2" && (3 <=? len parts)
        then nth_error parts (List.length parts - 2)
        else None in
      record_unstaged worktreeStatus filePath
        (record_staged indexStatus filePath origPath s)
  end.

(** One iteration of the loop over the lines. *)
Definition processLine (s : StatusSummary) (line : jsstring)
  : StatusSummary :=
  if startsWith (u "# ") line then
    if startsWith (u "# branch.head ") line then
      set_branch (Some (trim (slice (List.length (u "# branch.head ")) line))) s
    else if startsWith (u "# branch.ab ") line then
      let ab := trim (slice (List.length (u "# branch.ab ")) line) in
      match re_ab ab with
      | Some (m1, m2) =>
          set_ahead_behind (or0 (parseInt m1)) (or0 (parseInt m2)) s
      | None => s
      end
    else s
  else
    let type := nth_error line 0 in
    if is_chr type "?" then
      let s1 := set_untracked (untracked s + 1) s in
      let filePath := slice 2 line in
      let sm := samples s1 in
      set_samples (Samples.mk (Samples.added sm) (Samples.modified sm)
                              (Samples.deleted sm) (Samples.renamed sm)
                              (push_sample (Samples.untracked sm) filePath))
                  s1
    else if is_chr type "!" then s
    else if is_chr type "u" then set_conflicts (conflicts s + 1) s
    else if is_chr type "1" || is_chr type "2" then changed_entry type line s
    else s.

Definition parseStatus (output : jsstring) : StatusSummary :=
  fold_left processLine (lines_of output) empty_summary.

(* ------------------------------------------------------------------ *)
(** ** parseStatus with failure made explicit

    The same loop once more, now with the places where JavaScript could
    fail written out.  Reading a property of [null] or [undefined] throws
    a TypeError: [m[1]] when the match failed, [xy.length] and [xy[0]] when
    there is no second field.  Indexing an array out of range does not
    throw but yields [undefined], which must not end up as a path of the
    summary.  [None] stands for either failure; the guards of the source
    ([if (m)], [!xy || ...], [parts.length < 2]) are kept as tests of
    their own, apart from the accesses they protect. *)

Definition exn (X : Type) : Type := option X.

Definition ret {X : Type} (x : X) : exn X := Some x.

Definition bind {X Y : Type} (m : exn X) (k : X -> exn Y) : exn Y :=
  match m with
  | Some x => k x
  | None => None
  end.

Declare Scope exn_scope.
Delimit Scope exn_scope with exn.
Notation "x <- m ;; k" := (bind m (fun x => k))
  (at level 61, m at next level, right associativity) : exn_scope.

(** Access to a property or an element of [v]: fails when [v] is [null]
    or [undefined]. *)
Definition deref {X : Type} (v : option X) : exn X := v.

(** Truthiness of a match result ([null] or an array). *)
Definition matched {X : Type} (m : option X) : bool :=
  match m with Some _ => true | None => false end.

(** Truthiness of a possibly undefined string. *)
Definition truthy_str (v : option jsstring) : bool :=
  match v with Some (_ :: _) => true | _ => false end.

Definition changed_entry_exn (type : option N) (line : jsstring)
           (s : StatusSummary) : exn StatusSummary :=
  (let parts := split_ws line in
   if len parts <? 2 then ret s else
   let xy := nth_error parts 1 in
   skip <- (if negb (truthy_str xy) then ret true
            else (x <- deref xy ;; ret (len x <? 2))) ;;
   if (skip : bool) then ret s else
   x <- deref xy ;;
   let indexStatus := nth_error x 0 in
   let worktreeStatus := nth_error x 1 in
   filePath <- deref (nth_error parts (List.length parts - 1)) ;;
   let origPath :=
     if is_chr type "2" && (3 <=? len parts)
     then nth_error parts (List.length parts - 2)
     else None in
   ret (record_unstaged worktreeStatus filePath
          (record_staged indexStatus filePath origPath s)))%exn.

Definition processLine_exn (s : StatusSummary) (line : jsstring)
  : exn StatusSummary :=
  (if startsWith (u "# ") line then
     if startsWith (u "# branch.head ") line then
       ret (set_branch
              (Some (trim (slice (List.length (u "# branch.head ")) line))) s)
     else if startsWith (u "# branch.ab ") line then
       let ab := trim (slice (List.length (u "# branch.ab ")) line) in
       let m := re_ab ab in
       if matched m then
         g <- deref m ;;
         ret (set_ahead_behind (or0 (parseInt (fst g)))
                               (or0 (parseInt (snd g))) s)
       else ret s
     else ret s
   else
     let type := nth_error line 0 in
     if is_chr type "?" then
       let s1 := set_untracked (untracked s + 1) s in
       let filePath := slice 2 line in
       let sm := samples s1 in
       ret (set_samples
              (Samples.mk (Samples.added sm) (Samples.modified sm)
                          (Samples.deleted sm) (Samples.renamed sm)
                          (push_sample (Samples.untracked sm) filePath))
              s1)
     else if is_chr type "!" then ret s
     else if is_chr type "u" then ret (set_conflicts (conflicts s + 1) s)
     else if is_chr type "1" || is_chr type "2"
          then changed_entry_exn type line s
     else ret s)%exn.

Definition parseStatus_exn (output : jsstring) : exn StatusSummary :=
  fold_left (fun acc line => (s <- acc ;; processLine_exn s line)%exn)
            (lines_of output) (ret empty_summary).

(* ------------------------------------------------------------------ *)
(** ** getChangedFiles *)

(** [files.add(x)] on a [Set<string>], kept in insertion order (the order
    [Array.from] lists it in). *)
Definition set_add (x : jsstring) (files : list jsstring) : list jsstring :=
  if existsb (str_eqb x) files then files else files ++ [x].

(** [list.forEach(f => files.add(f))]. *)
Definition add_all (l : list jsstring) (files : list jsstring)
  : list jsstring :=
  fold_left (fun fs f => set_add f fs) l files.

(** The callback of [summary.samples.renamed.forEach]. *)
Definition add_rename (files : list jsstring) (f : jsstring)
  : list jsstring :=
  match re_rename f with
  | Some (m1, m2) => set_add m2 (set_add m1 files)
  | None => set_add f files
  end.

Definition getChangedFiles (summary : StatusSummary) (stagedOnly : bool)
  : list jsstring :=
  let sm := samples summary in
  if stagedOnly then
    fold_left add_rename (Samples.renamed sm)
      (add_all (Samples.deleted sm)
         (add_all (Samples.modified sm)
            (add_all (Samples.added sm) [])))
  else
    fold_left add_rename (Samples.renamed sm)
      (add_all (Samples.added sm ++ Samples.modified sm ++
                Samples.deleted sm ++ Samples.untracked sm) []).

(* ------------------------------------------------------------------ *)
(** ** buildSimpleMessage *)

(** [plural] of lib/utils.ts. *)
Definition plural (n : Z) (word : jsstring) : jsstring :=
  num n ++ u " " ++ word ++ (if n =? 1 then [] else u "s").

(** [addPart]: pushes onto [parts]. *)
Definition addPart (n : Z) (label : string) (parts : list jsstring)
  : list jsstring :=
  if 0 <? n then parts ++ [plural n (u label)] else parts.

Definition includeStaged (summary : StatusSummary) (opts : MessageOptions)
  : bool :=
  let st := staged summary in
  truthy (stagedOnly opts) ||
  (0 <? Staged.added st + Staged.modified st + Staged.deleted st +
        Staged.renamed st + Staged.copied st).

(** The array [parts] once both blocks of [addPart] calls have run. *)
Definition titleParts (summary : StatusSummary) (opts : MessageOptions)
  : list jsstring :=
  let st := staged summary in
  let us := unstaged summary in
  let parts := [] in
  let parts :=
    if includeStaged summary opts then
      let parts := addPart (Staged.added st) "added" parts in
      let parts := addPart (Staged.modified st) "modified" parts in
      let parts := addPart (Staged.deleted st) "deleted" parts in
      addPart (Staged.renamed st + Staged.copied st) "renamed" parts
    else parts in
  if negb (truthy (stagedOnly opts)) then
    let parts := addPart (Unstaged.modified us) "modified (unstaged)" parts in
    let parts := addPart (Unstaged.deleted us) "deleted (unstaged)" parts in
    let parts := addPart (untracked summary) "untracked" parts in
    addPart (conflicts summary) "conflict" parts
  else parts.

Definition titleCore (summary : StatusSummary) (opts : MessageOptions)
  : jsstring :=
  match titleParts summary opts with
  | [] => u "no changes"
  | parts => join (u ", ") parts
  end.

Definition title (summary : StatusSummary) (opts : MessageOptions)
  : jsstring :=
  let scope :=
    match branch summary with
    | Some (c :: b) => u "on " ++ c :: b
    | _ => []
    end in
  let ab :=
    if negb (ahead summary =? 0) || negb (behind summary =? 0)
    then u ", ahead " ++ num (ahead summary) ++
         u ", behind " ++ num (behind summary)
    else [] in
  titleCore summary opts ++
  (if nonempty scope then u " " ++ [EM_DASH] ++ u " " ++ scope else []) ++
  ab.

(** [limitList]: the pair of [list] and [more]. *)
Definition limitList (l : list jsstring) : list jsstring * Z :=
  if MAX_FILE_SAMPLES <? len l
  then (firstn (Z.to_nat MAX_FILE_SAMPLES) l, len l - MAX_FILE_SAMPLES)
  else (l, 0).

(** One body line: [`<category>: ${L.list.join(', ')}${L.more ? ...}`]. *)
Definition bodyLine (category : string) (L : list jsstring * Z) : jsstring :=
  u category ++ u ": " ++ join (u ", ") (fst L) ++
  (if snd L =? 0 then [] else u " (+" ++ num (snd L) ++ u " more)").

(** [if (L.list.length) bodyParts.push(line)]. *)
Definition pushLine (category : string) (L : list jsstring * Z)
           (bodyParts : list jsstring) : list jsstring :=
  if nonempty (fst L) then bodyParts ++ [bodyLine category L]
  else bodyParts.

Definition bodyParts (summary : StatusSummary) (opts : MessageOptions)
  : list jsstring :=
  let sm := samples summary in
  let addedL := limitList (Samples.added sm) in
  let modL := limitList (Samples.modified sm) in
  let delL := limitList (Samples.deleted sm) in
  let renL := limitList (Samples.renamed sm) in
  let untrackedL := limitList (Samples.untracked sm) in
  let b := pushLine "added" addedL [] in
  let b := pushLine "modified" modL b in
  let b := pushLine "deleted" delL b in
  let b := pushLine "renamed" renL b in
  if negb (truthy (stagedOnly opts)) then pushLine "untracked" untrackedL b
  else b.

Definition buildSimpleMessage (summary : StatusSummary)
           (opts : MessageOptions) : jsstring :=
  match bodyParts summary opts with
  | [] => title summary opts
  | b => title summary opts ++ [LF; LF] ++ join [LF] b
  end.

(* ------------------------------------------------------------------ *)
(** ** Helpers of lib/utils.ts *)

(** An index argument of [substring], brought into the range of the
    string: below 0 it counts as 0, above the length as the length. *)
Definition clamp (n : Z) (s : jsstring) : nat :=
  Z.to_nat (Z.min (Z.max n 0) (len s)).

(** [s.substring(a, b)]: the code units from the smaller to the larger of
    the two clamped indices. *)
Definition substring (a b : Z) (s : jsstring) : jsstring :=
  let a' := clamp a s in
  let b' := clamp b s in
  firstn (Nat.max a' b' - Nat.min a' b') (skipn (Nat.min a' b') s).

(** [s.substring(a)]. *)
Definition substring_from (a : Z) (s : jsstring) : jsstring :=
  substring a (len s) s.

(** [truncate(str, maxLength, suffix)]. *)
Definition truncate (str : jsstring) (maxLength : Z) (suffix : jsstring)
  : jsstring :=
  if negb (nonempty str) || (len str <=? maxLength) then str
  else substring 0 (maxLength - len suffix) str ++ suffix.

(** [maskString(str, start, end)]; [None] is [null] or [undefined]. *)
Definition maskString (str : option jsstring) (start end_ : Z) : jsstring :=
  match str with
  | Some s =>
      if negb (nonempty s) || (len s <=? start + end_) then u "***"
      else substring 0 start s ++ u "..." ++ substring_from (len s - end_) s
  | None => u "***"
  end.

(** A value of unknown type, as far as the code looks at it: whether it is
    [undefined], [null] or a string, and whether it is truthy. *)
Inductive jsval :=
| JUndefined
| JNull
| JString (s : jsstring)
| JOther (truthy : bool).

Definition js_truthy (v : jsval) : bool :=
  match v with
  | JUndefined | JNull => false
  | JString s => nonempty s
  | JOther b => b
  end.

(** [validateApiKey(apiKey)]. *)
Definition validateApiKey (apiKey : jsval) : bool :=
  if negb (js_truthy apiKey) then false else
  match apiKey with
  | JString s =>
      let trimmed := trim s in
      (20 <=? len trimmed) && (len trimmed <=? 200)
  | _ => false
  end.

(* ------------------------------------------------------------------ *)
(** ** The configuration (lib/config.ts)

    [getConfig] reads the configuration file; what it returns is the
    argument [config] of the functions below, [None] for [null].  A field
    the file does not give is [JUndefined].  The environment variables are
    arguments as well, [None] when unset. *)

Module Config.
Record t := mk { apiKey : jsval; model : jsval }.
End Config.

Module DisplayConfig.
Record t := mk
  { hasConfig : bool; apiKey : option jsstring; model : option jsval }.
End DisplayConfig.

Definition is_undefined (v : jsval) : bool :=
  match v with JUndefined => true | _ => false end.

(** [hasConfig()]. *)
Definition hasConfig (config : option Config.t) : bool :=
  match config with
  | Some c =>
      negb (is_undefined (Config.apiKey c)) && validateApiKey (Config.apiKey c)
  | None => false
  end.

(** [config?.field]. *)
Definition opt_field (field : Config.t -> jsval) (config : option Config.t)
  : jsval :=
  match config with
  | Some c => field c
  | None => JUndefined
  end.

(** An environment variable as a value. *)
Definition env_val (v : option jsstring) : jsval :=
  match v with
  | Some s => JString s
  | None => JUndefined
  end.

(** [a || b]. *)
Definition js_or (a b : jsval) : jsval := if js_truthy a then a else b.

(** [getApiKey()]: [config?.apiKey || process.env.GEMINI_API_KEY || null]. *)
Definition getApiKey (config : option Config.t)
           (GEMINI_API_KEY : option jsstring) : jsval :=
  js_or (js_or (opt_field Config.apiKey config) (env_val GEMINI_API_KEY))
        JNull.

(** [getModel(defaultModel)]. *)
Definition getModel (config : option Config.t)
           (GEMINI_MODEL : option jsstring) (defaultModel : jsstring)
  : jsval :=
  js_or (js_or (opt_field Config.model config) (env_val GEMINI_MODEL))
        (JString defaultModel).

(** [maskString(config.apiKey)] in [displayConfig].  The argument is
    declared a string; what a truthy value of another type would give is
    left open ([None]). *)
Definition maskString_val (v : jsval) : exn jsstring :=
  match v with
  | JString s => ret (maskString (Some s) 8 4)
  | JUndefined | JNull => ret (maskString None 8 4)
  | JOther false => ret (u "***")
  | JOther true => None
  end.

(** [displayConfig()]. *)
Definition displayConfig (config : option Config.t) : exn DisplayConfig.t :=
  match config with
  | Some c =>
      if hasConfig config then
        (maskedKey <- maskString_val (Config.apiKey c) ;;
         ret (DisplayConfig.mk true (Some maskedKey)
                (Some (js_or (Config.model c) (JString (u "default"))))))%exn
      else ret (DisplayConfig.mk false None None)
  | None => ret (DisplayConfig.mk false None None)
  end.

(** [hasApiKey] of the main command (bin/gcm.ts):
    [hasConfig() || !!process.env.GEMINI_API_KEY]. *)
Definition hasApiKey (config : option Config.t)
           (GEMINI_API_KEY : option jsstring) : bool :=
  hasConfig config || js_truthy (env_val GEMINI_API_KEY).

(* ------------------------------------------------------------------ *)
(** ** Errors (lib/errors.ts) and retry (lib/utils.ts) *)

(** What a [catch] clause can receive, as far as [retry] looks at it: an
    instance of [Error] with its message and its [code] property
    ([JUndefined] when it has none), or any other value with its
    truthiness. *)
Inductive thrown :=
| ErrorObj (message : jsstring) (code : jsval)
| Thrown (truthy : bool).

Definition ConfigError (message : jsstring) : thrown :=
  ErrorObj message (JString (u "CONFIG_ERROR")).
Definition GitError (message : jsstring) : thrown :=
  ErrorObj message (JString (u "GIT_ERROR")).
Definition APIError (message : jsstring) (code : option jsstring) : thrown :=
  ErrorObj message
    (JString (match code with Some c => c | None => u "API_ERROR" end)).
Definition ValidationError (message : jsstring) : thrown :=
  ErrorObj message (JString (u "VALIDATION_ERROR")).

Definition API_RETRY_ATTEMPTS : Z := 3.
Definition API_RETRY_DELAY : Z := 1000.
Definition API_RETRY_BACKOFF : Z := 2.

(** The test that makes [retry] rethrow at once. *)
Definition no_retry (e : thrown) : bool :=
  match e with
  | ErrorObj _ (JString c) =>
      str_eqb c (u "VALIDATION_ERROR") || str_eqb c (u "CONFIG_ERROR")
  | _ => false
  end.

(** [lastError || new Error('Retry failed')]. *)
Definition last_or_failed (lastError : option thrown) : thrown :=
  match lastError with
  | Some (ErrorObj m c) => ErrorObj m c
  | Some (Thrown true) => Thrown true
  | _ => ErrorObj (u "Retry failed") JUndefined
  end.

(** One run of [retry]: how it ended, the state [fn] left behind, what
    each call of [fn] gave, in order, and the waiting times between the
    calls, in milliseconds. *)
Record run (St T : Type) := mkRun
  { outcome : T + thrown;
    final : St;
    trace : list (T + thrown);
    waits : list Z }.
Arguments mkRun {St T}.
Arguments outcome {St T}.
Arguments final {St T}.
Arguments trace {St T}.
Arguments waits {St T}.

Section Retry.
Context {St T : Type}.
(** The operation that is retried.  It may depend on, and change, the
    state of the world: it takes the state and returns the new one with
    its result, [inl] a value, [inr] what it threw. *)
Variable fn : St -> (T + thrown) * St.
Variables maxAttempts delay : Z.

(** The [for] loop, from the current value of [attempt] onwards;
    [attempts] lists the values the loop variable still takes. *)
Fixpoint retry_loop (attempts : list Z) (lastError : option thrown) (st : St)
  : run St T :=
  match attempts with
  | [] => mkRun (inr (last_or_failed lastError)) st [] []
  | attempt :: rest =>
      match fn st with
      | (inl v, st') => mkRun (inl v) st' [inl v] []
      | (inr e, st') =>
          if no_retry e then mkRun (inr e) st' [inr e] []
          else
            let w := if attempt <? maxAttempts
                     then [delay * API_RETRY_BACKOFF ^ (attempt - 1)]
                     else [] in
            let r := retry_loop rest (Some e) st' in
            mkRun (outcome r) (final r) (inr e :: trace r) (w ++ waits r)
      end
  end.

(** [retry(fn, maxAttempts, delay)]. *)
Definition retry (st : St) : run St T :=
  retry_loop (map Z.of_nat (seq 1 (Z.to_nat maxAttempts))) None st.
End Retry.

(** An error that is retried: thrown, and not one that [retry] rethrows. *)
Definition retried {T : Type} (o : T + thrown) : Prop :=
  exists e, o = inr e /\ no_retry e = false.

(** The waiting times before the calls number 2 to [n]. *)
Definition backoff (delay : Z) (n : nat) : list Z :=
  map (fun k => delay * 2 ^ Z.of_nat k) (seq 0 (n - 1)).

(* ------------------------------------------------------------------ *)
(** ** The logger (lib/logger.ts) *)

(** What reading a property of an object literal gives: the value of one
    of its own properties, something inherited from [Object.prototype] (a
    function or an object, never a number), or [undefined]. *)
Inductive property :=
| Own (n : Z)
| Inherited
| Missing.

(** The property names every object inherits from [Object.prototype]. *)
Definition OBJECT_PROTOTYPE : list jsstring :=
  map u ["constructor"; "__defineGetter__"; "__defineSetter__";
         "hasOwnProperty"; "__lookupGetter__"; "__lookupSetter__";
         "isPrototypeOf"; "propertyIsEnumerable"; "toString"; "valueOf";
         "__proto__"; "toLocaleString"]%string.

Definition LEVEL_ERROR : Z := 0.
Definition LEVEL_WARN : Z := 1.
Definition LEVEL_INFO : Z := 2.
Definition LEVEL_DEBUG : Z := 3.

(** [LOG_LEVELS[key]]. *)
Definition LOG_LEVELS (key : jsstring) : property :=
  if str_eqb key (u "ERROR") then Own LEVEL_ERROR
  else if str_eqb key (u "WARN") then Own LEVEL_WARN
  else if str_eqb key (u "INFO") then Own LEVEL_INFO
  else if str_eqb key (u "DEBUG") then Own LEVEL_DEBUG
  else if existsb (str_eqb key) OBJECT_PROTOTYPE then Inherited
  else Missing.

(** [a-z]. *)
Definition is_lower (c : N) : bool := ((97 <=? c) && (c <=? 122))%N.

(** No code unit of [s] is a lower-case ASCII letter, as is the case for
    every result of [String.prototype.toUpperCase]. *)
Definition no_lower (s : jsstring) : bool :=
  forallb (fun c => negb (is_lower c)) s.

(** Upper-casing of the ASCII letters, the other code units kept. *)
Definition ascii_upper (s : jsstring) : jsstring :=
  map (fun c => if is_lower c then (c - 32)%N else c) s.

Module Logger.

(** The two fields of a logger.  [level] is [None] when it is not a
    number; a comparison with it is then false. *)
Record t := mk { level : option Z; verbose : bool }.

(** [this.level >= n]. *)
Definition level_ge (l : t) (n : Z) : bool :=
  match level l with
  | Some z => n <=? z
  | None => false
  end.

Section Methods.
(** [String.prototype.toUpperCase], which the constructor applies to the
    name of the level. *)
Variable toUpperCase : jsstring -> jsstring.
(** The type of the arguments that are logged. *)
Context {X : Type}.

(** [new Logger(level, verbose)]:
    [LOG_LEVELS[level.toUpperCase()] || LOG_LEVELS.INFO]. *)
Definition new (lvl : jsstring) (verbose : bool) : t :=
  mk (match LOG_LEVELS (toUpperCase lvl) with
      | Own n => Some (if n =? 0 then LEVEL_INFO else n)
      | Inherited => None
      | Missing => Some LEVEL_INFO
      end)
     verbose.

(** The methods: the arguments handed to [console.error], [None] when
    nothing is written. *)
Definition error (l : t) (args : list X) : option (list (jsstring + X)) :=
  if level_ge l LEVEL_ERROR then Some (inl (u "ERROR:") :: map inr args)
  else None.

Definition warn (l : t) (args : list X) : option (list (jsstring + X)) :=
  if level_ge l LEVEL_WARN then Some (inl (u "WARN:") :: map inr args)
  else None.

Definition info (l : t) (args : list X) : option (list (jsstring + X)) :=
  if level_ge l LEVEL_INFO then Some (map inr args) else None.

Definition debug (l : t) (args : list X) : option (list (jsstring + X)) :=
  if level_ge l LEVEL_DEBUG || verbose l
  then Some (inl (u "DEBUG:") :: map inr args)
  else None.
End Methods.
End Logger.

(* ------------------------------------------------------------------ *)
(** ** The main command (bin/gcm.ts) *)

(** [hasChanges]: what the main command computes from the summary before
    it builds a message; when it is false the command prints that there is
    nothing to commit and exits. *)
Definition hasChanges (summary : StatusSummary) (opts : MessageOptions)
  : bool :=
  let st := staged summary in
  let us := unstaged summary in
  (0 <? Staged.added st + Staged.modified st + Staged.deleted st +
        Staged.renamed st + Staged.copied st) ||
  (negb (truthy (stagedOnly opts)) &&
   (0 <? Unstaged.modified us + Unstaged.deleted us + untracked summary)).

(* ------------------------------------------------------------------ *)
(** ** getDiff (lib/git.ts) *)

Definition MAX_DIFF_SIZE : Z := 50000.
Definition MAX_FILES_FOR_DIFF : Z := 20.

(** The two notes [getDiff] can append. *)
Definition TRUNCATED : jsstring := [LF; LF] ++ u "[... diff truncated ...]".

Definition not_shown (remainingCount : Z) : jsstring :=
  [LF; LF] ++ u "[" ++ num remainingCount ++
  u " more file(s) changed but diff not shown]".

Section GetDiff.
(** [runGit(args).stdout] for the arguments [args]: what git prints, or
    [None] when [runGit] throws. *)
Variable runGit : list jsstring -> exn jsstring.

Definition getDiff (files : list jsstring) (stagedOnly : bool) : jsstring :=
  if len files =? 0 then [] else
  let filesToDiff := firstn (Z.to_nat MAX_FILES_FOR_DIFF) files in
  let remainingCount := len files - len filesToDiff in
  let attempt : exn jsstring :=
    (if stagedOnly then
       result <- runGit (map u ["diff"; "--cached"; "--"]%string
                         ++ filesToDiff) ;;
       ret result
     else
       staged <- runGit (map u ["diff"; "--cached"; "--"]%string
                         ++ filesToDiff) ;;
       unstaged <- runGit (map u ["diff"; "--"]%string ++ filesToDiff) ;;
       let diffOutput :=
         if nonempty staged
         then u "=== STAGED CHANGES ===" ++ [LF] ++ staged ++ [LF; LF]
         else [] in
       ret (if nonempty unstaged
            then diffOutput ++ u "=== UNSTAGED CHANGES ===" ++ [LF]
                 ++ unstaged
            else diffOutput))%exn in
  match attempt with
  | None => []
  | Some diffOutput =>
      let diffOutput :=
        if MAX_DIFF_SIZE <? len diffOutput
        then substring 0 MAX_DIFF_SIZE diffOutput ++ TRUNCATED
        else diffOutput in
      if 0 <? remainingCount then diffOutput ++ not_shown remainingCount
      else diffOutput
  end.
End GetDiff.

(* ------------------------------------------------------------------ *)
(** ** Prompt templates (lib/templates.ts) *)

Definition MAX_FILE_LIST_DISPLAY : Z := 30.
Definition MAX_SUBJECT_LENGTH : Z := 72.
Definition MAX_BODY_LINE_LENGTH : Z := 72.

(** The double quote, and U+2264 LESS-THAN OR EQUAL TO. *)
Definition QUOTE : N := 34%N.
Definition LESS_EQUAL : N := 8804%N.

(** A word between double quotes. *)
Definition quoted (s : string) : jsstring := [QUOTE] ++ u s ++ [QUOTE].

(** The last part of [DEFAULT_TEMPLATE], with the two places where it
    names a length left open. *)
Definition requirements (subject body : jsstring) : jsstring :=
  u "Requirements:" ++ [LF] ++
  u "- Use Conventional Commits format (e.g., " ++ quoted "feat:" ++
  u ", " ++ quoted "fix:" ++ u ", " ++ quoted "refactor:" ++ u ", " ++
  quoted "docs:" ++ u ", " ++ quoted "style:" ++ u ", " ++ quoted "test:" ++
  u ", " ++ quoted "chore:" ++ u ")" ++ [LF] ++
  u "- Subject line should be " ++ [LESS_EQUAL] ++ u " " ++ subject ++
  u " characters" ++ [LF] ++
  u "- Use present tense, imperative mood (e.g., " ++ quoted "Add feature" ++
  u " not " ++ quoted "Added feature" ++ u ")" ++ [LF] ++
  u "- Be specific about what changed and why (if clear from diff)" ++ [LF] ++
  u "- If there's a body, wrap at " ++ body ++ u " characters" ++ [LF] ++
  u "- Focus on the " ++ quoted "what" ++ u " and " ++ quoted "why" ++
  u ", not just " ++ quoted "how" ++ [LF; LF] ++
  u "Generate ONLY the commit message (title and optional body). Do not include any explanations or markdown formatting.".

(** The first sentences of [DEFAULT_TEMPLATE]. *)
Definition introduction : jsstring :=
  u "You are an expert developer writing git commit messages. Generate a clear, concise commit message based on the following git changes." ++
  [LF; LF].

Definition DEFAULT_TEMPLATE : jsstring :=
  introduction ++
  u "Branch: {{branch}}" ++ [LF] ++
  u "Changes: {{changes}}" ++ [LF] ++
  u "{{#if branchStatus}}Branch status: {{branchStatus}}" ++ [LF] ++
  u "{{/if}}Files changed:" ++ [LF] ++
  u "{{files}}" ++ [LF; LF] ++
  u "{{#if diff}}" ++ [LF] ++
  u "Git diff:" ++ [LF] ++
  u "{{diff}}" ++ [LF] ++
  u "{{else}}" ++ [LF] ++
  u "No diff available (likely new/untracked files)" ++ [LF] ++
  u "{{/if}}" ++ [LF; LF] ++
  requirements (u "{{maxSubjectLength}}") (u "{{maxBodyLength}}").

(** [\w]. *)
Definition is_word (c : N) : bool :=
  ((65 <=? c) && (c <=? 90) || (97 <=? c) && (c <=? 122) ||
   (48 <=? c) && (c <=? 57) || (c =? 95))%N.

(** [[\s\S]]: any code unit. *)
Definition is_any (c : N) : bool := true.

(** [/\{\{(\w+)\}\}/] tried at the start of [s]: the group and the text
    after the match. *)
Definition re_var_at (s : jsstring) : option (jsstring * jsstring) :=
  lit (u "{{") s (fun s1 =>
  greedy_plus is_word s1 (fun key s2 =>
  lit (u "}}") s2 (fun s3 =>
  Some (key, s3)))).

(** [/\{\{#if\s+(\w+)\}\}([\s\S]*?)\{\{\/if\}\}/] tried at the start of
    [s]: the two groups and the text after the match. *)
Definition re_if_at (s : jsstring) : option (jsstring * jsstring * jsstring) :=
  lit (u "{{#if") s (fun s1 =>
  greedy_plus is_space s1 (fun _ s2 =>
  greedy_plus is_word s2 (fun key s3 =>
  lit (u "}}") s3 (fun s4 =>
  lazy_star is_any s4 (fun content s5 =>
  lit (u "{{/if}}") s5 (fun s6 =>
  Some (key, content, s6))))))).

Section Replace.
(** A pattern with its replacement function, tried at the start of a
    text: the replacement and the text after the match. *)
Variable match_at : jsstring -> option (jsstring * jsstring).

(** [s.replace(/.../g, f)] for a pattern that matches no empty text: the
    text is scanned from left to right; where the pattern matches, the
    replacement is put and the scan goes on after the match, over the
    original text.  [skip] counts the code units of a match that are still
    to be passed over. *)
Fixpoint replace_from (skip : nat) (s : jsstring) : jsstring :=
  match s with
  | [] => []
  | c :: s' =>
      match skip with
      | S k => replace_from k s'
      | O =>
          match match_at s with
          | Some (replacement, rest) =>
              replacement ++
              replace_from (List.length s - List.length rest - 1) s'
          | None => c :: replace_from 0 s'
          end
      end
  end.

Definition replace_all (s : jsstring) : jsstring := replace_from 0 s.
End Replace.

Module TemplateData.
Record t := mk
  { branch : jsstring;
    changes : jsstring;
    branchStatus : option jsstring;
    files : jsstring;
    diff : option jsstring;
    maxSubjectLength : Z;
    maxBodyLength : Z }.
End TemplateData.

(** What [data[key]] can be. *)
Inductive tvalue :=
| VString (s : jsstring)
| VNull
| VNumber (n : Z)
| VInherited (key : jsstring)
| VUndefined.

(** A field that holds a string or [null]. *)
Definition nullable (v : option jsstring) : tvalue :=
  match v with
  | Some s => VString s
  | None => VNull
  end.

(** [data[key]]: a field of the data, or else what every object inherits
    from [Object.prototype]. *)
Definition data_get (data : TemplateData.t) (key : jsstring) : tvalue :=
  if str_eqb key (u "branch") then VString (TemplateData.branch data)
  else if str_eqb key (u "changes") then VString (TemplateData.changes data)
  else if str_eqb key (u "branchStatus")
       then nullable (TemplateData.branchStatus data)
  else if str_eqb key (u "files") then VString (TemplateData.files data)
  else if str_eqb key (u "diff") then nullable (TemplateData.diff data)
  else if str_eqb key (u "maxSubjectLength")
       then VNumber (TemplateData.maxSubjectLength data)
  else if str_eqb key (u "maxBodyLength")
       then VNumber (TemplateData.maxBodyLength data)
  else if existsb (str_eqb key) OBJECT_PROTOTYPE then VInherited key
  else VUndefined.

(** Truthiness of a value. *)
Definition tvalue_truthy (v : tvalue) : bool :=
  match v with
  | VString s => nonempty s
  | VNull | VUndefined => false
  | VNumber n => negb (n =? 0)
  | VInherited _ => true
  end.

Section Templates.
(** [String(v)] for the inherited property [v] of the given name (the
    source text of a built-in function, as a rule). *)
Variable inherited_text : jsstring -> jsstring.
(** The custom templates on disk: the content of the file of the template
    of the given name, when there is one. *)
Variable stored : jsstring -> option jsstring.

(** [String(value)]. *)
Definition String_of (v : tvalue) : jsstring :=
  match v with
  | VString s => s
  | VNull => u "null"
  | VNumber n => num n
  | VInherited key => inherited_text key
  | VUndefined => u "undefined"
  end.

(** The replacement function of the first [replace]; the matched text is
    the group between the braces. *)
Definition var_at (data : TemplateData.t) (s : jsstring)
  : option (jsstring * jsstring) :=
  match re_var_at s with
  | Some (key, rest) =>
      let matched := u "{{" ++ key ++ u "}}" in
      let value := data_get data key in
      Some (match value with
            | VUndefined => matched
            | _ => String_of value
            end, rest)
  | None => None
  end.

(** The replacement function of the second [replace]. *)
Definition if_at (data : TemplateData.t) (s : jsstring)
  : option (jsstring * jsstring) :=
  match re_if_at s with
  | Some (key, content, rest) =>
      Some (if tvalue_truthy (data_get data key) then content else [], rest)
  | None => None
  end.

Definition renderTemplate (template : jsstring) (data : TemplateData.t)
  : jsstring :=
  let result := template in
  let result := replace_all (var_at data) result in
  let result := replace_all (if_at data) result in
  result.

(** [getTemplate(templateName)]. *)
Definition getTemplate (templateName : jsstring) : jsstring :=
  if str_eqb templateName (u "default") then DEFAULT_TEMPLATE
  else match stored templateName with
       | Some content => content
       | None => DEFAULT_TEMPLATE
       end.

(** [if (n > 0) changeSummary.push(`${n}<text>`)]. *)
Definition pushChange (n : Z) (text : string) (changeSummary : list jsstring)
  : list jsstring :=
  if 0 <? n then changeSummary ++ [num n ++ u text] else changeSummary.

Definition changeSummary (summary : StatusSummary) (opts : MessageOptions)
  : list jsstring :=
  let st := staged summary in
  let l := [] in
  let l := pushChange (Staged.added st) " file(s) added" l in
  let l := pushChange (Staged.modified st) " file(s) modified" l in
  let l := pushChange (Staged.deleted st) " file(s) deleted" l in
  let l := pushChange (Staged.renamed st) " file(s) renamed" l in
  if negb (truthy (stagedOnly opts)) then
    let l := pushChange (Unstaged.modified (unstaged summary))
                        " file(s) modified (unstaged)" l in
    pushChange (untracked summary) " untracked file(s)" l
  else l.

Definition branchStatus (summary : StatusSummary) : option jsstring :=
  if (0 <? ahead summary) || (0 <? behind summary)
  then Some (num (ahead summary) ++ u " ahead, " ++
             num (behind summary) ++ u " behind remote")
  else None.

Definition filesList (files : list jsstring) : jsstring :=
  join [LF] (map (fun f => u "- " ++ f)
                 (firstn (Z.to_nat MAX_FILE_LIST_DISPLAY) files)) ++
  (if MAX_FILE_LIST_DISPLAY <? len files
   then [LF] ++ u "... and " ++ num (len files - MAX_FILE_LIST_DISPLAY) ++
        u " more file(s)"
   else []).

(** [summary.branch || 'unknown']. *)
Definition branch_or_unknown (summary : StatusSummary) : jsstring :=
  match branch summary with
  | Some (c :: b) => c :: b
  | _ => u "unknown"
  end.

Definition templateData (summary : StatusSummary) (diff : jsstring)
           (files : list jsstring) (opts : MessageOptions)
  : TemplateData.t :=
  TemplateData.mk (branch_or_unknown summary)
                  (join (u ", ") (changeSummary summary opts))
                  (branchStatus summary)
                  (filesList files)
                  (if nonempty diff then Some diff else None)
                  MAX_SUBJECT_LENGTH MAX_BODY_LINE_LENGTH.

Definition buildPromptFromTemplate (summary : StatusSummary)
           (diff : jsstring) (files : list jsstring) (opts : MessageOptions)
           (templateName : jsstring) : jsstring :=
  let template := getTemplate templateName in
  renderTemplate template (templateData summary diff files opts).
End Templates.

(* ------------------------------------------------------------------ *)
(** ** The summary as objects in a store

    [parseStatus] builds its result by mutation: the summary is an object
    that refers to three further objects ([staged], [unstaged],
    [samples]), the last of which refers to five arrays, and the loop
    assigns to their fields and pushes onto the arrays.  Here the two
    functions are written once more over a store of such objects, with
    every read and every write of the source in its place.  A location is
    an index into the store; an access to a location that holds no object
    of the expected kind fails.  Every array that the code writes to is
    an object of the store: the five sample arrays, and the arrays
    [parts] and [bodyParts] of [buildSimpleMessage]; the arrays that are
    only read once made (the lines, the fields of a line, a match) are
    values, as are strings and numbers. *)

Definition loc : Type := nat.

(** The fields of a summary object. *)
Record summary_cell := mkSummaryCell
  { sc_branch : option jsstring;
    sc_ahead : Z;
    sc_behind : Z;
    sc_staged : loc;
    sc_unstaged : loc;
    sc_untracked : Z;
    sc_conflicts : Z;
    sc_samples : loc }.

(** The fields of a [samples] object: one array each. *)
Record samples_cell := mkSamplesCell
  { sa_added : loc;
    sa_modified : loc;
    sa_deleted : loc;
    sa_renamed : loc;
    sa_untracked : loc }.

Inductive cell :=
| CArray (items : list jsstring)
| CStaged (v : Staged.t)
| CUnstaged (v : Unstaged.t)
| CSamples (v : samples_cell)
| CSummary (v : summary_cell).

Definition store : Type := list cell.

(** The store with the object at [l] replaced. *)
Fixpoint upd (l : loc) (c : cell) (h : store) : store :=
  match h, l with
  | [], _ => []
  | _ :: h', O => c :: h'
  | x :: h', S l' => x :: upd l' c h'
  end.

(** A computation on the store: it fails, or returns a value and the
    store it leaves. *)
Definition St (X : Type) : Type := store -> exn (X * store).

Definition retS {X : Type} (x : X) : St X := fun h => Some (x, h).

Definition bindS {X Y : Type} (m : St X) (k : X -> St Y) : St Y :=
  fun h =>
    match m h with
    | Some (x, h') => k x h'
    | None => None
    end.

Declare Scope st_scope.
Delimit Scope st_scope with st.
Notation "x <- m ;; k" := (bindS m (fun x => k))
  (at level 61, m at next level, right associativity) : st_scope.
Notation "m ;;; k" := (bindS m (fun _ => k))
  (at level 61, right associativity) : st_scope.

(** A new object. *)
Definition alloc (c : cell) : St loc :=
  fun h => Some (List.length h, h ++ [c]).

(** The object at [l]. *)
Definition get (l : loc) : St cell :=
  fun h =>
    match nth_error h l with
    | Some c => Some (c, h)
    | None => None
    end.

(** Assignment to the object at [l]. *)
Definition put (l : loc) (c : cell) : St unit :=
  fun h => if (l <? List.length h)%nat then Some (tt, upd l c h) else None.

Definition failS {X : Type} : St X := fun _ => None.

(** [summary], [summary.staged], [summary.unstaged], [summary.samples]
    read through the reference [r] to the summary. *)
Definition read_summary (r : loc) : St summary_cell :=
  (c <- get r ;;
   match c with CSummary v => retS v | _ => failS end)%st.

Definition read_staged (r : loc) : St (loc * Staged.t) :=
  (v <- read_summary r ;;
   c <- get (sc_staged v) ;;
   match c with CStaged x => retS (sc_staged v, x) | _ => failS end)%st.

Definition read_unstaged (r : loc) : St (loc * Unstaged.t) :=
  (v <- read_summary r ;;
   c <- get (sc_unstaged v) ;;
   match c with CUnstaged x => retS (sc_unstaged v, x) | _ => failS end)%st.

Definition read_samples (r : loc) : St samples_cell :=
  (v <- read_summary r ;;
   c <- get (sc_samples v) ;;
   match c with CSamples x => retS x | _ => failS end)%st.

(** The five sample lists. *)
Inductive bucket := BAdded | BModified | BDeleted | BRenamed | BUntracked.

Definition bucket_loc (b : bucket) (v : samples_cell) : loc :=
  match b with
  | BAdded => sa_added v
  | BModified => sa_modified v
  | BDeleted => sa_deleted v
  | BRenamed => sa_renamed v
  | BUntracked => sa_untracked v
  end.

(** [summary.samples.<b>]: the array and what it holds. *)
Definition read_bucket (r : loc) (b : bucket) : St (loc * list jsstring) :=
  (v <- read_samples r ;;
   c <- get (bucket_loc b v) ;;
   match c with
   | CArray items => retS (bucket_loc b v, items)
   | _ => failS
   end)%st.

(** [summary.<field> = ...] for the fields that hold a value. *)
Definition assign_summary (r : loc) (f : summary_cell -> summary_cell)
  : St unit :=
  (v <- read_summary r ;; put r (CSummary (f v)))%st.

(** [summary.staged.<field> += 1]. *)
Definition assign_staged (r : loc) (f : Staged.t -> Staged.t) : St unit :=
  (lv <- read_staged r ;; put (fst lv) (CStaged (f (snd lv))))%st.

(** [summary.unstaged.<field> += 1]. *)
Definition assign_unstaged (r : loc) (f : Unstaged.t -> Unstaged.t)
  : St unit :=
  (lv <- read_unstaged r ;; put (fst lv) (CUnstaged (f (snd lv))))%st.

(** [if (summary.samples.<b>.length < MAX_FILE_SAMPLES)
       summary.samples.<b>.push(p)]. *)
Definition push_sample_st (r : loc) (b : bucket) (p : jsstring) : St unit :=
  (li <- read_bucket r b ;;
   if len (snd li) <? MAX_FILE_SAMPLES
   then put (fst li) (CArray (snd li ++ [p]))
   else retS tt)%st.

(** The "Staged changes" cascade. *)
Definition record_staged_st (r : loc) (X : option N) (filePath : jsstring)
           (origPath : option jsstring) : St unit :=
  (if is_chr X "A" then
     assign_staged r (fun st =>
       Staged.mk (Staged.added st + 1) (Staged.modified st)
                 (Staged.deleted st) (Staged.renamed st) (Staged.copied st)) ;;;
     push_sample_st r BAdded filePath
   else if is_chr X "M" then
     assign_staged r (fun st =>
       Staged.mk (Staged.added st) (Staged.modified st + 1)
                 (Staged.deleted st) (Staged.renamed st) (Staged.copied st)) ;;;
     push_sample_st r BModified filePath
   else if is_chr X "D" then
     assign_staged r (fun st =>
       Staged.mk (Staged.added st) (Staged.modified st)
                 (Staged.deleted st + 1) (Staged.renamed st)
                 (Staged.copied st)) ;;;
     push_sample_st r BDeleted filePath
   else if is_chr X "R" then
     assign_staged r (fun st =>
       Staged.mk (Staged.added st) (Staged.modified st)
                 (Staged.deleted st) (Staged.renamed st + 1)
                 (Staged.copied st)) ;;;
     push_sample_st r BRenamed (rename_sample origPath filePath)
   else if is_chr X "C" then
     assign_staged r (fun st =>
       Staged.mk (Staged.added st) (Staged.modified st)
                 (Staged.deleted st) (Staged.renamed st)
                 (Staged.copied st + 1)) ;;;
     push_sample_st r BRenamed (rename_sample origPath filePath)
   else retS tt)%st.

(** The "Unstaged changes" cascade. *)
Definition record_unstaged_st (r : loc) (Y : option N) (filePath : jsstring)
  : St unit :=
  (if is_chr Y "M" then
     assign_unstaged r (fun us =>
       Unstaged.mk (Unstaged.modified us + 1) (Unstaged.deleted us)) ;;;
     push_sample_st r BModified filePath
   else if is_chr Y "D" then
     assign_unstaged r (fun us =>
       Unstaged.mk (Unstaged.modified us) (Unstaged.deleted us + 1)) ;;;
     push_sample_st r BDeleted filePath
   else retS tt)%st.

(** The part of the loop body for a line of kind "1" or "2". *)
Definition changed_entry_st (r : loc) (type : option N) (line : jsstring)
  : St unit :=
  let parts := split_ws line in
  if len parts <? 2 then retS tt else
  match nth_error parts 1 with
  | None => retS tt
  | Some xy =>
      if len xy <? 2 then retS tt else
      let indexStatus := nth_error xy 0 in
      let worktreeStatus := nth_error xy 1 in
      let filePath := last parts [] in
      let origPath :=
        if is_chr type "2" && (3 <=? len parts)
        then nth_error parts (List.length parts - 2)
        else None in
      (record_staged_st r indexStatus filePath origPath ;;;
       record_unstaged_st r worktreeStatus filePath)%st
  end.

(** One iteration of the loop over the lines. *)
Definition processLine_st (r : loc) (line : jsstring) : St unit :=
  if startsWith (u "# ") line then
    if startsWith (u "# branch.head ") line then
      assign_summary r (fun v =>
        mkSummaryCell
          (Some (trim (slice (List.length (u "# branch.head ")) line)))
          (sc_ahead v) (sc_behind v) (sc_staged v) (sc_unstaged v)
          (sc_untracked v) (sc_conflicts v) (sc_samples v))
    else if startsWith (u "# branch.ab ") line then
      let ab := trim (slice (List.length (u "# branch.ab ")) line) in
      match re_ab ab with
      | Some (m1, m2) =>
          (assign_summary r (fun v =>
             mkSummaryCell (sc_branch v) (or0 (parseInt m1)) (sc_behind v)
               (sc_staged v) (sc_unstaged v) (sc_untracked v)
               (sc_conflicts v) (sc_samples v)) ;;;
           assign_summary r (fun v =>
             mkSummaryCell (sc_branch v) (sc_ahead v) (or0 (parseInt m2))
               (sc_staged v) (sc_unstaged v) (sc_untracked v)
               (sc_conflicts v) (sc_samples v)))%st
      | None => retS tt
      end
    else retS tt
  else
    let type := nth_error line 0 in
    if is_chr type "?" then
      (assign_summary r (fun v =>
         mkSummaryCell (sc_branch v) (sc_ahead v) (sc_behind v)
           (sc_staged v) (sc_unstaged v) (sc_untracked v + 1)
           (sc_conflicts v) (sc_samples v)) ;;;
       push_sample_st r BUntracked (slice 2 line))%st
    else if is_chr type "!" then retS tt
    else if is_chr type "u" then
      assign_summary r (fun v =>
        mkSummaryCell (sc_branch v) (sc_ahead v) (sc_behind v)
          (sc_staged v) (sc_unstaged v) (sc_untracked v)
          (sc_conflicts v + 1) (sc_samples v))
    else if is_chr type "1" || is_chr type "2"
         then changed_entry_st r type line
    else retS tt.

(** [for (const line of lines) ...]. *)
Fixpoint for_lines (r : loc) (lines : list jsstring) : St unit :=
  match lines with
  | [] => retS tt
  | line :: rest => (processLine_st r line ;;; for_lines r rest)%st
  end.

(** [parseStatus(output)]: the object literal, the loop, and the
    reference to the summary as the result. *)
Definition parseStatus_st (output : jsstring) : St loc :=
  let lines := lines_of output in
  (staged <- alloc (CStaged (Staged.mk 0 0 0 0 0)) ;;
   unstaged <- alloc (CUnstaged (Unstaged.mk 0 0)) ;;
   added <- alloc (CArray []) ;;
   modified <- alloc (CArray []) ;;
   deleted <- alloc (CArray []) ;;
   renamed <- alloc (CArray []) ;;
   untracked <- alloc (CArray []) ;;
   samples <- alloc (CSamples (mkSamplesCell added modified deleted renamed
                                             untracked)) ;;
   summary <- alloc (CSummary (mkSummaryCell None 0 0 staged unstaged 0 0
                                             samples)) ;;
   for_lines summary lines ;;;
   retS summary)%st.

(** The items of the array [a], and [a.push(x)]. *)
Definition read_arr (a : loc) : St (list jsstring) :=
  (c <- get a ;;
   match c with CArray items => retS items | _ => failS end)%st.

Definition push_arr (a : loc) (x : jsstring) : St unit :=
  (items <- read_arr a ;; put a (CArray (items ++ [x])))%st.

(** [addPart]: the closure over the array [parts]. *)
Definition addPart_st (parts : loc) (n : Z) (label : string) : St unit :=
  if 0 <? n then push_arr parts (plural n (u label)) else retS tt.

(** [opts.stagedOnly || (summary.staged.added + ... > 0)]: the counters
    are read when [stagedOnly] is falsy. *)
Definition includeStaged_st (r : loc) (opts : MessageOptions) : St bool :=
  if truthy (stagedOnly opts) then retS true
  else
    (st <- read_staged r ;;
     retS (0 <? Staged.added (snd st) + Staged.modified (snd st) +
                Staged.deleted (snd st) + Staged.renamed (snd st) +
                Staged.copied (snd st)))%st.

(** [limitList]: the object it returns refers to the array it was given,
    or to a new one with the first [MAX_FILE_SAMPLES] items. *)
Definition limitList_st (list : loc) : St (loc * Z) :=
  (items <- read_arr list ;;
   if MAX_FILE_SAMPLES <? len items
   then
     cut <- alloc (CArray (firstn (Z.to_nat MAX_FILE_SAMPLES) items)) ;;
     retS (cut, len items - MAX_FILE_SAMPLES)
   else retS (list, 0))%st.

(** [if (L.list.length) bodyParts.push(line)]. *)
Definition pushLine_st (bodyParts : loc) (category : string) (L : loc * Z)
  : St unit :=
  (items <- read_arr (fst L) ;;
   if nonempty items
   then push_arr bodyParts (bodyLine category (items, snd L))
   else retS tt)%st.

(** [buildSimpleMessage(summary, opts)], statement by statement: the
    arrays [parts] and [bodyParts] are new objects of the store, and the
    fields of the summary are read where the source reads them. *)
Definition buildSimpleMessage_st (r : loc) (opts : MessageOptions)
  : St jsstring :=
  (parts <- alloc (CArray []) ;;
   v <- read_summary r ;;
   let scope :=
     match sc_branch v with
     | Some (c :: b) => u "on " ++ c :: b
     | _ => []
     end in
   inc <- includeStaged_st r opts ;;
   (if inc : bool then
      st <- read_staged r ;;
      addPart_st parts (Staged.added (snd st)) "added" ;;;
      st <- read_staged r ;;
      addPart_st parts (Staged.modified (snd st)) "modified" ;;;
      st <- read_staged r ;;
      addPart_st parts (Staged.deleted (snd st)) "deleted" ;;;
      st <- read_staged r ;;
      addPart_st parts (Staged.renamed (snd st) + Staged.copied (snd st))
                 "renamed"
    else retS tt) ;;;
   (if negb (truthy (stagedOnly opts)) then
      us <- read_unstaged r ;;
      addPart_st parts (Unstaged.modified (snd us)) "modified (unstaged)" ;;;
      us <- read_unstaged r ;;
      addPart_st parts (Unstaged.deleted (snd us)) "deleted (unstaged)" ;;;
      v <- read_summary r ;;
      addPart_st parts (sc_untracked v) "untracked" ;;;
      v <- read_summary r ;;
      addPart_st parts (sc_conflicts v) "conflict"
    else retS tt) ;;;
   ps <- read_arr parts ;;
   let titleCore :=
     match ps with
     | [] => u "no changes"
     | _ => join (u ", ") ps
     end in
   v <- read_summary r ;;
   let ab :=
     if negb (sc_ahead v =? 0) || negb (sc_behind v =? 0)
     then u ", ahead " ++ num (sc_ahead v) ++
          u ", behind " ++ num (sc_behind v)
     else [] in
   let title :=
     titleCore ++
     (if nonempty scope then u " " ++ [EM_DASH] ++ u " " ++ scope else []) ++
     ab in
   sm <- read_samples r ;;
   addedL <- limitList_st (sa_added sm) ;;
   modL <- limitList_st (sa_modified sm) ;;
   delL <- limitList_st (sa_deleted sm) ;;
   renL <- limitList_st (sa_renamed sm) ;;
   untrackedL <- limitList_st (sa_untracked sm) ;;
   bodyParts <- alloc (CArray []) ;;
   pushLine_st bodyParts "added" addedL ;;;
   pushLine_st bodyParts "modified" modL ;;;
   pushLine_st bodyParts "deleted" delL ;;;
   pushLine_st bodyParts "renamed" renL ;;;
   (if negb (truthy (stagedOnly opts))
    then pushLine_st bodyParts "untracked" untrackedL
    else retS tt) ;;;
   b <- read_arr bodyParts ;;
   retS (match b with
         | [] => title
         | _ => title ++ [LF; LF] ++ join [LF] b
         end))%st.

(* ------------------------------------------------------------------ *)
(** ** Predicates and specification-side definitions *)

(** The counters never go below zero. *)
Definition counts_ok (s : StatusSummary) : Prop :=
  0 <= Staged.added (staged s) /\ 0 <= Staged.modified (staged s) /\
  0 <= Staged.deleted (staged s) /\ 0 <= Staged.renamed (staged s) /\
  0 <= Staged.copied (staged s) /\
  0 <= Unstaged.modified (unstaged s) /\ 0 <= Unstaged.deleted (unstaged s) /\
  0 <= untracked s /\ 0 <= conflicts s.

(** Each bucket holds at most as many entries as the counters that feed
    it add up to. *)
Definition buckets_ok (s : StatusSummary) : Prop :=
  len (Samples.added (samples s)) <= Staged.added (staged s) /\
  len (Samples.modified (samples s))
    <= Staged.modified (staged s) + Unstaged.modified (unstaged s) /\
  len (Samples.deleted (samples s))
    <= Staged.deleted (staged s) + Unstaged.deleted (unstaged s) /\
  len (Samples.renamed (samples s))
    <= Staged.renamed (staged s) + Staged.copied (staged s) /\
  len (Samples.untracked (samples s)) <= untracked s.

(** Each bucket respects the cap. *)
Definition capped (s : StatusSummary) : Prop :=
  len (Samples.added (samples s)) <= MAX_FILE_SAMPLES /\
  len (Samples.modified (samples s)) <= MAX_FILE_SAMPLES /\
  len (Samples.deleted (samples s)) <= MAX_FILE_SAMPLES /\
  len (Samples.renamed (samples s)) <= MAX_FILE_SAMPLES /\
  len (Samples.untracked (samples s)) <= MAX_FILE_SAMPLES.

(** Each bucket holds exactly as many entries as were recorded for it, up
    to the cap. *)
Definition buckets_exact (s : StatusSummary) : Prop :=
  len (Samples.added (samples s))
    = Z.min (Staged.added (staged s)) MAX_FILE_SAMPLES /\
  len (Samples.modified (samples s))
    = Z.min (Staged.modified (staged s) + Unstaged.modified (unstaged s))
            MAX_FILE_SAMPLES /\
  len (Samples.deleted (samples s))
    = Z.min (Staged.deleted (staged s) + Unstaged.deleted (unstaged s))
            MAX_FILE_SAMPLES /\
  len (Samples.renamed (samples s))
    = Z.min (Staged.renamed (staged s) + Staged.copied (staged s))
            MAX_FILE_SAMPLES /\
  len (Samples.untracked (samples s)) = Z.min (untracked s) MAX_FILE_SAMPLES.

(** What every summary built by the parsing loop satisfies. *)
Definition summary_inv (s : StatusSummary) : Prop :=
  counts_ok s /\ buckets_exact s.

(** [stops cls r]: a run of [cls] cannot be extended into [r]. *)
Definition stops (cls : N -> bool) (r : jsstring) : bool :=
  match r with c :: _ => negb (cls c) | [] => true end.

(** What [-?] can match: nothing, or one minus sign. *)
Definition is_sign (sg : jsstring) : Prop := sg = [] \/ sg = u "-".

(** The integer written with the sign [sg] and the digits [d]. *)
Definition int_val (sg d : jsstring) : Z :=
  match sg with
  | [] => digits_val d
  | _ => - digits_val d
  end.

(** The text [+<int><white space>-<int>], each [<int>] an optional minus
    sign and a run of digits. *)
Definition ab_text (sg1 d1 w sg2 d2 : jsstring) : jsstring :=
  u "+" ++ sg1 ++ d1 ++ w ++ u "-" ++ sg2 ++ d2.

(** [has_sub p s]: the text [p] occurs somewhere in [s]. *)
Fixpoint has_sub (p s : jsstring) : bool :=
  startsWith p s ||
  match s with
  | _ :: s' => has_sub p s'
  | [] => false
  end.

(** [substr s t]: [s] is a contiguous piece of [t]. *)
Definition substr (s t : jsstring) : Prop := exists a b, t = a ++ s ++ b.

(** The paths one entry of [samples.renamed] contributes. *)
Definition rename_paths (f : jsstring) : list jsstring :=
  match re_rename f with
  | Some (m1, m2) => [m1; m2]
  | None => [f]
  end.

(** A token: not empty and free of white space. *)
Definition token (f : jsstring) : Prop :=
  f <> [] /\ forallb (fun c => negb (is_space c)) f = true.

(** [s.endsWith(suf)]. *)
Definition endsWith (suf s : jsstring) : bool :=
  str_eqb (skipn (List.length s - List.length suf) s) suf.

(** Options with every field absent, and options with [stagedOnly: true]. *)
Definition opts_default : MessageOptions :=
  mkOptions None None None None None.

Definition opts_staged : MessageOptions :=
  mkOptions (Some true) None None None None.

(** A body line with no overflow suffix. *)
Definition plainLine (category : string) (l : list jsstring) : jsstring :=
  u category ++ u ": " ++ join (u ", ") l.

(** The overflow suffix for a sample list [l]. *)
Definition overflow (l : list jsstring) : jsstring :=
  u " (+" ++ num (len l - MAX_FILE_SAMPLES) ++ u " more)".

(** A body line that shows the first ten samples of [l] and the overflow. *)
Definition overflowLine (category : string) (l : list jsstring) : jsstring :=
  plainLine category (firstn 10 l) ++ overflow l.

(** The body with no overflow suffix anywhere: one plain line for each
    bucket that is not empty. *)
Definition plainBody (sm : Samples.t) (opts : MessageOptions)
  : list jsstring :=
  let keep (category : string) (l : list jsstring) :=
    if nonempty l then [plainLine category l] else [] in
  keep "added"%string (Samples.added sm) ++
  keep "modified"%string (Samples.modified sm) ++
  keep "deleted"%string (Samples.deleted sm) ++
  keep "renamed"%string (Samples.renamed sm) ++
  (if truthy (stagedOnly opts) then []
   else keep "untracked"%string (Samples.untracked sm)).

(** A line of [git status --porcelain=v2] for a file added to the index. *)
Definition porcelain_added (path : jsstring) : jsstring :=
  u "1 A. N... 000000 100644 100644 0000000000000000000000000000000000000000 e69de29bb2d1d6434b8b29ae775ad8c2e48c5391 " ++
  path.

(** What [git status --porcelain=v2 -b] prints on branch [main] when the
    fifteen files [file1.txt] to [file15.txt] have been added: more files
    than the sample cap. *)
Definition fifteen_added : jsstring :=
  u "# branch.oid 8a9b1c2d3e4f5061728394a5b6c7d8e9f0a1b2c3" ++ [LF] ++
  u "# branch.head main" ++ [LF] ++
  concat (map (fun n => porcelain_added
                          (u "file" ++ num (Z.of_nat n) ++ u ".txt") ++ [LF])
              (seq 1 15)).

(** A summary that carries fifteen samples itself. *)
Definition summary15 : StatusSummary :=
  set_samples (Samples.mk (repeat (u "f.txt") 15) [] [] [] []) empty_summary.

(** The lines of a status output that start with ["# branch.ab "]: the
    only ones that set [ahead] and [behind]. *)
Definition ab_headers (output : jsstring) : list jsstring :=
  filter (startsWith (u "# branch.ab ")) (lines_of output).

(** [Number.MAX_SAFE_INTEGER], 2^53 - 1: up to it every integer is a
    JavaScript number, so that [parseInt] is exact on a run of digits of
    at most this value. *)
Definition MAX_SAFE_INTEGER : Z := 9007199254740991.

(** The digits [d] write an integer that JavaScript represents exactly. *)
Definition safe_digits (d : jsstring) : Prop :=
  digits_val d <= MAX_SAFE_INTEGER.

(** Appending to a sample list while it holds fewer than ten entries. *)
Definition spec_append (l : list jsstring) (p : jsstring) : list jsstring :=
  if len l <? 10 then l ++ [p] else l.

(** A summary whose only samples are the renamed ones. *)
Definition renamed_only (l : list jsstring) : StatusSummary :=
  set_samples (Samples.mk [] [] [] l []) empty_summary.

(** A title part as the specification words it: ["<n> <label>"] with the
    plural suffix unless [n] is 1. *)
Definition spec_part (p : Z * string) : jsstring :=
  num (fst p) ++ u " " ++ u (snd p) ++ (if fst p =? 1 then [] else u "s").

(** The non-zero staged parts: added, modified, deleted, then renamed and
    copied combined. *)
Definition spec_staged_parts (s : StatusSummary) : list jsstring :=
  let st := staged s in
  map spec_part
      (filter (fun p => negb (fst p =? 0))
              [(Staged.added st, "added"%string);
               (Staged.modified st, "modified"%string);
               (Staged.deleted st, "deleted"%string);
               (Staged.renamed st + Staged.copied st, "renamed"%string)]).

(** The parts with a count above 0 among unstaged-modified,
    unstaged-deleted, untracked, conflicts. *)
Definition spec_unstaged_parts (s : StatusSummary) : list jsstring :=
  let us := unstaged s in
  map spec_part
      (filter (fun p => 0 <? fst p)
              [(Unstaged.modified us, "modified (unstaged)"%string);
               (Unstaged.deleted us, "deleted (unstaged)"%string);
               (untracked s, "untracked"%string);
               (conflicts s, "conflict"%string)]).

Definition spec_titleParts (s : StatusSummary) (opts : MessageOptions)
  : list jsstring :=
  let st := staged s in
  let sum := Staged.added st + Staged.modified st + Staged.deleted st +
             Staged.renamed st + Staged.copied st in
  (if truthy (stagedOnly opts) || (0 <? sum)
   then spec_staged_parts s else []) ++
  (if truthy (stagedOnly opts) then [] else spec_unstaged_parts s).

Definition spec_titleCore (s : StatusSummary) (opts : MessageOptions)
  : jsstring :=
  match spec_titleParts s opts with
  | [] => u "no changes"
  | parts => join (u ", ") parts
  end.

(** The lines that can change the summary: the two branch headers and the
    kinds "?", "u", "1" and "2". *)
Definition contributes (line : jsstring) : bool :=
  startsWith (u "# branch.head ") line ||
  startsWith (u "# branch.ab ") line ||
  (negb (startsWith (u "# ") line) &&
   (is_chr (nth_error line 0) "?" || is_chr (nth_error line 0) "u" ||
    is_chr (nth_error line 0) "1" || is_chr (nth_error line 0) "2")).

(** The first characters that select a record kind. *)
Definition kind_char (c : N) : bool :=
  existsb (N.eqb c) [chr "#"; chr "?"; chr "!"; chr "u"; chr "1"; chr "2"].

(** The line is an untracked entry. *)
Definition is_untracked_line (line : jsstring) : bool :=
  is_chr (nth_error line 0) "?".

(** The line is an unmerged entry. *)
Definition is_unmerged_line (line : jsstring) : bool :=
  is_chr (nth_error line 0) "u".

(** The same text with every line feed turned into carriage return and
    line feed. *)
Fixpoint to_crlf (s : jsstring) : jsstring :=
  match s with
  | [] => []
  | c :: r => if N.eqb c LF then CR :: LF :: to_crlf r else c :: to_crlf r
  end.

(** [s] starts with a decimal digit. *)
Definition starts_with_digit (s : jsstring) : Prop :=
  exists c r, s = c :: r /\ is_digit c = true.

(** [s] holds no two opening braces in a row. *)
Definition no_open (s : jsstring) : Prop := has_sub (u "{{") s = false.

(** The pattern text [p] starts nowhere inside [s] when [r] follows. *)
Definition absent (p s r : jsstring) : Prop :=
  forall x y, s = x ++ y -> y <> [] -> startsWith p (y ++ r) = false.

(** The prompt of the default template, spelled out. *)
Definition default_prompt (data : TemplateData.t) : jsstring :=
  introduction ++
  u "Branch: " ++ TemplateData.branch data ++ [LF] ++
  u "Changes: " ++ TemplateData.changes data ++ [LF] ++
  match TemplateData.branchStatus data with
  | Some (c :: s) => u "Branch status: " ++ (c :: s) ++ [LF]
  | _ => []
  end ++
  u "Files changed:" ++ [LF] ++
  TemplateData.files data ++ [LF; LF] ++
  match TemplateData.diff data with
  | Some (c :: d) =>
      [LF] ++ u "Git diff:" ++ [LF] ++ (c :: d) ++ [LF] ++
      u "{{else}}" ++ [LF] ++
      u "No diff available (likely new/untracked files)" ++ [LF]
  | _ => []
  end ++
  [LF; LF] ++
  requirements (num (TemplateData.maxSubjectLength data))
               (num (TemplateData.maxBodyLength data)).

(** The opening brace. *)
Definition OPEN_BRACE : N := 123%N.

(** [s] holds no opening brace. *)
Definition no_brace (s : jsstring) : bool :=
  forallb (fun c => negb (N.eqb c OPEN_BRACE)) s.

(** A conditional block as it is written in a template. *)
Definition if_block (key content : jsstring) : jsstring :=
  u "{{#if" ++ u " " ++ key ++ u "}}" ++ content ++ u "{{/if}}".

(** [absent], decided. *)
Fixpoint absent_b (p s r : jsstring) : bool :=
  match s with
  | [] => true
  | _ :: s' => negb (startsWith p (s ++ r)) && absent_b p s' r
  end.

(** The default template after the first replacement. *)
Definition after_variables (data : TemplateData.t) : jsstring :=
  (introduction ++ u "Branch: ") ++ TemplateData.branch data ++
  ([LF] ++ u "Changes: ") ++ TemplateData.changes data ++
  [LF] ++
  if_block (u "branchStatus")
    (u "Branch status: " ++
     match TemplateData.branchStatus data with
     | Some s => s
     | None => u "null"
     end ++ [LF]) ++
  (u "Files changed:" ++ [LF]) ++ TemplateData.files data ++
  [LF; LF] ++
  if_block (u "diff")
    (([LF] ++ u "Git diff:" ++ [LF]) ++
     match TemplateData.diff data with
     | Some s => s
     | None => u "null"
     end ++
     ([LF] ++ u "{{else}}" ++ [LF] ++
      u "No diff available (likely new/untracked files)" ++ [LF])) ++
  ([LF; LF] ++
   requirements (num (TemplateData.maxSubjectLength data))
                (num (TemplateData.maxBodyLength data))).

(** The sample list [b] of the samples of a summary, and the samples with
    it replaced. *)
Definition bucket_get (b : bucket) (sm : Samples.t) : list jsstring :=
  match b with
  | BAdded => Samples.added sm
  | BModified => Samples.modified sm
  | BDeleted => Samples.deleted sm
  | BRenamed => Samples.renamed sm
  | BUntracked => Samples.untracked sm
  end.

Definition bucket_set (b : bucket) (l : list jsstring) (sm : Samples.t)
  : Samples.t :=
  match b with
  | BAdded =>
      Samples.mk l (Samples.modified sm) (Samples.deleted sm)
                 (Samples.renamed sm) (Samples.untracked sm)
  | BModified =>
      Samples.mk (Samples.added sm) l (Samples.deleted sm)
                 (Samples.renamed sm) (Samples.untracked sm)
  | BDeleted =>
      Samples.mk (Samples.added sm) (Samples.modified sm) l
                 (Samples.renamed sm) (Samples.untracked sm)
  | BRenamed =>
      Samples.mk (Samples.added sm) (Samples.modified sm)
                 (Samples.deleted sm) l (Samples.untracked sm)
  | BUntracked =>
      Samples.mk (Samples.added sm) (Samples.modified sm)
                 (Samples.deleted sm) (Samples.renamed sm) l
  end.

(** The places of the objects a summary is made of. *)
Record shape := mkShape
  { sh_staged : loc;
    sh_unstaged : loc;
    sh_samples : loc;
    sh_buckets : samples_cell }.

(** The store [h] holds, at [r] and the places [sh], the summary [s]: its
    structure and every value in it.  The five arrays are five different
    objects. *)
Definition holds (h : store) (r : loc) (sh : shape) (s : StatusSummary)
  : Prop :=
  nth_error h r =
    Some (CSummary (mkSummaryCell (branch s) (ahead s) (behind s)
                      (sh_staged sh) (sh_unstaged sh)
                      (untracked s) (conflicts s) (sh_samples sh))) /\
  nth_error h (sh_staged sh) = Some (CStaged (staged s)) /\
  nth_error h (sh_unstaged sh) = Some (CUnstaged (unstaged s)) /\
  nth_error h (sh_samples sh) = Some (CSamples (sh_buckets sh)) /\
  nth_error h (sa_added (sh_buckets sh))
    = Some (CArray (Samples.added (samples s))) /\
  nth_error h (sa_modified (sh_buckets sh))
    = Some (CArray (Samples.modified (samples s))) /\
  nth_error h (sa_deleted (sh_buckets sh))
    = Some (CArray (Samples.deleted (samples s))) /\
  nth_error h (sa_renamed (sh_buckets sh))
    = Some (CArray (Samples.renamed (samples s))) /\
  nth_error h (sa_untracked (sh_buckets sh))
    = Some (CArray (Samples.untracked (samples s))) /\
  NoDup [sa_added (sh_buckets sh); sa_modified (sh_buckets sh);
         sa_deleted (sh_buckets sh); sa_renamed (sh_buckets sh);
         sa_untracked (sh_buckets sh)].

(** The places a summary occupies. *)
Definition places (r : loc) (sh : shape) : list loc :=
  [r; sh_staged sh; sh_unstaged sh; sh_samples sh;
   sa_added (sh_buckets sh); sa_modified (sh_buckets sh);
   sa_deleted (sh_buckets sh); sa_renamed (sh_buckets sh);
   sa_untracked (sh_buckets sh)].

(** [h'] has the objects of [h], the same ones except at [ls]. *)
Definition same_except (ls : list loc) (h h' : store) : Prop :=
  List.length h' = List.length h /\
  forall l, ~ In l ls -> nth_error h' l = nth_error h l.

(** [m] does to the summary at [r] what [g] does to a summary, fails on
    no store that holds one there, and touches no other object. *)
Definition acts_as (r : loc) (m : St unit)
           (g : StatusSummary -> StatusSummary) : Prop :=
  forall h sh s,
    holds h r sh s ->
    exists h', m h = Some (tt, h') /\ holds h' r sh (g s) /\
               same_except (places r sh) h h'.

(** The array at [a] holds [items]. *)
Definition arr_at (h : store) (a : loc) (items : list jsstring) : Prop :=
  nth_error h a = Some (CArray items).

(** [h] has every object of [h0], as it is in [h0]. *)
Definition agree (h0 h : store) : Prop :=
  forall l, (l < List.length h0)%nat -> nth_error h l = nth_error h0 l.

(** [p] is an array made after [h0]; it holds [ps] in [h], where the
    objects of [h0] are as they were. *)
Definition local_arr (h0 h : store) (p : loc) (ps : list jsstring) : Prop :=
  agree h0 h /\ (List.length h0 <= p)%nat /\ arr_at h p ps.

(* ------------------------------------------------------------------ *)
(** ** Tactics *)

Ltac split_ifs :=
  repeat match goal with
         | |- context [if ?b then _ else _] => destruct b
         | |- context [match ?x with Some _ => _ | None => _ end] => destruct x
         | |- context [let '(_, _) := ?x in _] => destruct x
         end.

Ltac cls_prop H :=
  unfold is_space, is_digit, is_dot, is_line_terminator in H;
  repeat rewrite ?negb_true_iff, ?orb_true_iff, ?orb_false_iff,
    ?andb_true_iff, ?andb_false_iff, ?N.eqb_eq, ?N.eqb_neq, ?N.leb_le,
    ?N.leb_gt in H.

(* ================================================================== *)
(** * Properties *)

(** ** Lists and strings *)

Lemma len_snoc {X : Type} (l : list X) (x : X) : len (l ++ [x]) = len l + 1.
Proof. unfold len. rewrite length_app. simpl. lia. Qed.

Lemma str_eqb_refl (a : jsstring) : str_eqb a a = true.
Proof.
  induction a as [|x a IH]; simpl; [reflexivity|].
  now rewrite N.eqb_refl, IH.
Qed.

Lemma str_eqb_eq (a b : jsstring) : str_eqb a b = true <-> a = b.
Proof.
  split.
  - revert b. induction a as [|x a IH]; intros [|y b] H; simpl in H;
      try discriminate; [reflexivity|].
    apply andb_true_iff in H as [Hx Hr].
    apply N.eqb_eq in Hx. apply IH in Hr. now subst.
  - intros ->. apply str_eqb_refl.
Qed.

Lemma startsWith_app (p s : jsstring) : startsWith p (p ++ s) = true.
Proof.
  induction p as [|x p IH]; simpl; [reflexivity|].
  now rewrite N.eqb_refl, IH.
Qed.

Lemma startsWith_inv (p s : jsstring) :
  startsWith p s = true -> s = p ++ skipn (List.length p) s.
Proof.
  revert s. induction p as [|x p IH]; intros s H; simpl in *; [reflexivity|].
  destruct s as [|y s]; [discriminate|].
  apply andb_true_iff in H as [Hx Hr].
  apply N.eqb_eq in Hx. subst y. simpl. f_equal. now apply IH.
Qed.

Lemma skipn_app_length {X : Type} (a b : list X) :
  skipn (List.length a) (a ++ b) = b.
Proof. induction a; simpl; auto. Qed.

Lemma last_app_ne {X : Type} (a b : list X) (d : X) :
  b <> [] -> last (a ++ b) d = last b d.
Proof.
  intros Hb. induction a as [|c a IH]; [reflexivity|].
  simpl. rewrite IH. destruct (a ++ b) eqn:E; [|reflexivity].
  apply app_eq_nil in E as [_ E]. congruence.
Qed.

(** ** The sample buckets *)

Lemma push_sample_len (l : list jsstring) (p : jsstring) :
  (len l < MAX_FILE_SAMPLES /\ len (push_sample l p) = len l + 1) \/
  (MAX_FILE_SAMPLES <= len l /\ len (push_sample l p) = len l).
Proof.
  unfold push_sample. destruct (Z.ltb_spec (len l) MAX_FILE_SAMPLES).
  - left. now rewrite len_snoc.
  - now right.
Qed.

Ltac bucket_arith :=
  repeat match goal with
         | |- context [push_sample ?l ?p] =>
             let H := fresh in
             pose proof (push_sample_len l p) as H;
             generalize dependent (push_sample l p); intros
         end;
  unfold MAX_FILE_SAMPLES in *; lia.

Lemma record_staged_inv X p o s :
  summary_inv s -> summary_inv (record_staged X p o s).
Proof.
  destruct s as [b a bh [sa smo sd sr sc] [um ud] ut cf [la lm ld lr lu]].
  unfold summary_inv, counts_ok, buckets_exact, record_staged.
  simpl. intros H. split_ifs; simpl; repeat split; bucket_arith.
Qed.

Lemma record_unstaged_inv Y p s :
  summary_inv s -> summary_inv (record_unstaged Y p s).
Proof.
  destruct s as [b a bh [sa smo sd sr sc] [um ud] ut cf [la lm ld lr lu]].
  unfold summary_inv, counts_ok, buckets_exact, record_unstaged.
  simpl. intros H. split_ifs; simpl; repeat split; bucket_arith.
Qed.

Lemma changed_entry_inv type line s :
  summary_inv s -> summary_inv (changed_entry type line s).
Proof.
  intros H. unfold changed_entry.
  destruct (len (split_ws line) <? 2); [exact H|].
  destruct (nth_error (split_ws line) 1) as [xy|]; [|exact H].
  destruct (len xy <? 2); [exact H|].
  now apply record_unstaged_inv, record_staged_inv.
Qed.

Lemma processLine_inv s line :
  summary_inv s -> summary_inv (processLine s line).
Proof.
  intros H. unfold processLine.
  destruct (startsWith (u "# ") line).
  - destruct (startsWith (u "# branch.head ") line); [exact H|].
    destruct (startsWith (u "# branch.ab ") line); [|exact H].
    destruct (re_ab _) as [[m1 m2]|]; exact H.
  - destruct (is_chr (nth_error line 0) "?").
    { destruct s as [b a bh st us ut cf [la lm ld lr lu]].
      revert H. unfold summary_inv, counts_ok, buckets_exact. simpl.
      intros H. repeat split; bucket_arith. }
    destruct (is_chr (nth_error line 0) "!"); [exact H|].
    destruct (is_chr (nth_error line 0) "u").
    { destruct s as [b a bh st us ut cf sm].
      revert H. unfold summary_inv, counts_ok, buckets_exact. simpl.
      intros H. repeat split; lia. }
    destruct (is_chr (nth_error line 0) "1" || is_chr (nth_error line 0) "2");
      [now apply changed_entry_inv | exact H].
Qed.

Lemma fold_processLine_inv ls s :
  summary_inv s -> summary_inv (fold_left processLine ls s).
Proof.
  revert s. induction ls as [|l ls IH]; intros s H; simpl; [exact H|].
  apply IH, processLine_inv, H.
Qed.

Lemma empty_summary_inv : summary_inv empty_summary.
Proof.
  unfold summary_inv, counts_ok, buckets_exact, MAX_FILE_SAMPLES, len.
  simpl. lia.
Qed.

Lemma summary_inv_buckets (s : StatusSummary) : summary_inv s -> buckets_ok s.
Proof.
  unfold summary_inv, counts_ok, buckets_exact, buckets_ok.
  intros H. repeat split; lia.
Qed.

Lemma summary_inv_capped (s : StatusSummary) : summary_inv s -> capped s.
Proof.
  unfold summary_inv, counts_ok, buckets_exact, capped.
  intros H. repeat split; lia.
Qed.

Lemma parseStatus_inv (output : jsstring) : summary_inv (parseStatus output).
Proof. apply fold_processLine_inv, empty_summary_inv. Qed.

(** ** The backtracking combinators *)

Section BacktrackingFacts.
Context {A : Type}.
Implicit Types (k : jsstring -> jsstring -> option A) (cls : N -> bool).

Lemma lit_app (p s : jsstring) (k1 : jsstring -> option A) :
  lit p (p ++ s) k1 = k1 s.
Proof. unfold lit. now rewrite startsWith_app, skipn_app_length. Qed.

Lemma lit_sound (p s : jsstring) (k1 : jsstring -> option A) x :
  lit p s k1 = Some x -> exists r, s = p ++ r /\ k1 r = Some x.
Proof.
  unfold lit. destruct (startsWith p s) eqn:E; [|discriminate].
  intros H. exists (skipn (List.length p) s). split; [|exact H].
  now apply startsWith_inv.
Qed.

Lemma opt_absent (c : N) (s : jsstring) k :
  startsWith [c] s = false -> opt c s k = k [] s.
Proof.
  unfold opt. destruct s as [|y s]; [reflexivity|]. simpl. intros H.
  destruct (N.eqb_spec y c) as [->|]; [|reflexivity].
  rewrite N.eqb_refl in H. discriminate.
Qed.

Lemma opt_sound (c : N) (s : jsstring) k x :
  opt c s k = Some x ->
  (exists r, s = c :: r /\ k [c] r = Some x) \/ k [] s = Some x.
Proof.
  unfold opt. destruct s as [|y s]; [now right|].
  destruct (N.eqb_spec y c) as [->|]; [|now right].
  unfold orelse. destruct (k [c] s) eqn:E; [|now right].
  intros [= <-]. left. now exists s.
Qed.

Lemma greedy_star_sound cls s k x :
  greedy_star cls s k = Some x ->
  exists m r, s = m ++ r /\ forallb cls m = true /\ k m r = Some x.
Proof.
  revert k. induction s as [|c s IH]; intros k H; simpl in H.
  - now exists [], [].
  - destruct (cls c) eqn:Ec; [|now exists [], (c :: s)].
    unfold orelse in H.
    destruct (greedy_star cls s _) eqn:E.
    + injection H as ->. apply IH in E as (m & r & -> & Hm & Hk).
      exists (c :: m), r. simpl. now rewrite Ec, Hm.
    + now exists [], (c :: s).
Qed.

Lemma greedy_star_none cls s k :
  (forall m r, s = m ++ r -> forallb cls m = true -> k m r = None) ->
  greedy_star cls s k = None.
Proof.
  revert k. induction s as [|c s IH]; intros k H; simpl.
  - now apply (H [] []).
  - destruct (cls c) eqn:Ec; [|now apply (H [] (c :: s))].
    rewrite IH; [now apply (H [] (c :: s))|].
    intros m r -> Hm. apply (H (c :: m) r); [reflexivity|].
    simpl. now rewrite Ec.
Qed.

Lemma greedy_star_max cls m r k x :
  forallb cls m = true -> stops cls r = true -> k m r = Some x ->
  greedy_star cls (m ++ r) k = Some x.
Proof.
  revert k. induction m as [|c m IH]; intros k Hm Hr Hk; simpl.
  - destruct r as [|c r]; [exact Hk|]. simpl in Hr.
    apply negb_true_iff in Hr. simpl. now rewrite Hr.
  - simpl in Hm. apply andb_true_iff in Hm as [Hc Hm]. rewrite Hc.
    now rewrite (IH (fun m0 r0 => k (c :: m0) r0)).
Qed.

Lemma greedy_plus_sound cls s k x :
  greedy_plus cls s k = Some x ->
  exists m r, s = m ++ r /\ m <> [] /\ forallb cls m = true /\
              k m r = Some x.
Proof.
  unfold greedy_plus. destruct s as [|c s]; [discriminate|].
  destruct (cls c) eqn:Ec; [|discriminate].
  intros H. apply greedy_star_sound in H as (m & r & -> & Hm & Hk).
  exists (c :: m), r. simpl. rewrite Ec, Hm. now repeat split.
Qed.

Lemma greedy_plus_max cls m r k x :
  m <> [] -> forallb cls m = true -> stops cls r = true ->
  k m r = Some x -> greedy_plus cls (m ++ r) k = Some x.
Proof.
  destruct m as [|c m]; [congruence|]. intros _ Hm Hr Hk. simpl in *.
  apply andb_true_iff in Hm as [Hc Hm]. rewrite Hc.
  now apply greedy_star_max.
Qed.

Lemma lazy_star_sound cls s k x :
  lazy_star cls s k = Some x ->
  exists m r, s = m ++ r /\ forallb cls m = true /\ k m r = Some x.
Proof.
  revert k. induction s as [|c s IH]; intros k H; simpl in H;
    unfold orelse in H.
  - destruct (k [] []) eqn:E; [|discriminate].
    exists [], []. repeat split. congruence.
  - destruct (k [] (c :: s)) eqn:E.
    { exists [], (c :: s). repeat split. congruence. }
    destruct (cls c) eqn:Ec; [|discriminate].
    apply IH in H as (m & r & -> & Hm & Hk).
    exists (c :: m), r. simpl. now rewrite Ec, Hm.
Qed.

Lemma lazy_star_first cls m r k x :
  forallb cls m = true -> k m r = Some x ->
  (forall m1 m2, m = m1 ++ m2 -> m2 <> [] -> k m1 (m2 ++ r) = None) ->
  lazy_star cls (m ++ r) k = Some x.
Proof.
  revert k. induction m as [|c m IH]; intros k Hm Hk Hfail.
  - simpl. destruct r; simpl; now rewrite Hk.
  - simpl in Hm. apply andb_true_iff in Hm as [Hc Hm].
    assert (H0 : k [] ((c :: m) ++ r) = None)
      by (apply Hfail; [reflexivity|discriminate]).
    simpl in *. rewrite H0. simpl. rewrite Hc.
    apply (IH (fun m0 r0 => k (c :: m0) r0)); [exact Hm|exact Hk|].
    intros m1 m2 -> Hne. now apply (Hfail (c :: m1) m2).
Qed.

Lemma lazy_plus_sound cls s k x :
  lazy_plus cls s k = Some x ->
  exists m r, s = m ++ r /\ m <> [] /\ forallb cls m = true /\
              k m r = Some x.
Proof.
  unfold lazy_plus. destruct s as [|c s]; [discriminate|].
  destruct (cls c) eqn:Ec; [|discriminate].
  intros H. apply lazy_star_sound in H as (m & r & -> & Hm & Hk).
  exists (c :: m), r. simpl. rewrite Ec, Hm. now repeat split.
Qed.

Lemma lazy_plus_first cls m r k x :
  m <> [] -> forallb cls m = true -> k m r = Some x ->
  (forall m1 m2, m = m1 ++ m2 -> m1 <> [] -> m2 <> [] ->
                 k m1 (m2 ++ r) = None) ->
  lazy_plus cls (m ++ r) k = Some x.
Proof.
  destruct m as [|c m]; [congruence|]. intros _ Hm Hk Hfail. simpl in *.
  apply andb_true_iff in Hm as [Hc Hm]. rewrite Hc.
  apply lazy_star_first; [exact Hm|exact Hk|].
  intros m1 m2 -> Hne. now apply (Hfail (c :: m1) m2).
Qed.

Lemma search_first (f : jsstring -> option A) s x :
  f s = Some x -> search f s = Some x.
Proof. intros H. destruct s; simpl; now rewrite H. Qed.

Lemma search_sound (f : jsstring -> option A) s x :
  search f s = Some x -> exists a b, s = a ++ b /\ f b = Some x.
Proof.
  induction s as [|c s IH]; simpl; unfold orelse.
  - destruct (f []) eqn:E; [|discriminate]. intros [= <-]. now exists [], [].
  - destruct (f (c :: s)) eqn:E.
    + intros [= <-]. now exists [], (c :: s).
    + intros H. apply IH in H as (a & b & -> & Hb). now exists (c :: a), b.
Qed.

Lemma search_none (f : jsstring -> option A) s :
  (forall a b, s = a ++ b -> f b = None) -> search f s = None.
Proof.
  induction s as [|c s IH]; intros H; simpl.
  - now rewrite (H [] []).
  - rewrite (H [] (c :: s)); [|reflexivity]. simpl.
    apply IH. intros a b ->. now apply (H (c :: a) b).
Qed.
End BacktrackingFacts.

(** ** Character classes, trimming, numbers *)

Lemma digit_not_space (c : N) : is_digit c = true -> is_space c = false.
Proof.
  intros H. destruct (is_space c) eqn:E; [|reflexivity].
  cls_prop H. cls_prop E. lia.
Qed.

Lemma space_not_digit (c : N) : is_space c = true -> is_digit c = false.
Proof.
  intros H. destruct (is_digit c) eqn:E; [|reflexivity].
  apply digit_not_space in E. congruence.
Qed.

Lemma digit_not_sign (c : N) :
  is_digit c = true -> N.eqb c (chr "-") = false /\ N.eqb c (chr "+") = false.
Proof.
  intros H. cls_prop H. split; apply N.eqb_neq; simpl; lia.
Qed.

Lemma forallb_space_stops_digit (w r : jsstring) :
  w <> [] -> forallb is_space w = true -> stops is_digit (w ++ r) = true.
Proof.
  destruct w as [|c w]; [congruence|]. simpl. intros _ H.
  apply andb_true_iff in H as [H _]. now rewrite (space_not_digit c H).
Qed.

Lemma trimStart_spaces (w s : jsstring) :
  forallb is_space w = true -> trimStart (w ++ s) = trimStart s.
Proof.
  induction w as [|c w IH]; simpl; [reflexivity|]. intros H.
  apply andb_true_iff in H as [Hc Hw]. rewrite Hc. now apply IH.
Qed.

Lemma trimStart_stops (s : jsstring) :
  stops is_space s = true -> trimStart s = s.
Proof.
  destruct s as [|c s]; simpl; [reflexivity|]. intros H.
  apply negb_true_iff in H. now rewrite H.
Qed.

Lemma trimStart_suffix (s : jsstring) :
  exists w, s = w ++ trimStart s /\ forallb is_space w = true.
Proof.
  induction s as [|c s (w & IH & Hw)]; simpl; [now exists []|].
  destruct (is_space c) eqn:E; [|now exists []].
  exists (c :: w). simpl. rewrite E, Hw. split; [now f_equal|reflexivity].
Qed.

Lemma trimStart_stopped (s : jsstring) : stops is_space (trimStart s) = true.
Proof.
  induction s as [|c s IH]; simpl; [reflexivity|].
  destruct (is_space c) eqn:E; [exact IH|]. simpl. now rewrite E.
Qed.

Lemma trimEnd_app_keep (s t : jsstring) :
  trimEnd t <> [] -> trimEnd (s ++ t) = s ++ trimEnd t.
Proof.
  intros H. induction s as [|c s IH]; simpl; [reflexivity|].
  rewrite IH. destruct (s ++ trimEnd t) eqn:E; [|reflexivity].
  apply app_eq_nil in E as [_ E]. congruence.
Qed.

Lemma trimEnd_spaces (w : jsstring) :
  forallb is_space w = true -> trimEnd w = [].
Proof.
  induction w as [|c w IH]; simpl; [reflexivity|]. intros H.
  apply andb_true_iff in H as [Hc Hw]. now rewrite (IH Hw), Hc.
Qed.

Lemma trimEnd_app_spaces (s w : jsstring) :
  forallb is_space w = true -> trimEnd (s ++ w) = trimEnd s.
Proof.
  intros H. induction s as [|c s IH]; simpl; [now apply trimEnd_spaces|].
  now rewrite IH.
Qed.

Lemma trimEnd_no_space (s : jsstring) :
  forallb (fun c => negb (is_space c)) s = true -> trimEnd s = s.
Proof.
  induction s as [|c s IH]; simpl; [reflexivity|]. intros H.
  apply andb_true_iff in H as [Hc Hs]. rewrite (IH Hs).
  apply negb_true_iff in Hc. rewrite Hc. now destruct s.
Qed.

Lemma trimEnd_prefix (s : jsstring) : exists w, s = trimEnd s ++ w.
Proof.
  induction s as [|c s [w IH]]; simpl; [now exists []|].
  destruct (trimEnd s) eqn:E.
  - destruct (is_space c); [now exists (c :: s)|].
    exists w. simpl in *. now f_equal.
  - exists w. simpl in *. now f_equal.
Qed.

Lemma forallb_digit_no_space (d : jsstring) :
  forallb is_digit d = true ->
  forallb (fun c => negb (is_space c)) d = true.
Proof.
  intros H. rewrite forallb_forall in *. intros c Hc.
  now rewrite (digit_not_space c (H c Hc)).
Qed.

Lemma takeWhile_all (f : N -> bool) (d : jsstring) :
  forallb f d = true -> takeWhile f d = d.
Proof.
  induction d as [|c d IH]; simpl; [reflexivity|]. intros H.
  apply andb_true_iff in H as [Hc Hd]. now rewrite Hc, IH.
Qed.

Lemma digits_fold_nonneg (d : jsstring) (a : Z) :
  forallb is_digit d = true -> 0 <= a ->
  0 <= fold_left (fun a c => 10 * a + digit_val c) d a.
Proof.
  revert a. induction d as [|c d IH]; cbn [forallb fold_left];
    intros a H Ha; [exact Ha|].
  apply andb_true_iff in H as [Hc Hd]. apply IH; [exact Hd|].
  cls_prop Hc. unfold digit_val. lia.
Qed.

Lemma digits_val_nonneg (d : jsstring) :
  forallb is_digit d = true -> 0 <= digits_val d.
Proof. intros H. now apply digits_fold_nonneg. Qed.

Lemma parseInt_digits (d : jsstring) :
  d <> [] -> forallb is_digit d = true -> parseInt d = Some (digits_val d).
Proof.
  intros Hne Hd. unfold parseInt.
  destruct d as [|c d]; [congruence|].
  pose proof Hd as Hall. simpl in Hd. apply andb_true_iff in Hd as [Hc Hd].
  simpl trimStart. rewrite (digit_not_space c Hc).
  destruct (digit_not_sign c Hc) as [-> ->].
  now rewrite (takeWhile_all _ _ Hall).
Qed.

Lemma parseInt_minus (d : jsstring) :
  d <> [] -> forallb is_digit d = true ->
  parseInt (u "-" ++ d) = Some (- digits_val d).
Proof.
  intros Hne Hd. unfold parseInt. simpl.
  rewrite (takeWhile_all _ _ Hd). destruct d; [congruence|reflexivity].
Qed.

Lemma or0_some (z : Z) : or0 (Some z) = z.
Proof. unfold or0. destruct (Z.eqb_spec z 0); congruence. Qed.

(** ** The ahead/behind header *)

Lemma digits_no_sign_prefix (d r : jsstring) :
  d <> [] -> forallb is_digit d = true ->
  startsWith [chr "-"] (d ++ r) = false.
Proof.
  destruct d as [|c d]; [congruence|]. intros _ H. simpl in H.
  apply andb_true_iff in H as [Hc _].
  destruct (digit_not_sign c Hc) as [E _].
  cbn [startsWith app]. rewrite N.eqb_sym, E. reflexivity.
Qed.

Lemma opt_sign {A : Type} (k : jsstring -> jsstring -> option A)
      (sg d r : jsstring) (x : A) :
  is_sign sg -> d <> [] -> forallb is_digit d = true ->
  k sg (d ++ r) = Some x ->
  opt (chr "-") (sg ++ d ++ r) k = Some x.
Proof.
  intros [->| ->] Nd Hd Hk.
  - change ([] ++ d ++ r) with (d ++ r).
    rewrite opt_absent by now apply digits_no_sign_prefix. exact Hk.
  - change (u "-" ++ d ++ r) with (chr "-" :: d ++ r).
    unfold opt. rewrite N.eqb_refl. change [chr "-"] with (u "-").
    now rewrite Hk.
Qed.

Lemma re_ab_at_shape (sg1 d1 w sg2 d2 tl : jsstring) :
  is_sign sg1 -> d1 <> [] -> forallb is_digit d1 = true ->
  w <> [] -> forallb is_space w = true ->
  is_sign sg2 -> d2 <> [] -> forallb is_digit d2 = true ->
  stops is_digit tl = true ->
  re_ab_at (ab_text sg1 d1 w sg2 d2 ++ tl) = Some (sg1 ++ d1, sg2 ++ d2).
Proof.
  intros S1 N1 D1 NW W S2 N2 D2 T. unfold re_ab_at, ab_text.
  repeat rewrite <- app_assoc. rewrite lit_app.
  apply opt_sign; [exact S1|exact N1|exact D1|].
  apply greedy_plus_max; [exact N1|exact D1| |].
  { now apply forallb_space_stops_digit. }
  apply greedy_plus_max; [exact NW|exact W| |].
  { reflexivity. }
  rewrite lit_app.
  apply opt_sign; [exact S2|exact N2|exact D2|].
  apply greedy_plus_max; [exact N2|exact D2|exact T|reflexivity].
Qed.

Lemma re_ab_shape (sg1 d1 w sg2 d2 : jsstring) :
  is_sign sg1 -> d1 <> [] -> forallb is_digit d1 = true ->
  w <> [] -> forallb is_space w = true ->
  is_sign sg2 -> d2 <> [] -> forallb is_digit d2 = true ->
  re_ab (ab_text sg1 d1 w sg2 d2) = Some (sg1 ++ d1, sg2 ++ d2).
Proof.
  intros. apply search_first.
  rewrite <- (app_nil_r (ab_text sg1 d1 w sg2 d2)).
  now apply re_ab_at_shape.
Qed.

(** Whatever the pattern matches has the shape of [ab_text]. *)
Lemma re_ab_at_sound (s m1 m2 : jsstring) :
  re_ab_at s = Some (m1, m2) ->
  exists sg1 d1 w sg2 d2 r,
    s = ab_text sg1 d1 w sg2 d2 ++ r /\
    m1 = sg1 ++ d1 /\ m2 = sg2 ++ d2 /\
    is_sign sg1 /\ d1 <> [] /\ forallb is_digit d1 = true /\
    w <> [] /\ forallb is_space w = true /\
    is_sign sg2 /\ d2 <> [] /\ forallb is_digit d2 = true.
Proof.
  unfold re_ab_at. intros H.
  apply lit_sound in H as (s1 & -> & H).
  assert (G : forall sg1 s2,
             is_sign sg1 ->
             greedy_plus is_digit s2 (fun d1 s3 =>
               greedy_plus is_space s3 (fun _ s4 =>
               lit (u "-") s4 (fun s5 =>
               opt (chr "-") s5 (fun sg2 s6 =>
               greedy_plus is_digit s6 (fun d2 _ =>
               Some (sg1 ++ d1, sg2 ++ d2)))))) = Some (m1, m2) ->
             exists d1 w sg2 d2 r,
               u "+" ++ sg1 ++ s2 = ab_text sg1 d1 w sg2 d2 ++ r /\
               m1 = sg1 ++ d1 /\ m2 = sg2 ++ d2 /\
               is_sign sg1 /\ d1 <> [] /\ forallb is_digit d1 = true /\
               w <> [] /\ forallb is_space w = true /\
               is_sign sg2 /\ d2 <> [] /\ forallb is_digit d2 = true).
  { intros sg1 s2 S1 H0.
    apply greedy_plus_sound in H0 as (d1 & s3 & -> & N1 & D1 & H0).
    apply greedy_plus_sound in H0 as (w & s4 & -> & NW & W & H0).
    apply lit_sound in H0 as (s5 & -> & H0).
    apply opt_sound in H0 as [(s6 & -> & H0)|H0];
      apply greedy_plus_sound in H0 as (d2 & r & -> & N2 & D2 & H0);
      injection H0 as <- <-.
    - exists d1, w, (u "-"), d2, r. unfold ab_text, is_sign.
      rewrite <- !app_assoc. repeat split; auto.
    - exists d1, w, [], d2, r. unfold ab_text, is_sign.
      rewrite <- !app_assoc. repeat split; auto. }
  apply opt_sound in H as [(s2 & -> & H)|H].
  - apply (G (u "-") s2) in H; [|now right].
    destruct H as (d1 & w & sg2 & d2 & r & H).
    now exists (u "-"), d1, w, sg2, d2, r.
  - apply (G [] s1) in H; [|now left].
    destruct H as (d1 & w & sg2 & d2 & r & H). now exists [], d1, w, sg2, d2, r.
Qed.

Lemma parseInt_signed (sg d : jsstring) :
  is_sign sg -> d <> [] -> forallb is_digit d = true ->
  parseInt (sg ++ d) = Some (int_val sg d).
Proof.
  intros [->| ->] Nd Hd; [now apply parseInt_digits|now apply parseInt_minus].
Qed.

Lemma trim_ab_text (padl sg1 d1 w sg2 d2 padr : jsstring) :
  forallb is_space padl = true -> forallb is_space padr = true ->
  d2 <> [] -> forallb is_digit d2 = true ->
  trim (padl ++ ab_text sg1 d1 w sg2 d2 ++ padr) = ab_text sg1 d1 w sg2 d2.
Proof.
  intros Hl Hr N2 D2. unfold trim.
  rewrite trimStart_spaces by exact Hl.
  rewrite trimStart_stops by reflexivity.
  rewrite trimEnd_app_spaces by exact Hr.
  unfold ab_text. rewrite !app_assoc.
  assert (E : trimEnd d2 = d2)
    by now apply trimEnd_no_space, forallb_digit_no_space.
  rewrite trimEnd_app_keep; rewrite E; [reflexivity|exact N2].
Qed.

Lemma record_staged_ab X p o s :
  ahead (record_staged X p o s) = ahead s /\
  behind (record_staged X p o s) = behind s /\
  branch (record_staged X p o s) = branch s.
Proof. unfold record_staged. split_ifs; now simpl. Qed.

Lemma record_unstaged_ab Y p s :
  ahead (record_unstaged Y p s) = ahead s /\
  behind (record_unstaged Y p s) = behind s /\
  branch (record_unstaged Y p s) = branch s.
Proof. unfold record_unstaged. split_ifs; now simpl. Qed.

Lemma changed_entry_ab type line s :
  ahead (changed_entry type line s) = ahead s /\
  behind (changed_entry type line s) = behind s /\
  branch (changed_entry type line s) = branch s.
Proof.
  unfold changed_entry.
  destruct (len (split_ws line) <? 2); [now auto|].
  destruct (nth_error (split_ws line) 1) as [xy|]; [|now auto].
  destruct (len xy <? 2); [now auto|].
  destruct (record_unstaged_ab (nth_error xy 1) (last (split_ws line) [])
              (record_staged (nth_error xy 0) (last (split_ws line) [])
                 (if is_chr type "2" && (3 <=? len (split_ws line))
                  then nth_error (split_ws line)
                         (List.length (split_ws line) - 2)
                  else None) s)) as (-> & -> & ->).
  apply record_staged_ab.
Qed.

(** Only a ["# branch.ab "] line touches [ahead] and [behind]. *)
Lemma processLine_keeps_ab s line :
  startsWith (u "# branch.ab ") line = false ->
  ahead (processLine s line) = ahead s /\
  behind (processLine s line) = behind s.
Proof.
  intros H. unfold processLine. rewrite H.
  destruct (startsWith (u "# ") line).
  { destruct (startsWith (u "# branch.head ") line); now simpl. }
  destruct (is_chr (nth_error line 0) "?"); [now simpl|].
  destruct (is_chr (nth_error line 0) "!"); [now simpl|].
  destruct (is_chr (nth_error line 0) "u"); [now simpl|].
  destruct (is_chr (nth_error line 0) "1" || is_chr (nth_error line 0) "2");
    [|now simpl].
  destruct (changed_entry_ab (nth_error line 0) line s) as (-> & -> & _).
  now split.
Qed.

Lemma fold_processLine_keeps_ab ls s :
  Forall (fun l => startsWith (u "# branch.ab ") l = false) ls ->
  ahead (fold_left processLine ls s) = ahead s /\
  behind (fold_left processLine ls s) = behind s.
Proof.
  intros H. revert s. induction H as [|l ls Hl _ IH]; intros s; simpl;
    [now split|].
  destruct (IH (processLine s l)) as [-> ->].
  now apply processLine_keeps_ab.
Qed.

Lemma branch_ab_is_header (line : jsstring) :
  startsWith (u "# branch.ab ") line = true ->
  startsWith (u "# ") line = true /\
  startsWith (u "# branch.head ") line = false.
Proof.
  intros H. apply startsWith_inv in H. rewrite H. now split.
Qed.

Lemma processLine_branch_ab s line :
  startsWith (u "# branch.ab ") line = true ->
  processLine s line =
  match re_ab (trim (slice 12 line)) with
  | Some (m1, m2) => set_ahead_behind (or0 (parseInt m1)) (or0 (parseInt m2)) s
  | None => s
  end.
Proof.
  intros H. destruct (branch_ab_is_header line H) as [H1 H2].
  unfold processLine. now rewrite H1, H2, H.
Qed.

Lemma processLine_ab_text s line padl sg1 d1 w sg2 d2 padr :
  startsWith (u "# branch.ab ") line = true ->
  slice 12 line = padl ++ ab_text sg1 d1 w sg2 d2 ++ padr ->
  forallb is_space padl = true -> forallb is_space padr = true ->
  is_sign sg1 -> d1 <> [] -> forallb is_digit d1 = true ->
  w <> [] -> forallb is_space w = true ->
  is_sign sg2 -> d2 <> [] -> forallb is_digit d2 = true ->
  processLine s line = set_ahead_behind (int_val sg1 d1) (int_val sg2 d2) s.
Proof.
  intros H E Hl Hr S1 N1 D1 NW W S2 N2 D2.
  rewrite processLine_branch_ab by exact H.
  rewrite E, trim_ab_text by assumption.
  rewrite re_ab_shape by assumption.
  rewrite !parseInt_signed by assumption.
  now rewrite !or0_some.
Qed.

(** A match of the pattern stores the two integers it captured. *)
Lemma processLine_ab_match s line m1 m2 :
  startsWith (u "# branch.ab ") line = true ->
  re_ab (trim (slice 12 line)) = Some (m1, m2) ->
  exists sg1 d1 sg2 d2,
    m1 = sg1 ++ d1 /\ m2 = sg2 ++ d2 /\
    is_sign sg1 /\ d1 <> [] /\ forallb is_digit d1 = true /\
    is_sign sg2 /\ d2 <> [] /\ forallb is_digit d2 = true /\
    processLine s line =
    set_ahead_behind (int_val sg1 d1) (int_val sg2 d2) s.
Proof.
  intros H R. rewrite processLine_branch_ab, R by exact H.
  apply search_sound in R as (a & b & _ & R).
  apply re_ab_at_sound in R
    as (sg1 & d1 & w & sg2 & d2 & r & _ & -> & -> & S1 & N1 & D1 & _ & _ &
        S2 & N2 & D2).
  exists sg1, d1, sg2, d2. repeat split; try assumption.
  rewrite !parseInt_signed by assumption. now rewrite !or0_some.
Qed.

(** ** Signs in the ahead/behind header *)

Lemma startsWith_app_r (p s b : jsstring) :
  startsWith p s = true -> startsWith p (s ++ b) = true.
Proof.
  intros H. apply startsWith_inv in H. rewrite H, <- app_assoc.
  apply startsWith_app.
Qed.

Lemma has_sub_start (p s : jsstring) :
  startsWith p s = true -> has_sub p s = true.
Proof. intros H. destruct s; simpl in *; now rewrite H. Qed.

Lemma has_sub_app_r (p s b : jsstring) :
  has_sub p s = true -> has_sub p (s ++ b) = true.
Proof.
  induction s as [|c s IH]; intros H.
  - simpl in H. rewrite orb_false_r in H.
    apply has_sub_start. now apply (startsWith_app_r p [] b).
  - cbn [has_sub] in H. apply orb_true_iff in H as [H|H].
    + apply has_sub_start. now apply startsWith_app_r.
    + change ((c :: s) ++ b) with (c :: (s ++ b)). cbn [has_sub].
      rewrite (IH H). apply orb_true_r.
Qed.

Lemma has_sub_app_l (p a s : jsstring) :
  has_sub p s = true -> has_sub p (a ++ s) = true.
Proof.
  intros H. induction a as [|c a IH]; [exact H|].
  change ((c :: a) ++ s) with (c :: (a ++ s)). cbn [has_sub].
  rewrite IH. apply orb_true_r.
Qed.

Lemma has_sub_substr (p s t : jsstring) :
  substr s t -> has_sub p s = true -> has_sub p t = true.
Proof.
  intros (a & b & ->) H. now apply has_sub_app_l, has_sub_app_r.
Qed.

Lemma substr_free (p s t : jsstring) :
  substr s t -> has_sub p t = false -> has_sub p s = false.
Proof.
  intros Hs Ht. destruct (has_sub p s) eqn:E; [|reflexivity].
  rewrite (has_sub_substr p s t Hs E) in Ht. discriminate.
Qed.

Lemma substr_refl (s : jsstring) : substr s s.
Proof. exists [], []. now rewrite app_nil_r. Qed.

Lemma substr_trans (a b c : jsstring) : substr a b -> substr b c -> substr a c.
Proof.
  intros (x & y & ->) (x' & y' & ->).
  exists (x' ++ x), (y ++ y'). now rewrite <- !app_assoc.
Qed.

Lemma substr_suffix (a b : jsstring) : substr b (a ++ b).
Proof. exists a, []. now rewrite app_nil_r. Qed.

Lemma substr_prefix (a b : jsstring) : substr a (a ++ b).
Proof. now exists [], b. Qed.

Lemma substr_cons (c : N) (s t : jsstring) : substr s t -> substr s (c :: t).
Proof. intros (a & b & ->). now exists (c :: a), b. Qed.

Lemma substr_slice (n : nat) (s : jsstring) : substr (slice n s) s.
Proof.
  unfold slice. rewrite <- (firstn_skipn n s) at 2. apply substr_suffix.
Qed.

Lemma substr_trim (s : jsstring) : substr (trim s) s.
Proof.
  unfold trim. destruct (trimStart_suffix s) as (w & E & _).
  destruct (trimEnd_prefix (trimStart s)) as [w' E'].
  exists w, w'. now rewrite <- E'.
Qed.

Lemma split_lines_cons (c : N) (t : jsstring) :
  split_lines (c :: t) =
  if N.eqb c LF then [] :: split_lines t
  else if N.eqb c CR && startsWith [LF] t then split_lines t
  else match split_lines t with
       | h :: tl => (c :: h) :: tl
       | [] => [[c]]
       end.
Proof. reflexivity. Qed.

Lemma split_lines_hd (t : jsstring) :
  exists h tl b, split_lines t = h :: tl /\ t = h ++ b.
Proof.
  induction t as [|c t (h & tl & b & E & Ht)].
  - now exists [], [], [].
  - rewrite split_lines_cons.
    destruct (N.eqb c LF); [now exists [], (split_lines t), (c :: t)|].
    destruct (N.eqb c CR && startsWith [LF] t) eqn:Ecr.
    + apply andb_true_iff in Ecr as [_ Ecr].
      apply startsWith_inv in Ecr. rewrite Ecr.
      change ([LF] ++ skipn (List.length [LF]) t) with (LF :: skipn 1 t).
      rewrite split_lines_cons, N.eqb_refl.
      now exists [], (split_lines (skipn 1 t)), (c :: LF :: skipn 1 t).
    + rewrite E. exists (c :: h), tl, b. split; [reflexivity|].
      simpl. now f_equal.
Qed.

Lemma split_lines_substr (t l : jsstring) :
  In l (split_lines t) -> substr l t.
Proof.
  revert l. induction t as [|c t IH]; intros l.
  - intros [<-|[]]. apply substr_refl.
  - rewrite split_lines_cons. destruct (N.eqb c LF).
    { intros [<-|H]; [now exists [], (c :: t)|]. now apply substr_cons, IH. }
    destruct (N.eqb c CR && startsWith [LF] t).
    { intros H. now apply substr_cons, IH. }
    destruct (split_lines_hd t) as (h & tl & b & E & Ht). rewrite E.
    intros [<-|H].
    + rewrite Ht. apply (substr_prefix (c :: h) b).
    + apply substr_cons, IH. rewrite E. now right.
Qed.

Lemma lines_of_substr (t l : jsstring) : In l (lines_of t) -> substr l t.
Proof.
  unfold lines_of. intros H. apply filter_In in H as [H _].
  now apply split_lines_substr.
Qed.

Lemma re_ab_at_signs (s m1 m2 : jsstring) :
  re_ab_at s = Some (m1, m2) ->
  (has_sub (u "+-") s = false -> 0 <= or0 (parseInt m1)) /\
  (has_sub (u "--") s = false -> 0 <= or0 (parseInt m2)).
Proof.
  intros H.
  apply re_ab_at_sound in H
    as (sg1 & d1 & w & sg2 & d2 & r & -> & -> & -> & S1 & N1 & D1 & _ & _ &
        S2 & N2 & D2).
  rewrite !parseInt_signed, !or0_some by assumption.
  split; intros Hf.
  - destruct S1 as [->| ->]; [now apply digits_val_nonneg|].
    discriminate Hf.
  - destruct S2 as [->| ->]; [now apply digits_val_nonneg|].
    rewrite (has_sub_substr (u "--") (u "--")) in Hf;
      [discriminate| |reflexivity].
    exists (u "+" ++ sg1 ++ d1 ++ w), (d2 ++ r).
    unfold ab_text. now rewrite <- !app_assoc.
Qed.

(** The pattern cannot match a text without a plus sign. *)
Lemma re_ab_needs_plus (t : jsstring) :
  has_sub (u "+") t = false -> re_ab t = None.
Proof.
  intros H. apply search_none. intros a b ->.
  unfold re_ab_at, lit.
  assert (E : startsWith (u "+") b = false).
  { destruct b as [|c b]; [reflexivity|].
    apply (substr_free _ _ _ (substr_suffix a (c :: b))) in H.
    cbn [has_sub] in H. now apply orb_false_iff in H as [H _]. }
  now rewrite E.
Qed.

Lemma processLine_ahead_nonneg s line :
  has_sub (u "+-") line = false -> 0 <= ahead s ->
  0 <= ahead (processLine s line).
Proof.
  intros Hf Ha.
  destruct (startsWith (u "# branch.ab ") line) eqn:E.
  - rewrite processLine_branch_ab by exact E.
    destruct (re_ab _) as [[m1 m2]|] eqn:R; [|exact Ha].
    apply search_sound in R as (a & b & Eab & R).
    apply re_ab_at_signs in R as [R _]. simpl. apply R.
    apply (substr_free _ b line); [|exact Hf].
    apply (substr_trans _ (trim (slice 12 line))).
    { rewrite Eab. apply substr_suffix. }
    apply (substr_trans _ (slice 12 line));
      [apply substr_trim|apply substr_slice].
  - now destruct (processLine_keeps_ab s line E) as [-> _].
Qed.

Lemma processLine_behind_nonneg s line :
  has_sub (u "--") line = false -> 0 <= behind s ->
  0 <= behind (processLine s line).
Proof.
  intros Hf Ha.
  destruct (startsWith (u "# branch.ab ") line) eqn:E.
  - rewrite processLine_branch_ab by exact E.
    destruct (re_ab _) as [[m1 m2]|] eqn:R; [|exact Ha].
    apply search_sound in R as (a & b & Eab & R).
    apply re_ab_at_signs in R as [_ R]. simpl. apply R.
    apply (substr_free _ b line); [|exact Hf].
    apply (substr_trans _ (trim (slice 12 line))).
    { rewrite Eab. apply substr_suffix. }
    apply (substr_trans _ (slice 12 line));
      [apply substr_trim|apply substr_slice].
  - now destruct (processLine_keeps_ab s line E) as [_ ->].
Qed.

Lemma parseStatus_ahead_nonneg (output : jsstring) :
  has_sub (u "+-") output = false -> 0 <= ahead (parseStatus output).
Proof.
  intros Hf. unfold parseStatus.
  assert (H : Forall (fun l => has_sub (u "+-") l = false) (lines_of output)).
  { apply Forall_forall. intros l Hl.
    apply (substr_free _ l output); [now apply lines_of_substr|exact Hf]. }
  assert (H0 : 0 <= ahead empty_summary) by (simpl; lia).
  revert H0. generalize empty_summary.
  induction H as [|l ls Hl _ IH]; intros s Hs; simpl; [exact Hs|].
  now apply IH, processLine_ahead_nonneg.
Qed.

Lemma parseStatus_behind_nonneg (output : jsstring) :
  has_sub (u "--") output = false -> 0 <= behind (parseStatus output).
Proof.
  intros Hf. unfold parseStatus.
  assert (H : Forall (fun l => has_sub (u "--") l = false) (lines_of output)).
  { apply Forall_forall. intros l Hl.
    apply (substr_free _ l output); [now apply lines_of_substr|exact Hf]. }
  assert (H0 : 0 <= behind empty_summary) by (simpl; lia).
  revert H0. generalize empty_summary.
  induction H as [|l ls Hl _ IH]; intros s Hs; simpl; [exact Hs|].
  now apply IH, processLine_behind_nonneg.
Qed.

(** ** The rename pattern *)

Lemma has_sub_free_start (p s : jsstring) :
  has_sub p s = false -> startsWith p s = false.
Proof.
  destruct s; simpl; intros H; apply orb_false_iff in H; tauto.
Qed.

Lemma last_forallb (f : N -> bool) (l : jsstring) (d : N) :
  l <> [] -> forallb f l = true -> f (last l d) = true.
Proof.
  induction l as [|c l IH]; [congruence|]. intros _ H.
  cbn [forallb] in H. apply andb_true_iff in H as [Hc Hl].
  destruct l as [|c' l]; [exact Hc|].
  change (last (c :: c' :: l) d) with (last (c' :: l) d).
  apply IH; [discriminate|exact Hl].
Qed.

Lemma arrow_cont_fail {A : Type} (s : jsstring)
      (k1 : jsstring -> option A) :
  startsWith (u "->") (trimStart s) = false ->
  greedy_star is_space s (fun _ r2 => lit (u "->") r2 k1) = None.
Proof.
  intros H. apply greedy_star_none. intros m r -> Hm.
  unfold lit. destruct (startsWith (u "->") r) eqn:E; [|reflexivity].
  rewrite trimStart_spaces, trimStart_stops in H by
    (try exact Hm; apply startsWith_inv in E; now rewrite E).
  congruence.
Qed.

Lemma suffix_no_arrow (m1 m2 t : jsstring) :
  m2 <> [] ->
  has_sub (u "->") (m1 ++ m2) = false ->
  is_space (last (m1 ++ m2) 0%N) = false ->
  startsWith (u "->") (trimStart (m2 ++ u " " ++ t)) = false.
Proof.
  intros Hne Hfree Hlast. rewrite last_app_ne in Hlast by exact Hne.
  destruct (trimStart_suffix m2) as (w & Ew & Hw).
  pose proof (trimStart_stopped m2) as Hstop.
  destruct (trimStart m2) as [|c q] eqn:Eq.
  { rewrite app_nil_r in Ew. subst w.
    rewrite (last_forallb is_space m2 0%N Hne Hw) in Hlast. discriminate. }
  rewrite Ew, <- app_assoc, trimStart_spaces by exact Hw.
  rewrite trimStart_stops by exact Hstop.
  assert (Hq : startsWith (u "->") (c :: q) = false).
  { apply has_sub_free_start.
    apply (substr_free _ _ (m1 ++ m2)); [|exact Hfree].
    exists (m1 ++ w), []. now rewrite app_nil_r, <- app_assoc, Ew. }
  destruct q as [|c2 q].
  - cbn. now rewrite andb_false_r.
  - exact Hq.
Qed.

Lemma re_rename_pair (orig new : jsstring) :
  orig <> [] -> forallb is_dot orig = true ->
  has_sub (u "->") orig = false -> is_space (last orig 0%N) = false ->
  new <> [] -> forallb is_dot new = true -> stops is_space new = true ->
  re_rename (orig ++ u " -> " ++ new) = Some (orig, new).
Proof.
  intros No Do Ao Lo Nn Dn Sn. unfold re_rename.
  apply lazy_plus_first; [exact No|exact Do| |].
  - change (u " -> " ++ new) with ([32%N] ++ (u "->" ++ ([32%N] ++ new))).
    apply greedy_star_max; [reflexivity|reflexivity|].
    rewrite lit_app.
    apply greedy_star_max; [reflexivity|exact Sn|].
    rewrite <- (app_nil_r new) at 1.
    apply greedy_plus_max; [exact Nn|exact Dn|reflexivity|reflexivity].
  - intros m1 m2 -> N1 N2. apply arrow_cont_fail.
    change (u " -> " ++ new) with (u " " ++ (u "-> " ++ new)).
    now apply suffix_no_arrow with (m1 := m1).
Qed.

Lemma re_rename_arrow (f m1 m2 : jsstring) :
  re_rename f = Some (m1, m2) -> has_sub (u "->") f = true.
Proof.
  unfold re_rename. intros H.
  apply lazy_plus_sound in H as (g1 & r1 & -> & _ & _ & H).
  apply greedy_star_sound in H as (w & r2 & -> & _ & H).
  apply lit_sound in H as (r3 & -> & _).
  apply (has_sub_substr _ (u "->")); [|reflexivity].
  exists (g1 ++ w), r3. now rewrite <- !app_assoc.
Qed.

Lemma re_rename_no_arrow (f : jsstring) :
  has_sub (u "->") f = false -> re_rename f = None.
Proof.
  intros H. destruct (re_rename f) as [[m1 m2]|] eqn:E; [|reflexivity].
  apply re_rename_arrow in E. congruence.
Qed.

(** ** The set of changed files *)

Lemma existsb_str_eqb (x : jsstring) (l : list jsstring) :
  existsb (str_eqb x) l = true <-> In x l.
Proof.
  rewrite existsb_exists. split.
  - intros (y & Hy & E). apply str_eqb_eq in E. now subst.
  - intros H. exists x. split; [exact H|apply str_eqb_refl].
Qed.

Lemma set_add_In (x y : jsstring) (fs : list jsstring) :
  In x (set_add y fs) <-> x = y \/ In x fs.
Proof.
  unfold set_add. destruct (existsb (str_eqb y) fs) eqn:E.
  - apply existsb_str_eqb in E. split; [now right|].
    intros [->|H]; assumption.
  - rewrite in_app_iff. simpl. intuition congruence.
Qed.

Lemma set_add_NoDup (y : jsstring) (fs : list jsstring) :
  NoDup fs -> NoDup (set_add y fs).
Proof.
  intros H. unfold set_add. destruct (existsb (str_eqb y) fs) eqn:E;
    [exact H|].
  apply NoDup_app; [exact H|repeat constructor; intros []|].
  intros a Ha [<-|[]]. apply existsb_str_eqb in Ha. congruence.
Qed.

Lemma add_all_In (x : jsstring) (l fs : list jsstring) :
  In x (add_all l fs) <-> In x l \/ In x fs.
Proof.
  unfold add_all. revert fs. induction l as [|y l IH]; intros fs; simpl.
  - tauto.
  - rewrite IH, set_add_In. intuition congruence.
Qed.

Lemma add_all_NoDup (l fs : list jsstring) :
  NoDup fs -> NoDup (add_all l fs).
Proof.
  unfold add_all. revert fs. induction l as [|y l IH]; intros fs H; simpl;
    [exact H|].
  now apply IH, set_add_NoDup.
Qed.

Lemma add_rename_In (x f : jsstring) (fs : list jsstring) :
  In x (add_rename fs f) <-> In x (rename_paths f) \/ In x fs.
Proof.
  unfold add_rename, rename_paths.
  destruct (re_rename f) as [[m1 m2]|]; rewrite ?set_add_In; simpl;
    intuition congruence.
Qed.

Lemma add_rename_NoDup (f : jsstring) (fs : list jsstring) :
  NoDup fs -> NoDup (add_rename fs f).
Proof.
  intros H. unfold add_rename.
  destruct (re_rename f) as [[m1 m2]|]; now repeat apply set_add_NoDup.
Qed.

Lemma fold_add_rename_In (x : jsstring) (l fs : list jsstring) :
  In x (fold_left add_rename l fs) <->
  (exists f, In f l /\ In x (rename_paths f)) \/ In x fs.
Proof.
  revert fs. induction l as [|y l IH]; intros fs; simpl.
  - split; [now right|]. intros [(f & [] & _)|H]; exact H.
  - rewrite IH, add_rename_In. split.
    + intros [(f & Hf & Hx)|[H|H]]; [left; exists f|left; exists y|right];
        tauto.
    + intros [(f & [<-|Hf] & Hx)|H]; [tauto|left; exists f|]; tauto.
Qed.

Lemma fold_add_rename_NoDup (l fs : list jsstring) :
  NoDup fs -> NoDup (fold_left add_rename l fs).
Proof.
  revert fs. induction l as [|y l IH]; intros fs H; simpl; [exact H|].
  now apply IH, add_rename_NoDup.
Qed.

Lemma getChangedFiles_In (s : StatusSummary) (so : bool) (x : jsstring) :
  In x (getChangedFiles s so) <->
  In x (Samples.added (samples s)) \/
  In x (Samples.modified (samples s)) \/
  In x (Samples.deleted (samples s)) \/
  (so = false /\ In x (Samples.untracked (samples s))) \/
  (exists f, In f (Samples.renamed (samples s)) /\ In x (rename_paths f)).
Proof.
  unfold getChangedFiles. destruct so;
    rewrite fold_add_rename_In, ?add_all_In, ?in_app_iff; simpl;
    intuition congruence.
Qed.

Lemma getChangedFiles_NoDup (s : StatusSummary) (so : bool) :
  NoDup (getChangedFiles s so).
Proof.
  unfold getChangedFiles. destruct so; apply fold_add_rename_NoDup;
    repeat apply add_all_NoDup; constructor.
Qed.

(** ** White-space separated fields *)

Lemma fields_not_nil (sep : bool) (s : jsstring) : fields sep s <> [].
Proof.
  revert sep. induction s as [|c s IH]; intros sep; simpl; [discriminate|].
  destruct (is_space c).
  - destruct sep; [apply IH|discriminate].
  - destruct (fields false s); discriminate.
Qed.

(** A field that is neither the first nor the last piece is not empty;
    after a separator the first piece is empty only when it is the last. *)
Lemma fields_interior (s : jsstring) :
  forall sep,
    (forall a x b, fields sep s = a ++ x :: b -> a <> [] -> b <> [] ->
                   x <> []) /\
    (sep = true ->
     forall x b, fields sep s = x :: b -> b <> [] -> x <> []).
Proof.
  induction s as [|c s IH]; intros sep.
  - split.
    + intros [|a0 [|a1 a]] x b E; simpl in E; try congruence; discriminate.
    + intros _ x b E. simpl in E. injection E as <- <-. auto.
  - cbn [fields]. destruct (is_space c) eqn:Ec.
    + destruct sep; [apply IH|]. split; [|discriminate].
      intros [|a0 a] x b E Ha Hb; [congruence|].
      injection E as <- E. destruct a as [|a1 a].
      * now apply (proj2 (IH true) eq_refl x b).
      * apply (proj1 (IH true) (a1 :: a) x b); [exact E|discriminate|exact Hb].
    + destruct (fields false s) as [|h t] eqn:Ef;
        [now apply fields_not_nil in Ef|].
      split.
      * intros [|a0 a] x b E Ha Hb; [congruence|].
        injection E as <- E.
        apply (proj1 (IH false) (h :: a) x b); [|discriminate|exact Hb].
        rewrite Ef. simpl. now f_equal.
      * intros _ x b E _. injection E as <- _. discriminate.
Qed.

(** The last two elements of a list of three or more. *)
Lemma last_two {X : Type} (l : list X) (d : X) :
  3 <= len l ->
  exists a o z, l = a ++ [o; z] /\ a <> [] /\
                nth_error l (List.length l - 2) = Some o /\ last l d = z.
Proof.
  unfold len. intros H.
  destruct (exists_last (l := l)) as (l1 & z & ->).
  { intros ->. simpl in H. lia. }
  rewrite length_app in H. simpl in H.
  destruct (exists_last (l := l1)) as (a & o & ->).
  { intros ->. simpl in H. lia. }
  rewrite length_app in H. simpl in H.
  exists a, o, z. rewrite <- app_assoc. repeat split.
  - intros ->. simpl in H. lia.
  - rewrite length_app. simpl.
    replace (List.length a + 2 - 2)%nat with (List.length a + 0)%nat by lia.
    now rewrite nth_error_app2, Nat.add_comm, Nat.add_sub by lia.
  - now rewrite last_app_ne.
Qed.

Lemma last_In {X : Type} (l : list X) (d : X) : l <> [] -> In (last l d) l.
Proof.
  induction l as [|x l IH]; [congruence|]. intros _.
  destruct l as [|y l]; [now left|].
  right. apply IH. discriminate.
Qed.

Lemma split_ws_second_to_last (line : jsstring) :
  3 <= len (split_ws line) ->
  exists o, o <> [] /\
    nth_error (split_ws line) (List.length (split_ws line) - 2) = Some o.
Proof.
  intros H.
  destruct (last_two (split_ws line) [] H) as (a & o & z & E & Ha & Hn & _).
  exists o. split; [|exact Hn].
  apply (proj1 (fields_interior line false) a o [z]);
    [exact E|exact Ha|discriminate].
Qed.

Lemma fields_after_sep (w s : jsstring) :
  forallb is_space w = true -> stops is_space s = true ->
  fields true (w ++ s) = fields false s.
Proof.
  intros Hw Hs. induction w as [|c w IH].
  - destruct s as [|c s]; [reflexivity|]. simpl in *.
    apply negb_true_iff in Hs. now rewrite Hs.
  - simpl in *. apply andb_true_iff in Hw as [Hc Hw]. rewrite Hc. now apply IH.
Qed.

Lemma fields_token (f w s : jsstring) :
  forallb (fun c => negb (is_space c)) f = true ->
  w <> [] -> forallb is_space w = true -> stops is_space s = true ->
  fields false (f ++ w ++ s) = f :: fields false s.
Proof.
  intros Hf Nw Hw Hs. induction f as [|c f IH].
  - destruct w as [|c w]; [congruence|]. simpl in *.
    apply andb_true_iff in Hw as [Hc Hw]. rewrite Hc.
    now rewrite fields_after_sep.
  - simpl in *. apply andb_true_iff in Hf as [Hc Hf].
    apply negb_true_iff in Hc. rewrite Hc. now rewrite IH.
Qed.

Lemma fields_last_token (f : jsstring) :
  forallb (fun c => negb (is_space c)) f = true -> fields false f = [f].
Proof.
  induction f as [|c f IH]; [reflexivity|]. simpl. intros H.
  apply andb_true_iff in H as [Hc Hf].
  apply negb_true_iff in Hc. now rewrite Hc, IH.
Qed.

(** Splitting undoes joining tokens with single spaces. *)
Lemma split_ws_join (fs : list jsstring) :
  fs <> [] -> Forall token fs -> split_ws (join (u " ") fs) = fs.
Proof.
  unfold split_ws. intros Hne H. induction H as [|f fs [Nf Hf] Hfs IH];
    [congruence|].
  destruct fs as [|g fs]; [now apply fields_last_token|].
  change (join (u " ") (f :: g :: fs))
    with (f ++ u " " ++ join (u " ") (g :: fs)).
  rewrite fields_token; [|exact Hf|discriminate|reflexivity|].
  - now rewrite IH.
  - inversion Hfs as [|? ? [Ng Hg] _]; subst.
    destruct g as [|c g]; [congruence|].
    simpl in Hg. apply andb_true_iff in Hg as [Hc _].
    destruct fs; simpl; exact Hc.
Qed.

(** ** Lines of kind "1" and "2" *)

Lemma is_chr_some (c : N) (x : string) : is_chr (Some c) x = N.eqb c (chr x).
Proof. reflexivity. Qed.

Lemma processLine_changed s line kind :
  nth_error line 0 = Some kind ->
  (kind = chr "1" \/ kind = chr "2") ->
  processLine s line = changed_entry (Some kind) line s.
Proof.
  intros E K. unfold processLine. rewrite E.
  destruct line as [|c line]; [discriminate|]. injection E as ->.
  destruct K as [-> | ->]; reflexivity.
Qed.

Lemma changed_entry_eq kind line xy s :
  2 <= len (split_ws line) ->
  nth_error (split_ws line) 1 = Some xy ->
  2 <= len xy ->
  changed_entry (Some kind) line s =
  record_unstaged (nth_error xy 1) (last (split_ws line) [])
    (record_staged (nth_error xy 0) (last (split_ws line) [])
       (if N.eqb kind (chr "2") && (3 <=? len (split_ws line))
        then nth_error (split_ws line) (List.length (split_ws line) - 2)
        else None) s).
Proof.
  intros H2 Hxy Hl. unfold changed_entry.
  destruct (Z.ltb_spec (len (split_ws line)) 2); [lia|].
  rewrite Hxy. destruct (Z.ltb_spec (len xy) 2); [lia|]. reflexivity.
Qed.

Lemma record_unstaged_renamed Y p s :
  Samples.renamed (samples (record_unstaged Y p s)) =
  Samples.renamed (samples s).
Proof. unfold record_unstaged. split_ifs; reflexivity. Qed.

Lemma record_staged_renamed X p o s :
  is_chr X "R" || is_chr X "C" = true ->
  Samples.renamed (samples (record_staged X p o s)) =
  push_sample (Samples.renamed (samples s)) (rename_sample o p).
Proof.
  unfold record_staged. destruct X as [c|]; [|discriminate].
  rewrite !is_chr_some.
  destruct (N.eqb_spec c (chr "A")) as [->|]; [discriminate|].
  destruct (N.eqb_spec c (chr "M")) as [->|]; [discriminate|].
  destruct (N.eqb_spec c (chr "D")) as [->|]; [discriminate|].
  destruct (N.eqb c (chr "R")); [reflexivity|].
  destruct (N.eqb c (chr "C")); [reflexivity|discriminate].
Qed.


(** ** The body of the simple message *)

Lemma endsWith_app (pre suf : jsstring) : endsWith suf (pre ++ suf) = true.
Proof.
  unfold endsWith. rewrite length_app, Nat.add_sub, skipn_app_length.
  apply str_eqb_refl.
Qed.

Lemma pushLine_In (category : string) (L : list jsstring * Z)
      (b : list jsstring) (x : jsstring) :
  In x (pushLine category L b) <->
  In x b \/ (fst L <> [] /\ x = bodyLine category L).
Proof.
  unfold pushLine. destruct (fst L) eqn:E; simpl.
  - intuition congruence.
  - rewrite in_app_iff. simpl. intuition congruence.
Qed.

Lemma limitList_over (l : list jsstring) :
  MAX_FILE_SAMPLES < len l ->
  limitList l = (firstn 10 l, len l - MAX_FILE_SAMPLES) /\
  firstn 10 l <> [].
Proof.
  intros H. unfold limitList. apply Z.ltb_lt in H as H'. rewrite H'.
  split; [reflexivity|]. destruct l; [|discriminate].
  unfold len, MAX_FILE_SAMPLES in H. simpl in H. lia.
Qed.

Lemma limitList_under (l : list jsstring) :
  len l <= MAX_FILE_SAMPLES -> limitList l = (l, 0).
Proof.
  intros H. unfold limitList.
  destruct (Z.ltb_spec MAX_FILE_SAMPLES (len l)); [lia|reflexivity].
Qed.

Lemma bodyLine_over (category : string) (l : list jsstring) :
  MAX_FILE_SAMPLES < len l ->
  fst (limitList l) <> [] /\
  bodyLine category (limitList l) = overflowLine category l.
Proof.
  intros H. destruct (limitList_over l H) as [-> Hne]. split; [exact Hne|].
  unfold bodyLine, overflowLine, plainLine, overflow. cbn [fst snd].
  destruct (Z.eqb_spec (len l - MAX_FILE_SAMPLES) 0); [lia|].
  now rewrite <- !app_assoc.
Qed.

Lemma pushLine_plain (category : string) (l b : list jsstring) :
  len l <= MAX_FILE_SAMPLES ->
  pushLine category (limitList l) b =
  b ++ (if nonempty l then [plainLine category l] else []).
Proof.
  intros H. rewrite (limitList_under l H). unfold pushLine, bodyLine.
  cbn [fst snd]. destruct l; simpl; [now rewrite app_nil_r|].
  unfold plainLine. now rewrite !app_nil_r.
Qed.

Lemma bodyParts_plain (s : StatusSummary) (opts : MessageOptions) :
  capped s -> bodyParts s opts = plainBody (samples s) opts.
Proof.
  intros (Ha & Hm & Hd & Hr & Hu). unfold bodyParts, plainBody.
  destruct (truthy (stagedOnly opts)); cbn [negb];
    rewrite !pushLine_plain by assumption;
    cbn [app]; now rewrite <- ?app_assoc, ?app_nil_r.
Qed.

Lemma buildSimpleMessage_body (s : StatusSummary) (opts : MessageOptions) :
  bodyParts s opts <> [] ->
  buildSimpleMessage s opts =
  title s opts ++ [LF; LF] ++ join [LF] (bodyParts s opts).
Proof.
  unfold buildSimpleMessage. destruct (bodyParts s opts); congruence.
Qed.

(* ================================================================== *)
(** * The claims *)

(** ** C1: the overflow suffix is out of reach of a parsed summary *)

(** What [buildSimpleMessage] sets out to do.  [limitList] computes an
    overflow, and a body line ends with [" (+<overflow> more)"], but both
    are measured on the sample list: the suffix is appended only for a
    sample list of more than [MAX_FILE_SAMPLES] = 10 entries, which
    [parseStatus], capping every list at the same constant, never
    builds. *)
Lemma overflow_suffix_from_sample_length
        (s : StatusSummary) (opts : MessageOptions) :
  (MAX_FILE_SAMPLES < len (Samples.added (samples s)) ->
   In (overflowLine "added" (Samples.added (samples s)))
      (bodyParts s opts)) /\
  (MAX_FILE_SAMPLES < len (Samples.modified (samples s)) ->
   In (overflowLine "modified" (Samples.modified (samples s)))
      (bodyParts s opts)) /\
  (MAX_FILE_SAMPLES < len (Samples.deleted (samples s)) ->
   In (overflowLine "deleted" (Samples.deleted (samples s)))
      (bodyParts s opts)) /\
  (MAX_FILE_SAMPLES < len (Samples.renamed (samples s)) ->
   In (overflowLine "renamed" (Samples.renamed (samples s)))
      (bodyParts s opts)) /\
  (truthy (stagedOnly opts) = false ->
   MAX_FILE_SAMPLES < len (Samples.untracked (samples s)) ->
   In (overflowLine "untracked" (Samples.untracked (samples s)))
      (bodyParts s opts)) /\
  (forall l : list jsstring, len l = 15 -> overflow l = u " (+5 more)") /\
  (capped s -> bodyParts s opts = plainBody (samples s) opts) /\
  (bodyParts s opts <> [] ->
   buildSimpleMessage s opts =
   title s opts ++ [LF; LF] ++ join [LF] (bodyParts s opts)).
Proof.
  assert (P : forall (category : string) (l : list jsstring),
             MAX_FILE_SAMPLES < len l ->
             fst (limitList l) <> [] /\
             overflowLine category l = bodyLine category (limitList l)).
  { intros category l H. destruct (bodyLine_over category l H). now split. }
  unfold bodyParts.
  repeat split.
  - intros H. destruct (truthy (stagedOnly opts)); cbn [negb];
      rewrite !pushLine_In; auto 10.
  - intros H. destruct (truthy (stagedOnly opts)); cbn [negb];
      rewrite !pushLine_In; auto 10.
  - intros H. destruct (truthy (stagedOnly opts)); cbn [negb];
      rewrite !pushLine_In; auto 10.
  - intros H. destruct (truthy (stagedOnly opts)); cbn [negb];
      rewrite !pushLine_In; auto 10.
  - intros -> H. cbn [negb]. rewrite !pushLine_In; auto 10.
  - intros l H. unfold overflow. now rewrite H.
  - intros H. fold (bodyParts s opts). now apply bodyParts_plain.
  - apply buildSimpleMessage_body.
Qed.

Lemma overflow_suffix_from_sample_length_witness :
  MAX_FILE_SAMPLES < len (Samples.added (samples summary15)) /\
  In (plainLine "added" (repeat (u "f.txt") 10) ++ u " (+5 more)")
     (bodyParts summary15 opts_default).
Proof.
  split; [reflexivity|].
  apply (proj1 (overflow_suffix_from_sample_length summary15 opts_default)).
  reflexivity.
Defined.

(** C1.  The code computes the overflow from the length of the sample
    list, where the count of the category is meant.  On the status of
    fifteen added files the counter is 15, the parser has kept ten
    samples, [limitList] finds nothing left out, and the body line of the
    message ends with the tenth file and not with [" (+5 more)"]. *)
Theorem fifteen_added_files_no_suffix :
  let s := parseStatus fifteen_added in
  Staged.added (staged s) = 15 /\
  len (Samples.added (samples s)) = 10 /\
  limitList (Samples.added (samples s)) = (Samples.added (samples s), 0) /\
  buildSimpleMessage s opts_default =
    u "15 addeds " ++ [EM_DASH] ++ u " on main" ++ [LF; LF] ++
    u "added: file1.txt, file2.txt, file3.txt, file4.txt, file5.txt, file6.txt, file7.txt, file8.txt, file9.txt, file10.txt" /\
  endsWith (u " (+5 more)") (buildSimpleMessage s opts_default) = false.
Proof. repeat split; vm_compute; reflexivity. Qed.

(** ** C2 (as amended): a status with only the branch header *)

(** C2, amended.  Parsing the single line ["# branch.head main\n"] gives a
    summary with branch ["main"] and every counter 0, and for every options
    [buildSimpleMessage] turns it into ["no changes — on main"]: the title
    core ["no changes"] followed by the branch suffix. *)
Theorem branch_only_status_message :
  let s := parseStatus (u "# branch.head main" ++ [LF]) in
  branch s = Some (u "main") /\
  ahead s = 0 /\ behind s = 0 /\
  staged s = Staged.mk 0 0 0 0 0 /\ unstaged s = Unstaged.mk 0 0 /\
  untracked s = 0 /\ conflicts s = 0 /\
  (forall opts, titleCore s opts = u "no changes") /\
  (forall opts,
      buildSimpleMessage s opts = u "no changes " ++ [EM_DASH] ++ u " on main").
Proof.
  repeat split; try (vm_compute; reflexivity);
    intros [[[|]|] c si v t]; vm_compute; reflexivity.
Qed.

(** C2 as stated fails: the message is not the bare ["no changes"]. *)
Lemma branch_only_message_not_bare :
  buildSimpleMessage (parseStatus (u "# branch.head main" ++ [LF]))
                     opts_default <> u "no changes".
Proof. vm_compute. discriminate. Qed.

(** ** C3 (as amended): counters and buckets *)

Lemma fold_processLine_ahead_nonneg (ls : list jsstring) (s : StatusSummary) :
  Forall (fun l => has_sub (u "+-") l = false)
         (filter (startsWith (u "# branch.ab ")) ls) ->
  0 <= ahead s -> 0 <= ahead (fold_left processLine ls s).
Proof.
  revert s. induction ls as [|l ls IH]; intros s H Hs; [exact Hs|].
  cbn [fold_left filter] in *.
  destruct (startsWith (u "# branch.ab ") l) eqn:E.
  - inversion H as [|? ? Hl Hls]; subst.
    apply IH; [exact Hls|]. now apply processLine_ahead_nonneg.
  - apply IH; [exact H|].
    now rewrite (proj1 (processLine_keeps_ab s l E)).
Qed.

Lemma fold_processLine_behind_nonneg (ls : list jsstring) (s : StatusSummary) :
  Forall (fun l => has_sub (u "--") l = false)
         (filter (startsWith (u "# branch.ab ")) ls) ->
  0 <= behind s -> 0 <= behind (fold_left processLine ls s).
Proof.
  revert s. induction ls as [|l ls IH]; intros s H Hs; [exact Hs|].
  cbn [fold_left filter] in *.
  destruct (startsWith (u "# branch.ab ") l) eqn:E.
  - inversion H as [|? ? Hl Hls]; subst.
    apply IH; [exact Hls|]. now apply processLine_behind_nonneg.
  - apply IH; [exact H|].
    now rewrite (proj2 (processLine_keeps_ab s l E)).
Qed.

(** C3, amended.  For every status text: every staged and unstaged
    counter, [untracked] and [conflicts] are at least 0; [ahead] is at
    least 0 when no line that starts with ["# branch.ab "] holds ["+-"],
    and [behind] is at least 0 when no such line holds ["--"] (the header
    pattern accepts a minus sign inside each of its two integers; what
    the other lines hold, a path for instance, plays no part); and every
    sample bucket holds at most as many entries as the counters feeding
    it add up to: [samples.added] against [staged.added],
    [samples.modified] against [staged.modified + unstaged.modified],
    [samples.deleted] against [staged.deleted + unstaged.deleted],
    [samples.renamed] against [staged.renamed + staged.copied],
    [samples.untracked] against [untracked]. *)
Theorem parseStatus_counts_and_buckets (output : jsstring) :
  let s := parseStatus output in
  counts_ok s /\ buckets_ok s /\
  (Forall (fun l => has_sub (u "+-") l = false) (ab_headers output) ->
   0 <= ahead s) /\
  (Forall (fun l => has_sub (u "--") l = false) (ab_headers output) ->
   0 <= behind s).
Proof.
  pose proof (parseStatus_inv output) as H.
  split; [apply H|]. split; [now apply summary_inv_buckets|].
  unfold parseStatus, ab_headers. split; intros Hf.
  - apply fold_processLine_ahead_nonneg; [exact Hf|cbn; lia].
  - apply fold_processLine_behind_nonneg; [exact Hf|cbn; lia].
Qed.

Lemma parseStatus_counts_and_buckets_witness :
  let output := u "# branch.ab +2 -1" ++ [LF] ++
                u "? button--primary+-v2.scss" ++ [LF] in
  Forall (fun l => has_sub (u "+-") l = false) (ab_headers output) /\
  Forall (fun l => has_sub (u "--") l = false) (ab_headers output) /\
  0 <= ahead (parseStatus output) /\
  0 <= behind (parseStatus output).
Proof.
  intros output.
  assert (Ha : Forall (fun l => has_sub (u "+-") l = false)
                      (ab_headers output)) by (repeat constructor).
  assert (Hb : Forall (fun l => has_sub (u "--") l = false)
                      (ab_headers output)) by (repeat constructor).
  split; [exact Ha|]. split; [exact Hb|].
  split.
  - exact (proj1 (proj2 (proj2 (parseStatus_counts_and_buckets output))) Ha).
  - exact (proj2 (proj2 (proj2 (parseStatus_counts_and_buckets output))) Hb).
Defined.

(** C3 as stated fails: [ahead] and [behind] can be negative, and a
    counter can be smaller than the bucket it shares with another one. *)
Lemma parseStatus_counts_counterexample :
  ahead (parseStatus (u "# branch.ab +-5 -1" ++ [LF])) < 0 /\
  behind (parseStatus (u "# branch.ab +5 --7" ++ [LF])) < 0 /\
  (let s := parseStatus (u "1 .M N... 100644 100644 100644 h1 h2 f.txt") in
   Staged.modified (staged s) < len (Samples.modified (samples s))) /\
  (let s := parseStatus (u "2 C. N... 100644 100644 100644 h1 h2 C100 a b") in
   Staged.renamed (staged s) < len (Samples.renamed (samples s))).
Proof. repeat split. Qed.

(** ** C4 (as amended): the ahead/behind header *)

Lemma processLine_ab_header s padl sg1 d1 w sg2 d2 padr :
  forallb is_space padl = true -> forallb is_space padr = true ->
  is_sign sg1 -> d1 <> [] -> forallb is_digit d1 = true ->
  w <> [] -> forallb is_space w = true ->
  is_sign sg2 -> d2 <> [] -> forallb is_digit d2 = true ->
  processLine s (u "# branch.ab " ++ padl ++ ab_text sg1 d1 w sg2 d2 ++ padr) =
  set_ahead_behind (int_val sg1 d1) (int_val sg2 d2) s.
Proof.
  intros. apply processLine_ab_text with (padl := padl) (w := w) (padr := padr);
    try assumption.
  - apply startsWith_app.
  - reflexivity.
Qed.

(** C4, amended.  A line ["# branch.ab "] whose remainder is, up to
    surrounding white space, [+<int> <white space> -<int>], where each
    [<int>] is a run of decimal digits with an optional minus sign in
    front (the pattern reads [-?\d+] twice) and of magnitude at most
    2^53 - 1 ([Number.MAX_SAFE_INTEGER]: beyond it [parseInt] gives the
    nearest floating-point number, not the integer written), sets [ahead]
    to the first integer and [behind] to the integer written after the
    ["-"], sign included.  When that second integer has no sign of its
    own, as in what git prints, [behind] is the absolute value of the
    number ["-<digits>"] of the text.  A match of the pattern always has
    this shape.  A ["# branch.ab "] line on which the pattern finds no
    match (one with no ["+"], for instance) leaves the summary, hence
    [ahead] and [behind], as it was.  The values set by such a line are
    those of the final summary unless a later ["# branch.ab "] line
    follows; ["# branch.ab +2 -1"] gives [ahead = 2] and [behind = 1]. *)
Theorem branch_ab_sets_ahead_behind :
  (forall s padl sg1 d1 w sg2 d2 padr,
      forallb is_space padl = true -> forallb is_space padr = true ->
      is_sign sg1 -> d1 <> [] -> forallb is_digit d1 = true ->
      w <> [] -> forallb is_space w = true ->
      is_sign sg2 -> d2 <> [] -> forallb is_digit d2 = true ->
      safe_digits d1 -> safe_digits d2 ->
      let line :=
        u "# branch.ab " ++ padl ++ ab_text sg1 d1 w sg2 d2 ++ padr in
      parseInt (sg1 ++ d1) = Some (int_val sg1 d1) /\
      parseInt (sg2 ++ d2) = Some (int_val sg2 d2) /\
      ahead (processLine s line) = int_val sg1 d1 /\
      behind (processLine s line) = int_val sg2 d2) /\
  (forall d,
      d <> [] -> forallb is_digit d = true -> safe_digits d ->
      parseInt (u "-" ++ d) = Some (int_val (u "-") d) /\
      int_val [] d = Z.abs (int_val (u "-") d)) /\
  (forall s line m1 m2,
      startsWith (u "# branch.ab ") line = true ->
      re_ab (trim (slice 12 line)) = Some (m1, m2) ->
      exists sg1 d1 sg2 d2,
        m1 = sg1 ++ d1 /\ m2 = sg2 ++ d2 /\
        is_sign sg1 /\ d1 <> [] /\ forallb is_digit d1 = true /\
        is_sign sg2 /\ d2 <> [] /\ forallb is_digit d2 = true /\
        (safe_digits d1 -> safe_digits d2 ->
         processLine s line =
         set_ahead_behind (int_val sg1 d1) (int_val sg2 d2) s)) /\
  (forall s line,
      startsWith (u "# branch.ab ") line = true ->
      re_ab (trim (slice 12 line)) = None \/ has_sub (u "+") line = false ->
      processLine s line = s) /\
  (forall output before line after,
      lines_of output = before ++ line :: after ->
      Forall (fun l => startsWith (u "# branch.ab ") l = false) after ->
      let s := processLine (fold_left processLine before empty_summary) line in
      ahead (parseStatus output) = ahead s /\
      behind (parseStatus output) = behind s) /\
  (ahead (parseStatus (u "# branch.ab +2 -1" ++ [LF])) = 2 /\
   behind (parseStatus (u "# branch.ab +2 -1" ++ [LF])) = 1).
Proof.
  split; [|split; [|split; [|split; [|split]]]].
  - intros s padl sg1 d1 w sg2 d2 padr Hl Hr S1 N1 D1 NW W S2 N2 D2 _ _ line.
    unfold line. rewrite processLine_ab_header by assumption.
    rewrite !parseInt_signed by assumption. now repeat split.
  - intros d Nd Hd _. split; [now apply parseInt_minus|].
    pose proof (digits_val_nonneg d Hd). simpl. lia.
  - intros s line m1 m2 H R.
    destruct (processLine_ab_match s line m1 m2 H R)
      as (sg1 & d1 & sg2 & d2 & E1 & E2 & S1 & N1 & D1 & S2 & N2 & D2 & E).
    exists sg1, d1, sg2, d2. now repeat split.
  - intros s line H R. rewrite processLine_branch_ab by exact H.
    assert (R' : re_ab (trim (slice 12 line)) = None).
    { destruct R as [R|R]; [exact R|]. apply re_ab_needs_plus.
      apply (substr_free _ _ line); [|exact R].
      apply (substr_trans _ (slice 12 line));
        [apply substr_trim|apply substr_slice]. }
    now rewrite R'.
  - intros output before line after E Hafter s.
    unfold parseStatus. rewrite E, fold_left_app. simpl.
    apply (fold_processLine_keeps_ab after s Hafter).
  - split; reflexivity.
Qed.

Lemma branch_ab_sets_ahead_behind_witness :
  (safe_digits (u "12") /\ safe_digits (u "7") /\
   parseInt (u "12") = Some 12 /\ parseInt (u "7") = Some 7 /\
   ahead (processLine empty_summary (u "# branch.ab +12 -7")) = 12 /\
   behind (processLine empty_summary (u "# branch.ab +12 -7")) = 7) /\
  (safe_digits (u "3") /\ safe_digits (u "4") /\
   ahead (processLine empty_summary (u "# branch.ab +-3 --4")) = -3 /\
   behind (processLine empty_summary (u "# branch.ab +-3 --4")) = -4) /\
  processLine empty_summary (u "# branch.ab up to date") = empty_summary.
Proof.
  assert (S12 : safe_digits (u "12")) by (vm_compute; discriminate).
  assert (S7 : safe_digits (u "7")) by (vm_compute; discriminate).
  assert (S3 : safe_digits (u "3")) by (vm_compute; discriminate).
  assert (S4 : safe_digits (u "4")) by (vm_compute; discriminate).
  split; [|split].
  - split; [exact S12|]. split; [exact S7|].
    apply (proj1 branch_ab_sets_ahead_behind empty_summary
                 [] [] (u "12") (u " ") [] (u "7") []);
      try reflexivity; try discriminate; try assumption; now left.
  - split; [exact S3|]. split; [exact S4|].
    apply (proj1 branch_ab_sets_ahead_behind empty_summary
                 [] (u "-") (u "3") (u " ") (u "-") (u "4") []);
      try reflexivity; try discriminate; try assumption; now right.
  - apply (proj1 (proj2 (proj2 (proj2 branch_ab_sets_ahead_behind))));
      [reflexivity|right; reflexivity].
Defined.

(** C4 as stated fails: on ["# branch.ab +5 --7"] the line is not left
    alone ([ahead] becomes 5), and [behind] becomes -7, which is the
    absolute value of no integer. *)
Lemma branch_ab_signed_behind :
  let s := processLine empty_summary (u "# branch.ab +5 --7") in
  ahead s = 5 /\ behind s = -7 /\ forall z, behind s <> Z.abs z.
Proof.
  repeat split. intros z. change (-7 <> Z.abs z). lia.
Qed.

(** ** C5 (as amended): the set of changed files *)

Lemma perm_In {X : Type} (l l' : list X) :
  Permutation l l' -> forall x, In x l <-> In x l'.
Proof.
  intros P x. split; apply Permutation_in; [exact P|now apply Permutation_sym].
Qed.

Lemma rename_paths_pair (orig new : jsstring) :
  orig <> [] -> forallb is_dot orig = true ->
  has_sub (u "->") orig = false -> is_space (last orig 0%N) = false ->
  new <> [] -> forallb is_dot new = true -> stops is_space new = true ->
  rename_paths (orig ++ u " -> " ++ new) = [orig; new].
Proof.
  intros. unfold rename_paths. now rewrite re_rename_pair.
Qed.

(** C5, amended.  For every summary, [getChangedFiles] returns a list
    without duplicates.  For an entry [orig ++ " -> " ++ new] of
    [samples.renamed] both [orig] and [new] are in the result, provided
    that [orig] is not empty, has no line terminator, does not contain
    ["->"] and does not end in white space, and that [new] is not empty,
    has no line terminator and does not start with white space.  An entry
    that does not contain ["->"] is in the result as it is.  The set of
    paths in the result does not depend on the order of the samples (and
    so is the same on every call for the same summary). *)
Theorem getChangedFiles_set (s : StatusSummary) (so : bool) :
  NoDup (getChangedFiles s so) /\
  (forall orig new,
      orig <> [] -> forallb is_dot orig = true ->
      has_sub (u "->") orig = false -> is_space (last orig 0%N) = false ->
      new <> [] -> forallb is_dot new = true -> stops is_space new = true ->
      In (orig ++ u " -> " ++ new) (Samples.renamed (samples s)) ->
      In orig (getChangedFiles s so) /\ In new (getChangedFiles s so)) /\
  (forall f,
      has_sub (u "->") f = false ->
      In f (Samples.renamed (samples s)) ->
      In f (getChangedFiles s so)) /\
  (forall s',
      Permutation (Samples.added (samples s)) (Samples.added (samples s')) ->
      Permutation (Samples.modified (samples s))
                  (Samples.modified (samples s')) ->
      Permutation (Samples.deleted (samples s))
                  (Samples.deleted (samples s')) ->
      Permutation (Samples.renamed (samples s))
                  (Samples.renamed (samples s')) ->
      Permutation (Samples.untracked (samples s))
                  (Samples.untracked (samples s')) ->
      forall x, In x (getChangedFiles s so) <-> In x (getChangedFiles s' so)) /\
  (In (u "old.js -> new.js") (Samples.renamed (samples s)) ->
   In (u "old.js") (getChangedFiles s so) /\
   In (u "new.js") (getChangedFiles s so)).
Proof.
  assert (Pair : forall orig new,
             orig <> [] -> forallb is_dot orig = true ->
             has_sub (u "->") orig = false ->
             is_space (last orig 0%N) = false ->
             new <> [] -> forallb is_dot new = true ->
             stops is_space new = true ->
             In (orig ++ u " -> " ++ new) (Samples.renamed (samples s)) ->
             In orig (getChangedFiles s so) /\ In new (getChangedFiles s so)).
  { intros orig new No Do Ao Lo Nn Dn Sn Hin.
    split; apply getChangedFiles_In; do 4 right;
      exists (orig ++ u " -> " ++ new); (split; [exact Hin|]);
      rewrite rename_paths_pair by assumption; simpl; auto. }
  split; [apply getChangedFiles_NoDup|].
  split; [exact Pair|].
  split; [|split].
  - intros f Hf Hin. apply getChangedFiles_In. do 4 right.
    exists f. split; [exact Hin|].
    unfold rename_paths. rewrite re_rename_no_arrow by exact Hf. now left.
  - intros s' Pa Pm Pd Pr Pu x. rewrite !getChangedFiles_In.
    rewrite (perm_In _ _ Pa x), (perm_In _ _ Pm x), (perm_In _ _ Pd x),
      (perm_In _ _ Pu x).
    assert (E : (exists f, In f (Samples.renamed (samples s)) /\
                           In x (rename_paths f)) <->
                (exists f, In f (Samples.renamed (samples s')) /\
                           In x (rename_paths f))).
    { split; intros (f & Hf & Hx); exists f; (split; [|exact Hx]);
        now apply (perm_In _ _ Pr f). }
    rewrite E. reflexivity.
  - intros Hin.
    apply (Pair (u "old.js") (u "new.js")); try reflexivity; try discriminate.
    exact Hin.
Qed.

Lemma getChangedFiles_set_witness :
  let s := renamed_only [u "plain.js"; u "old.js -> new.js"] in
  (In (u "old.js") (getChangedFiles s true) /\
   In (u "new.js") (getChangedFiles s true)) /\
  In (u "plain.js") (getChangedFiles s true).
Proof.
  intros s. split.
  - apply (proj1 (proj2 (getChangedFiles_set s true))
                 (u "old.js") (u "new.js"));
      try reflexivity; try discriminate.
    simpl. right. left. reflexivity.
  - apply (proj1 (proj2 (proj2 (getChangedFiles_set s true))));
      [reflexivity|]. simpl. left. reflexivity.
Defined.

(** C5 as stated fails: with a path that contains ["->"], the entry
    ["a->b -> c"] contributes ["a"] and ["b -> c"], neither the original
    path ["a->b"] nor the new path ["c"]; and the entry ["x->y"], which has
    no [" -> "] separator, is not added as a single path. *)
Lemma getChangedFiles_arrow_in_path :
  (let s := renamed_only [u "a->b" ++ u " -> " ++ u "c"] in
   getChangedFiles s false = [u "a"; u "b -> c"] /\
   ~ In (u "a->b") (getChangedFiles s false) /\
   ~ In (u "c") (getChangedFiles s false)) /\
  (let s := renamed_only [u "x->y"] in
   has_sub (u " -> ") (u "x->y") = false /\
   getChangedFiles s false = [u "x"; u "y"] /\
   ~ In (u "x->y") (getChangedFiles s false)).
Proof.
  repeat split; try (vm_compute; reflexivity);
    intros H; vm_compute in H; intuition discriminate.
Qed.

(** ** C6: the title parts *)

Lemma addPart_app (n : Z) (label : string) (parts : list jsstring) :
  addPart n label parts =
  parts ++ (if 0 <? n then [spec_part (n, label)] else []).
Proof.
  unfold addPart. destruct (0 <? n); [reflexivity|now rewrite app_nil_r].
Qed.

Lemma nonzero_positive (n : Z) : 0 <= n -> negb (n =? 0) = (0 <? n).
Proof.
  intros H. destruct (Z.eqb_spec n 0), (Z.ltb_spec 0 n); simpl; lia.
Qed.

Lemma titleParts_spec (s : StatusSummary) (opts : MessageOptions) :
  counts_ok s -> titleParts s opts = spec_titleParts s opts.
Proof.
  intros (Ha & Hm & Hd & Hr & Hc & _).
  unfold titleParts, spec_titleParts, includeStaged, spec_staged_parts,
    spec_unstaged_parts. cbv zeta.
  rewrite !addPart_app. cbn [filter map fst snd].
  rewrite !nonzero_positive by lia.
  destruct (truthy (stagedOnly opts) || _); cbn [negb];
    destruct (truthy (stagedOnly opts)); cbn [negb];
    rewrite ?addPart_app;
    repeat match goal with
           | |- context [0 <? ?n] => destruct (0 <? n)
           end;
    reflexivity.
Qed.

(** C6.  For every summary with non-negative counters and every options:
    the title parts of [buildSimpleMessage] are, when [stagedOnly] is set
    or the staged counters add up to more than 0, the non-zero staged
    parts in the order added, modified, deleted, renamed+copied (one
    "renamed" part), followed, when [stagedOnly] is not set, by
    unstaged-modified, unstaged-deleted, untracked, conflicts, each only
    when its count is above 0; every part is ["<n> <label>"] with the
    plural suffix unless [n] is 1 (["1 file"], ["2 files"]); the title
    core, with which the message starts, is the parts joined with [", "],
    or ["no changes"] when there is none. *)
Theorem title_parts_in_order (s : StatusSummary) (opts : MessageOptions) :
  counts_ok s ->
  titleParts s opts = spec_titleParts s opts /\
  titleCore s opts = spec_titleCore s opts /\
  (exists rest, buildSimpleMessage s opts = spec_titleCore s opts ++ rest) /\
  (forall n label, plural n (u label) = spec_part (n, label)) /\
  plural 1 (u "file") = u "1 file" /\ plural 2 (u "file") = u "2 files".
Proof.
  intros H. pose proof (titleParts_spec s opts H) as E.
  assert (E' : titleCore s opts = spec_titleCore s opts)
    by (unfold titleCore, spec_titleCore; now rewrite E).
  repeat split; try assumption.
  unfold buildSimpleMessage, title. rewrite E'.
  destruct (bodyParts s opts); eexists; rewrite <- ?app_assoc; reflexivity.
Qed.

Lemma title_parts_in_order_witness :
  let s := set_staged (Staged.mk 2 1 0 1 1) empty_summary in
  counts_ok s /\
  titleParts s opts_staged = [u "2 addeds"; u "1 modified"; u "2 renameds"].
Proof.
  intros s.
  assert (H : counts_ok s) by (unfold counts_ok; simpl; lia).
  split; [exact H|].
  rewrite (proj1 (title_parts_in_order s opts_staged H)). reflexivity.
Defined.

(** ** C7: parsing is total and skips what it does not recognise *)

Lemma nth_error_last {X : Type} (l : list X) (d : X) :
  l <> [] -> nth_error l (List.length l - 1) = Some (last l d).
Proof.
  induction l as [|x l IH]; [congruence|]. intros _.
  destruct l as [|y l]; [reflexivity|].
  assert (H : nth_error (y :: l) (List.length (y :: l) - 1)
              = Some (last (y :: l) d)) by (apply IH; discriminate).
  cbn [List.length] in *. rewrite Nat.sub_succ, Nat.sub_0_r in *.
  exact H.
Qed.

Lemma changed_entry_exn_ok type line s :
  changed_entry_exn type line s = Some (changed_entry type line s).
Proof.
  unfold changed_entry_exn, changed_entry.
  destruct (len (split_ws line) <? 2); [reflexivity|].
  destruct (nth_error (split_ws line) 1) as [[|c xy]|]; try reflexivity.
  cbn [truthy_str negb deref bind ret].
  destruct (len (c :: xy) <? 2); [reflexivity|].
  now rewrite (nth_error_last (split_ws line) []) by apply fields_not_nil.
Qed.

Lemma processLine_exn_ok s line :
  processLine_exn s line = Some (processLine s line).
Proof.
  unfold processLine_exn, processLine.
  destruct (startsWith (u "# ") line).
  - destruct (startsWith (u "# branch.head ") line); [reflexivity|].
    destruct (startsWith (u "# branch.ab ") line); [|reflexivity].
    cbv zeta. now destruct (re_ab _) as [[m1 m2]|].
  - cbv zeta.
    destruct (is_chr (nth_error line 0) "?"); [reflexivity|].
    destruct (is_chr (nth_error line 0) "!"); [reflexivity|].
    destruct (is_chr (nth_error line 0) "u"); [reflexivity|].
    destruct (is_chr (nth_error line 0) "1" || is_chr (nth_error line 0) "2");
      [apply changed_entry_exn_ok|reflexivity].
Qed.

Lemma parseStatus_exn_ok (output : jsstring) :
  parseStatus_exn output = Some (parseStatus output).
Proof.
  unfold parseStatus_exn, parseStatus, ret.
  generalize empty_summary.
  induction (lines_of output) as [|l ls IH]; intros s; [reflexivity|].
  cbn [fold_left bind]. rewrite processLine_exn_ok. apply IH.
Qed.

Lemma processLine_skip (s : StatusSummary) (line : jsstring) :
  contributes line = false -> processLine s line = s.
Proof.
  unfold contributes, processLine. intros H.
  apply orb_false_iff in H as [H H3]. apply orb_false_iff in H as [H1 H2].
  rewrite H1, H2. destruct (startsWith (u "# ") line); [reflexivity|].
  cbn [negb] in H3. rewrite andb_true_l in H3.
  repeat (apply orb_false_iff in H3 as [H3 ?]).
  rewrite H3. destruct (is_chr (nth_error line 0) "!"); [reflexivity|].
  now replace (is_chr (nth_error line 0) "u") with false;
    replace (is_chr (nth_error line 0) "1") with false;
    replace (is_chr (nth_error line 0) "2") with false.
Qed.

Lemma kind_char_contributes (c : N) (rest : jsstring) :
  kind_char c = false -> contributes (c :: rest) = false.
Proof.
  unfold kind_char, contributes. cbn [existsb]. intros H.
  repeat (apply orb_false_iff in H as [? H]).
  cbn [startsWith u nth_error is_chr].
  change (N_of_ascii "#") with (chr "#").
  rewrite (N.eqb_sym (chr "#") c).
  now replace (N.eqb c (chr "#")) with false;
    replace (N.eqb c (chr "?")) with false;
    replace (N.eqb c (chr "u")) with false;
    replace (N.eqb c (chr "1")) with false;
    replace (N.eqb c (chr "2")) with false.
Qed.

Lemma fold_processLine_filter (ls : list jsstring) (s : StatusSummary) :
  fold_left processLine ls s =
  fold_left processLine (filter contributes ls) s.
Proof.
  revert s. induction ls as [|l ls IH]; intros s; simpl; [reflexivity|].
  destruct (contributes l) eqn:E; simpl; [apply IH|].
  now rewrite processLine_skip.
Qed.

(** C7.  [parseStatus] returns a summary for every input: it is a total
    function, and in the reading with failure made explicit no access
    ever fails, whatever the text is; the summary satisfies the invariant
    of the loop.  A line that is not one of the two branch headers and
    not of kind "?", "u", "1" or "2" leaves the summary as it is; so does,
    in particular, every line whose first character selects no record
    kind, and every line of kind "1" or "2" with fewer than two fields or
    a status code shorter than two characters.  The summary is the one
    obtained from the contributing lines alone. *)
Theorem parseStatus_total_and_skipping :
  (forall output,
      parseStatus_exn output = Some (parseStatus output) /\
      summary_inv (parseStatus output)) /\
  (forall s line, contributes line = false -> processLine s line = s) /\
  (forall s c rest, kind_char c = false -> processLine s (c :: rest) = s) /\
  (forall s line kind,
      nth_error line 0 = Some kind -> kind = chr "1" \/ kind = chr "2" ->
      len (split_ws line) < 2 \/
      (exists xy, nth_error (split_ws line) 1 = Some xy /\ len xy < 2) ->
      processLine s line = s) /\
  (forall output,
      parseStatus output =
      fold_left processLine (filter contributes (lines_of output))
                empty_summary).
Proof.
  split; [|split; [|split; [|split]]].
  - intros output. split; [apply parseStatus_exn_ok|apply parseStatus_inv].
  - exact processLine_skip.
  - intros s c rest H. now apply processLine_skip, kind_char_contributes.
  - intros s line kind E K H.
    rewrite (processLine_changed s line kind E K). unfold changed_entry.
    destruct H as [H|(xy & Hxy & H)].
    + apply Z.ltb_lt in H. now rewrite H.
    + destruct (len (split_ws line) <? 2); [reflexivity|].
      rewrite Hxy. apply Z.ltb_lt in H. now rewrite H.
  - intros output. apply fold_processLine_filter.
Qed.

Lemma parseStatus_total_and_skipping_witness :
  processLine empty_summary (u "warning: not a status line") = empty_summary /\
  processLine empty_summary (u "! ignored.log") = empty_summary /\
  processLine empty_summary (u "1 M") = empty_summary.
Proof.
  split; [|split].
  - apply (proj1 (proj2 (proj2 parseStatus_total_and_skipping))).
    reflexivity.
  - apply (proj1 (proj2 parseStatus_total_and_skipping)). reflexivity.
  - apply (proj1 (proj2 (proj2 (proj2 parseStatus_total_and_skipping)))
             empty_summary (u "1 M") (chr "1")).
    + reflexivity.
    + left. reflexivity.
    + right. exists (u "M"). split; reflexivity.
Defined.

(** ** C8 (as amended): current and original path of a changed entry *)

Ltac cases_on_code x :=
  repeat match goal with
         | |- context [N.eqb x ?c] =>
             let E := fresh "E" in
             destruct (N.eqb x c) eqn:E;
             [apply N.eqb_eq in E; subst x|]
         end.

Lemma record_samples (x y : N) (p : jsstring) (o : option jsstring)
      (s : StatusSummary) :
  let sm := samples s in
  samples (record_unstaged (Some y) p (record_staged (Some x) p o s)) =
  Samples.mk
    (if N.eqb x (chr "A") then spec_append (Samples.added sm) p
     else Samples.added sm)
    (let m := if N.eqb x (chr "M") then spec_append (Samples.modified sm) p
              else Samples.modified sm in
     if N.eqb y (chr "M") then spec_append m p else m)
    (let d := if N.eqb x (chr "D") then spec_append (Samples.deleted sm) p
              else Samples.deleted sm in
     if N.eqb y (chr "D") then spec_append d p else d)
    (if N.eqb x (chr "R") || N.eqb x (chr "C")
     then spec_append (Samples.renamed sm) (rename_sample o p)
     else Samples.renamed sm)
    (Samples.untracked sm).
Proof.
  cbn zeta. unfold record_unstaged, record_staged, is_chr.
  destruct s as [b a bh st us ut cf [sa smo sd sr su]].
  cases_on_code x; cases_on_code y; reflexivity.
Qed.

(** C8, amended.  The white-space separated fields of a line are the
    pieces that [split(/\s+/)] returns; for tokens joined by single spaces
    they are the tokens, and the last field always exists.  For a line of
    kind "1" or "2" whose second field, the status code XY, has at least
    two characters, the current path is the last field: it is the path
    appended (while the list holds fewer than ten entries) to
    [samples.added], [samples.modified] or [samples.deleted] when X is A,
    M or D, and to [samples.modified] or [samples.deleted] when Y is M or
    D.  For a kind "2" line with at least three fields in all, the kind
    and the status code counted, the original path is the second-to-last
    field, which is not empty, and the entry appended to [samples.renamed]
    when X is R or C is ["orig -> new"]; for a kind "1" line, and for a
    kind "2" line of two fields, no original path is recorded and that
    entry is the current path alone.  Nothing else is put into the sample
    lists. *)
Theorem changed_entry_paths :
  (forall fs,
      fs <> [] -> Forall token fs -> split_ws (join (u " ") fs) = fs) /\
  (forall line, In (last (split_ws line) []) (split_ws line)) /\
  (forall (s : StatusSummary) (line : jsstring) (kind x y : N)
          (rest : jsstring),
      nth_error line 0 = Some kind ->
      kind = chr "1" \/ kind = chr "2" ->
      nth_error (split_ws line) 1 = Some (x :: y :: rest) ->
      let parts := split_ws line in
      let cur := last parts [] in
      let orig := nth (List.length parts - 2) parts [] in
      let entry :=
        if N.eqb kind (chr "2") && (3 <=? len parts)
        then orig ++ u " -> " ++ cur
        else cur in
      let sm := samples s in
      let sm' := samples (processLine s line) in
      (3 <= len parts -> orig <> []) /\
      Samples.added sm' =
        (if N.eqb x (chr "A") then spec_append (Samples.added sm) cur
         else Samples.added sm) /\
      Samples.modified sm' =
        (let m := if N.eqb x (chr "M")
                  then spec_append (Samples.modified sm) cur
                  else Samples.modified sm in
         if N.eqb y (chr "M") then spec_append m cur else m) /\
      Samples.deleted sm' =
        (let d := if N.eqb x (chr "D")
                  then spec_append (Samples.deleted sm) cur
                  else Samples.deleted sm in
         if N.eqb y (chr "D") then spec_append d cur else d) /\
      Samples.renamed sm' =
        (if N.eqb x (chr "R") || N.eqb x (chr "C")
         then spec_append (Samples.renamed sm) entry
         else Samples.renamed sm) /\
      Samples.untracked sm' = Samples.untracked sm).
Proof.
  split; [exact split_ws_join|].
  split; [intros line; apply last_In, fields_not_nil|].
  intros s line kind x y rest E K Hxy parts cur orig entry sm sm'.
  assert (H2 : 2 <= len parts).
  { assert (1 < List.length parts)%nat
      by (apply nth_error_Some; unfold parts; congruence).
    unfold len. lia. }
  assert (Ho : 3 <= len parts ->
               orig <> [] /\
               nth_error parts (List.length parts - 2) = Some orig).
  { intros H3. destruct (split_ws_second_to_last line H3) as (o & No & Eo).
    fold parts in Eo. unfold orig.
    now rewrite (nth_error_nth _ _ _ Eo). }
  assert (Eq : sm' =
               samples (record_unstaged (Some y) cur
                          (record_staged (Some x) cur
                             (if N.eqb kind (chr "2") && (3 <=? len parts)
                              then nth_error parts (List.length parts - 2)
                              else None) s))).
  { unfold sm'. rewrite (processLine_changed s line kind E K).
    rewrite (changed_entry_eq kind line (x :: y :: rest) s H2 Hxy);
      [reflexivity|].
    unfold len. cbn [List.length]. lia. }
  assert (Ee : rename_sample
                 (if N.eqb kind (chr "2") && (3 <=? len parts)
                  then nth_error parts (List.length parts - 2)
                  else None) cur = entry).
  { unfold entry.
    destruct (N.eqb kind (chr "2") && (3 <=? len parts)) eqn:C;
      [|reflexivity].
    apply andb_true_iff in C as [_ C]. apply Z.leb_le in C.
    destruct (Ho C) as [No Eo]. rewrite Eo.
    destruct orig; [congruence|reflexivity]. }
  rewrite Eq, record_samples, Ee.
  split; [intros H3; apply (Ho H3)|].
  now repeat split.
Qed.

Lemma changed_entry_paths_witness :
  let line := u "2 RM N... 100644 100644 100644 h1 h2 R100 old.txt new.txt" in
  let sm' := samples (processLine empty_summary line) in
  nth_error line 0 = Some (chr "2") /\
  nth_error (split_ws line) 1 = Some (u "RM") /\
  Samples.added sm' = [] /\
  Samples.modified sm' = [u "new.txt"] /\
  Samples.deleted sm' = [] /\
  Samples.renamed sm' = [u "old.txt -> new.txt"] /\
  Samples.untracked sm' = [].
Proof.
  intros line sm'.
  assert (E : nth_error line 0 = Some (chr "2")) by reflexivity.
  assert (Hxy : nth_error (split_ws line) 1 = Some (u "RM")) by reflexivity.
  split; [exact E|]. split; [exact Hxy|].
  destruct (proj2 (proj2 changed_entry_paths)
                  empty_summary line (chr "2") (chr "R") (chr "M") []
                  E (or_intror eq_refl) Hxy)
    as (_ & Ha & Hm & Hd & Hr & Hu).
  split; [exact Ha|]. split; [exact Hm|]. split; [exact Hd|].
  split; [exact Hr|exact Hu].
Defined.

(** C8 as stated fails: on the kind "2" line ["2 R. x"] one field follows
    the kind and the status code, fewer than three however the trailing
    fields are counted short of counting them all; yet the status code is
    taken as the original path and the sample is ["R. -> x"], not the
    current path alone. *)
Lemma changed_entry_short_rename :
  let line := u "2 R. x" in
  split_ws line = [u "2"; u "R."; u "x"] /\
  Samples.renamed (samples (parseStatus line)) = [u "R. -> x"] /\
  Samples.renamed (samples (parseStatus line)) <> [u "x"].
Proof. repeat split. discriminate. Qed.

(** ** C9: what the two functions do to the store *)

Lemma nth_error_upd_eq (l : loc) (c : cell) (h : store) :
  (l < List.length h)%nat -> nth_error (upd l c h) l = Some c.
Proof.
  revert l; induction h as [|x h IH]; intros [|l] L; simpl in *; try lia.
  - reflexivity.
  - apply IH; lia.
Qed.

Lemma nth_error_upd_neq (l l' : loc) (c : cell) (h : store) :
  l <> l' -> nth_error (upd l c h) l' = nth_error h l'.
Proof.
  revert l l'; induction h as [|x h IH]; intros l l' N.
  - destruct l; reflexivity.
  - destruct l as [|l], l' as [|l']; simpl; try reflexivity.
    + congruence.
    + apply IH; congruence.
Qed.

Lemma length_upd (l : loc) (c : cell) (h : store) :
  List.length (upd l c h) = List.length h.
Proof.
  revert l; induction h as [|x h IH]; intros [|l]; simpl; auto.
Qed.

Lemma nth_error_bound {X : Type} (h : list X) (l : nat) (c : X) :
  nth_error h l = Some c -> (l < List.length h)%nat.
Proof. intros E; apply nth_error_Some; congruence. Qed.

Lemma put_ok (l : loc) (c c0 : cell) (h : store) :
  nth_error h l = Some c0 -> put l c h = Some (tt, upd l c h).
Proof.
  intros E; unfold put.
  apply nth_error_bound in E. apply Nat.ltb_lt in E. rewrite E. reflexivity.
Qed.

Lemma NoDup5 {X : Type} (a b c d e : X) :
  NoDup [a; b; c; d; e] ->
  a <> b /\ a <> c /\ a <> d /\ a <> e /\ b <> c /\ b <> d /\ b <> e /\
  c <> d /\ c <> e /\ d <> e.
Proof.
  intros H.
  repeat match goal with
         | H : NoDup (_ :: _) |- _ => inversion H; clear H; subst
         end.
  simpl in *. repeat split; intros E; subst; tauto.
Qed.

Lemma same_except_refl (ls : list loc) (h : store) : same_except ls h h.
Proof. split; auto. Qed.

Lemma same_except_trans (ls : list loc) (h1 h2 h3 : store) :
  same_except ls h1 h2 -> same_except ls h2 h3 -> same_except ls h1 h3.
Proof.
  intros [L1 F1] [L2 F2]; split; [congruence|].
  intros l N; rewrite F2, F1; auto.
Qed.

Lemma same_except_upd (ls : list loc) (l : loc) (c : cell) (h : store) :
  In l ls -> same_except ls h (upd l c h).
Proof.
  intros I; split; [apply length_upd|].
  intros l' N; apply nth_error_upd_neq; intros E; subst; tauto.
Qed.

Lemma acts_as_ret (r : loc) : acts_as r (retS tt) (fun s => s).
Proof.
  intros h sh s H; exists h; split; [reflexivity|split; [exact H|]].
  apply same_except_refl.
Qed.

Lemma acts_as_bind (r : loc) (m1 m2 : St unit)
      (g1 g2 : StatusSummary -> StatusSummary) :
  acts_as r m1 g1 -> acts_as r m2 g2 ->
  acts_as r (bindS m1 (fun _ => m2)) (fun s => g2 (g1 s)).
Proof.
  intros A1 A2 h sh s H.
  destruct (A1 h sh s H) as (h1 & E1 & H1 & F1).
  destruct (A2 h1 sh (g1 s) H1) as (h2 & E2 & H2 & F2).
  exists h2; split; [|split; [exact H2|]].
  - unfold bindS; rewrite E1; exact E2.
  - eapply same_except_trans; eassumption.
Qed.

Lemma acts_as_ext (r : loc) (m : St unit)
      (g g' : StatusSummary -> StatusSummary) :
  acts_as r m g -> (forall s, g s = g' s) -> acts_as r m g'.
Proof.
  intros A E h sh s H.
  destruct (A h sh s H) as (h1 & E1 & H1 & F1).
  exists h1; rewrite <- E; auto.
Qed.

Lemma read_summary_holds (h : store) (r : loc) (sh : shape)
      (s : StatusSummary) :
  holds h r sh s ->
  read_summary r h =
    Some (mkSummaryCell (branch s) (ahead s) (behind s)
            (sh_staged sh) (sh_unstaged sh)
            (untracked s) (conflicts s) (sh_samples sh), h).
Proof.
  intros (H & _). unfold read_summary, bindS, get. rewrite H. reflexivity.
Qed.

Lemma read_staged_holds (h : store) (r : loc) (sh : shape)
      (s : StatusSummary) :
  holds h r sh s -> read_staged r h = Some ((sh_staged sh, staged s), h).
Proof.
  intros H. unfold read_staged, bindS.
  rewrite (read_summary_holds _ _ _ _ H).
  destruct H as (_ & H & _). unfold get; simpl. rewrite H. reflexivity.
Qed.

Lemma read_unstaged_holds (h : store) (r : loc) (sh : shape)
      (s : StatusSummary) :
  holds h r sh s ->
  read_unstaged r h = Some ((sh_unstaged sh, unstaged s), h).
Proof.
  intros H. unfold read_unstaged, bindS.
  rewrite (read_summary_holds _ _ _ _ H).
  destruct H as (_ & _ & H & _). unfold get; simpl. rewrite H. reflexivity.
Qed.

Lemma read_samples_holds (h : store) (r : loc) (sh : shape)
      (s : StatusSummary) :
  holds h r sh s -> read_samples r h = Some (sh_buckets sh, h).
Proof.
  intros H. unfold read_samples, bindS.
  rewrite (read_summary_holds _ _ _ _ H).
  destruct H as (_ & _ & _ & H & _). unfold get; simpl. rewrite H.
  reflexivity.
Qed.

Lemma holds_bucket (h : store) (r : loc) (sh : shape) (s : StatusSummary)
      (b : bucket) :
  holds h r sh s ->
  nth_error h (bucket_loc b (sh_buckets sh))
    = Some (CArray (bucket_get b (samples s))).
Proof.
  intros (_ & _ & _ & _ & A & M & D & R & U & _). destruct b; assumption.
Qed.

Lemma read_bucket_holds (h : store) (r : loc) (sh : shape)
      (s : StatusSummary) (b : bucket) :
  holds h r sh s ->
  read_bucket r b h =
    Some ((bucket_loc b (sh_buckets sh), bucket_get b (samples s)), h).
Proof.
  intros H. unfold read_bucket, bindS.
  rewrite (read_samples_holds _ _ _ _ H).
  unfold get. rewrite (holds_bucket _ _ _ _ b H). reflexivity.
Qed.

(** Two places that hold objects of different kinds are different, and so
    an assignment to one leaves the other as it was. *)
Ltac other_place :=
  match goal with
  | H : nth_error ?h ?l' = Some _ |- nth_error (upd ?l _ ?h) ?l' = Some _ =>
      rewrite nth_error_upd_neq;
      [exact H | let E := fresh in intro E; rewrite E in *; congruence]
  end.

Lemma acts_assign_summary (r : loc) (f : summary_cell -> summary_cell)
      (g : StatusSummary -> StatusSummary) :
  (forall sh s,
      f (mkSummaryCell (branch s) (ahead s) (behind s)
           (sh_staged sh) (sh_unstaged sh)
           (untracked s) (conflicts s) (sh_samples sh)) =
      mkSummaryCell (branch (g s)) (ahead (g s)) (behind (g s))
           (sh_staged sh) (sh_unstaged sh)
           (untracked (g s)) (conflicts (g s)) (sh_samples sh)) ->
  (forall s, staged (g s) = staged s /\ unstaged (g s) = unstaged s /\
             samples (g s) = samples s) ->
  acts_as r (assign_summary r f) g.
Proof.
  intros Ef Eg h sh s H.
  exists (upd r (CSummary (f (mkSummaryCell (branch s) (ahead s) (behind s)
           (sh_staged sh) (sh_unstaged sh)
           (untracked s) (conflicts s) (sh_samples sh)))) h).
  split; [|split].
  - unfold assign_summary, bindS. rewrite (read_summary_holds _ _ _ _ H).
    destruct H as (H & _). eapply put_ok; exact H.
  - destruct (Eg s) as (E1 & E2 & E3).
    destruct H as (H0 & H1 & H2 & H3 & H4 & H5 & H6 & H7 & H8 & ND).
    unfold holds. rewrite E1, E2, E3.
    split; [|repeat split; try other_place; exact ND].
    rewrite nth_error_upd_eq by (eapply nth_error_bound; exact H0).
    rewrite Ef. reflexivity.
  - apply same_except_upd; left; reflexivity.
Qed.

Lemma acts_assign_staged (r : loc) (f : Staged.t -> Staged.t) :
  acts_as r (assign_staged r f) (fun s => set_staged (f (staged s)) s).
Proof.
  intros h sh s H.
  exists (upd (sh_staged sh) (CStaged (f (staged s))) h).
  split; [|split].
  - unfold assign_staged, bindS. rewrite (read_staged_holds _ _ _ _ H).
    destruct H as (_ & H & _). eapply put_ok; exact H.
  - destruct H as (H0 & H1 & H2 & H3 & H4 & H5 & H6 & H7 & H8 & ND).
    unfold holds; simpl.
    split; [other_place|]. split; [|repeat split; try other_place; exact ND].
    apply nth_error_upd_eq. eapply nth_error_bound; exact H1.
  - apply same_except_upd; right; left; reflexivity.
Qed.

Lemma acts_assign_unstaged (r : loc) (f : Unstaged.t -> Unstaged.t) :
  acts_as r (assign_unstaged r f) (fun s => set_unstaged (f (unstaged s)) s).
Proof.
  intros h sh s H.
  exists (upd (sh_unstaged sh) (CUnstaged (f (unstaged s))) h).
  split; [|split].
  - unfold assign_unstaged, bindS. rewrite (read_unstaged_holds _ _ _ _ H).
    destruct H as (_ & _ & H & _). eapply put_ok; exact H.
  - destruct H as (H0 & H1 & H2 & H3 & H4 & H5 & H6 & H7 & H8 & ND).
    unfold holds; simpl.
    split; [other_place|]. split; [other_place|].
    split; [|repeat split; try other_place; exact ND].
    apply nth_error_upd_eq. eapply nth_error_bound; exact H2.
  - apply same_except_upd; right; right; left; reflexivity.
Qed.

Lemma bucket_loc_places (r : loc) (sh : shape) (b : bucket) :
  In (bucket_loc b (sh_buckets sh)) (places r sh).
Proof. destruct b; simpl; tauto. Qed.

Lemma acts_push_sample (r : loc) (b : bucket) (p : jsstring) :
  acts_as r (push_sample_st r b p)
    (fun s => set_samples
                (bucket_set b (push_sample (bucket_get b (samples s)) p)
                            (samples s)) s).
Proof.
  intros h sh s H.
  unfold push_sample_st, bindS. rewrite (read_bucket_holds _ _ _ _ b H).
  unfold push_sample. cbn [fst snd].
  destruct (len (bucket_get b (samples s)) <? MAX_FILE_SAMPLES) eqn:C.
  - eexists; split; [eapply put_ok; apply (holds_bucket _ _ _ _ b H)|].
    split; [|apply same_except_upd; apply bucket_loc_places].
    destruct H as (H0 & H1 & H2 & H3 & H4 & H5 & H6 & H7 & H8 & ND).
    pose proof (NoDup5 _ _ _ _ _ ND) as
        (N1 & N2 & N3 & N4 & N5 & N6 & N7 & N8 & N9 & N10).
    unfold holds.
    split; [destruct b; simpl; other_place|].
    split; [destruct b; simpl; other_place|].
    split; [destruct b; simpl; other_place|].
    split; [destruct b; simpl; other_place|].
    destruct (samples s) as [sa sm sd sr su] eqn:Es. simpl in *.
    destruct b; simpl;
      repeat split;
      first [ exact ND
            | apply nth_error_upd_eq; eapply nth_error_bound; eassumption
            | rewrite nth_error_upd_neq by congruence; assumption ].
  - exists h; split; [reflexivity|]. split; [|apply same_except_refl].
    replace (set_samples _ s) with s; [exact H|].
    destruct s as [b0 a0 bh st us ut cf [sa sm sd sr su]];
      destruct b; reflexivity.
Qed.

(** A counter and then a sample: the two steps of every branch of the
    cascades. *)
Ltac step_then_push :=
  eapply acts_as_ext;
  [ eapply acts_as_bind;
    [ first [ apply acts_assign_staged | apply acts_assign_unstaged ]
    | apply acts_push_sample ]
  | intros [b0 a0 bh st us ut cf [sa sm sd sr su]]; reflexivity ].

Lemma acts_record_staged (r : loc) (X : option N) (filePath : jsstring)
      (origPath : option jsstring) :
  acts_as r (record_staged_st r X filePath origPath)
            (record_staged X filePath origPath).
Proof.
  unfold record_staged_st, record_staged.
  destruct (is_chr X "A"); [step_then_push|].
  destruct (is_chr X "M"); [step_then_push|].
  destruct (is_chr X "D"); [step_then_push|].
  destruct (is_chr X "R"); [step_then_push|].
  destruct (is_chr X "C"); [step_then_push|].
  apply acts_as_ret.
Qed.

Lemma acts_record_unstaged (r : loc) (Y : option N) (filePath : jsstring) :
  acts_as r (record_unstaged_st r Y filePath) (record_unstaged Y filePath).
Proof.
  unfold record_unstaged_st, record_unstaged.
  destruct (is_chr Y "M"); [step_then_push|].
  destruct (is_chr Y "D"); [step_then_push|].
  apply acts_as_ret.
Qed.

Lemma acts_changed_entry (r : loc) (type : option N) (line : jsstring) :
  acts_as r (changed_entry_st r type line) (changed_entry type line).
Proof.
  unfold changed_entry_st, changed_entry.
  destruct (len (split_ws line) <? 2); [apply acts_as_ret|].
  destruct (nth_error (split_ws line) 1) as [xy|]; [|apply acts_as_ret].
  destruct (len xy <? 2); [apply acts_as_ret|].
  cbv zeta.
  apply (acts_as_bind r _ _ _ _ (acts_record_staged r _ _ _)
                      (acts_record_unstaged r _ _)).
Qed.

Lemma acts_processLine (r : loc) (line : jsstring) :
  acts_as r (processLine_st r line) (fun s => processLine s line).
Proof.
  unfold processLine_st, processLine.
  destruct (startsWith (u "# ") line).
  - destruct (startsWith (u "# branch.head ") line).
    { apply acts_assign_summary; intros; repeat split. }
    destruct (startsWith (u "# branch.ab ") line); [|apply acts_as_ret].
    cbv zeta.
    destruct (re_ab _) as [[m1 m2]|]; [|apply acts_as_ret].
    eapply acts_as_ext.
    + eapply acts_as_bind.
      * apply acts_assign_summary
          with (g := fun s => set_ahead_behind (or0 (parseInt m1))
                                               (behind s) s);
          intros; repeat split.
      * apply acts_assign_summary
          with (g := fun s => set_ahead_behind (ahead s)
                                               (or0 (parseInt m2)) s);
          intros; repeat split.
    + intros [b0 a0 bh st us ut cf sm]; reflexivity.
  - cbv zeta.
    destruct (is_chr (nth_error line 0) "?").
    { eapply acts_as_ext.
      - eapply acts_as_bind.
        + apply acts_assign_summary
            with (g := fun s => set_untracked (untracked s + 1) s);
            intros; repeat split.
        + apply acts_push_sample.
      - intros [b0 a0 bh st us ut cf [sa sm sd sr su]]; reflexivity. }
    destruct (is_chr (nth_error line 0) "!"); [apply acts_as_ret|].
    destruct (is_chr (nth_error line 0) "u").
    { apply acts_assign_summary
        with (g := fun s => set_conflicts (conflicts s + 1) s);
        intros; repeat split. }
    destruct (is_chr (nth_error line 0) "1" || is_chr (nth_error line 0) "2");
      [apply acts_changed_entry|apply acts_as_ret].
Qed.

Lemma acts_for_lines (r : loc) (lines : list jsstring) :
  acts_as r (for_lines r lines) (fun s => fold_left processLine lines s).
Proof.
  induction lines as [|line rest IH]; simpl.
  - apply acts_as_ret.
  - apply (acts_as_bind r _ _ _ _ (acts_processLine r line) IH).
Qed.

Lemma nth_error_app_off {X : Type} (h l : list X) (k : nat) :
  nth_error (h ++ l) (List.length h + k) = nth_error l k.
Proof.
  rewrite nth_error_app2 by lia. f_equal; lia.
Qed.

(** The nine objects of the literal, after an arbitrary store. *)
Lemma holds_fresh (h : store) :
  let n := List.length h in
  holds
    (h ++ [CStaged (Staged.mk 0 0 0 0 0); CUnstaged (Unstaged.mk 0 0);
           CArray []; CArray []; CArray []; CArray []; CArray [];
           CSamples (mkSamplesCell (n + 2)%nat (n + 3)%nat (n + 4)%nat (n + 5)%nat (n + 6)%nat);
           CSummary (mkSummaryCell None 0 0 (n + 0)%nat (n + 1)%nat 0 0 (n + 7)%nat)])
    (n + 8)%nat
    (mkShape (n + 0)%nat (n + 1)%nat (n + 7)%nat
             (mkSamplesCell (n + 2)%nat (n + 3)%nat (n + 4)%nat (n + 5)%nat (n + 6)%nat))
    empty_summary.
Proof.
  intros n. unfold holds. cbn [sh_staged sh_unstaged sh_samples sh_buckets
    sa_added sa_modified sa_deleted sa_renamed sa_untracked].
  unfold n. rewrite !nth_error_app_off.
  repeat split.
  repeat constructor; simpl; lia.
Qed.

Lemma holds_places_bound (h : store) (r : loc) (sh : shape)
      (s : StatusSummary) :
  holds h r sh s -> Forall (fun l => (l < List.length h)%nat) (places r sh).
Proof.
  intros (H0 & H1 & H2 & H3 & H4 & H5 & H6 & H7 & H8 & _).
  repeat constructor; eapply nth_error_bound; eassumption.
Qed.

(** What a store holds stays when objects are added after it. *)
Lemma holds_frame (h h' : store) (r : loc) (sh : shape) (s : StatusSummary) :
  holds h r sh s ->
  (forall l, (l < List.length h)%nat -> nth_error h' l = nth_error h l) ->
  holds h' r sh s.
Proof.
  intros H F.
  pose proof (holds_places_bound _ _ _ _ H) as B.
  destruct H as (H0 & H1 & H2 & H3 & H4 & H5 & H6 & H7 & H8 & ND).
  unfold places in B.
  repeat match goal with
         | B : Forall _ (_ :: _) |- _ => inversion B; clear B; subst
         end.
  unfold holds. rewrite !F by assumption. tauto.
Qed.

(** What a store holds at a place is one summary. *)
Lemma holds_functional (h : store) (r : loc) (sh sh' : shape)
      (s s' : StatusSummary) :
  holds h r sh s -> holds h r sh' s' -> s = s'.
Proof.
  intros (H0 & H1 & H2 & H3 & H4 & H5 & H6 & H7 & H8 & _)
         (K0 & K1 & K2 & K3 & K4 & K5 & K6 & K7 & K8 & _).
  rewrite H0 in K0. injection K0 as Eb Ea Ebh Est Eus Eut Ecf Esm.
  rewrite <- Est, H1 in K1. rewrite <- Eus, H2 in K2.
  rewrite <- Esm, H3 in K3. injection K3 as Ebk. rewrite <- Ebk in *.
  rewrite H4 in K4. rewrite H5 in K5. rewrite H6 in K6.
  rewrite H7 in K7. rewrite H8 in K8.
  destruct s as [b a bh st us ut cf [sa sm sd sr su]],
           s' as [b' a' bh' st' us' ut' cf' [sa' sm' sd' sr' su']].
  simpl in *. congruence.
Qed.

(** [parseStatus] over the store: on every store it returns; the result is
    a new object that holds [parseStatus output], and the objects that were
    there stay as they were. *)
Lemma parseStatus_st_spec (output : jsstring) (h : store) :
  exists r h' sh,
    parseStatus_st output h = Some (r, h') /\
    holds h' r sh (parseStatus output) /\
    (List.length h <= r)%nat /\
    agree h h'.
Proof.
  pose proof (holds_fresh h) as H0. cbv zeta in H0.
  rewrite !Nat.add_0_r in H0.
  destruct (acts_for_lines _ (lines_of output) _ _ _ H0) as (h' & E & H & F).
  eexists _, h', _. split; [|split; [exact H|split; [lia|]]].
  - unfold parseStatus_st, bindS, alloc. cbv zeta.
    rewrite !length_app. cbn [List.length].
    rewrite <- !app_assoc. cbn [app].
    replace (List.length h + 1 + 1 + 1 + 1 + 1 + 1 + 1 + 1)%nat
      with (List.length h + 8)%nat by lia.
    replace (List.length h + 1 + 1 + 1 + 1 + 1 + 1 + 1)%nat
      with (List.length h + 7)%nat by lia.
    replace (List.length h + 1 + 1 + 1 + 1 + 1 + 1)%nat
      with (List.length h + 6)%nat by lia.
    replace (List.length h + 1 + 1 + 1 + 1 + 1)%nat
      with (List.length h + 5)%nat by lia.
    replace (List.length h + 1 + 1 + 1 + 1)%nat
      with (List.length h + 4)%nat by lia.
    replace (List.length h + 1 + 1 + 1)%nat
      with (List.length h + 3)%nat by lia.
    replace (List.length h + 1 + 1)%nat
      with (List.length h + 2)%nat by lia.
    rewrite E. reflexivity.
  - intros l L. destruct F as [_ F]. rewrite F.
    + apply nth_error_app1; exact L.
    + simpl. lia.
Qed.

Lemma agree_refl (h : store) : agree h h.
Proof. intros l _; reflexivity. Qed.

Lemma agree_app (h0 h x : store) : agree h0 h -> agree h0 (h ++ x).
Proof.
  intros A l L. rewrite <- (A l L).
  apply nth_error_app1. apply nth_error_Some. rewrite (A l L).
  apply nth_error_Some. exact L.
Qed.

Lemma agree_upd (h0 h : store) (p : loc) (c : cell) :
  agree h0 h -> (List.length h0 <= p)%nat -> agree h0 (upd p c h).
Proof.
  intros A P l L. rewrite nth_error_upd_neq by lia. apply A; exact L.
Qed.

Lemma agree_holds (h0 h : store) (r : loc) (sh : shape)
      (s : StatusSummary) :
  holds h0 r sh s -> agree h0 h -> holds h r sh s.
Proof. intros H A. apply (holds_frame h0 h r sh s H A). Qed.

Lemma arr_at_app (h x : store) (a : loc) (items : list jsstring) :
  arr_at h a items -> arr_at (h ++ x) a items.
Proof.
  unfold arr_at. intros E. rewrite nth_error_app1; [exact E|].
  eapply nth_error_bound; exact E.
Qed.

Lemma arr_at_upd (h : store) (a : loc) (items items' : list jsstring) :
  arr_at h a items -> arr_at (upd a (CArray items') h) a items'.
Proof.
  unfold arr_at. intros E. apply nth_error_upd_eq.
  eapply nth_error_bound; exact E.
Qed.

Lemma arr_at_upd_other (h : store) (a p : loc) (c : cell)
      (items : list jsstring) :
  arr_at h a items -> a <> p -> arr_at (upd p c h) a items.
Proof.
  unfold arr_at. intros E N. rewrite nth_error_upd_neq by congruence.
  exact E.
Qed.

Lemma upd_same (h : store) (l : loc) (c : cell) :
  nth_error h l = Some c -> upd l c h = h.
Proof.
  revert l; induction h as [|x h IH]; intros [|l] E; simpl in *;
    try discriminate.
  - congruence.
  - f_equal. apply IH; exact E.
Qed.

Lemma read_arr_ok (h : store) (a : loc) (items : list jsstring) :
  arr_at h a items -> read_arr a h = Some (items, h).
Proof. unfold arr_at, read_arr, bindS, get. intros ->. reflexivity. Qed.

Lemma push_arr_ok (h : store) (a : loc) (x : jsstring)
      (xs : list jsstring) :
  arr_at h a xs ->
  push_arr a x h = Some (tt, upd a (CArray (xs ++ [x])) h).
Proof.
  intros E. unfold push_arr, bindS. rewrite (read_arr_ok _ _ _ E).
  eapply put_ok; exact E.
Qed.

Lemma addPart_st_local (h0 h : store) (p : loc) (ps : list jsstring)
      (n : Z) (label : string) :
  local_arr h0 h p ps ->
  exists h', addPart_st p n label h = Some (tt, h') /\
             local_arr h0 h' p (addPart n label ps).
Proof.
  intros (A & P & E). unfold addPart_st, addPart.
  destruct (0 <? n).
  - eexists; split; [apply (push_arr_ok h p _ ps E)|].
    split; [apply agree_upd; assumption|].
    split; [exact P|eapply arr_at_upd; exact E].
  - exists h; split; [reflexivity|]. repeat split; assumption.
Qed.

Section BuildOverStore.

Variables (h0 : store) (r : loc) (sh : shape) (s : StatusSummary).
Hypothesis H0 : holds h0 r sh s.

Lemma read_summary_agree (h : store) :
  agree h0 h ->
  read_summary r h =
    Some (mkSummaryCell (branch s) (ahead s) (behind s)
            (sh_staged sh) (sh_unstaged sh)
            (untracked s) (conflicts s) (sh_samples sh), h).
Proof.
  intros A. apply (read_summary_holds h r sh s), (agree_holds h0); assumption.
Qed.

Lemma read_staged_agree (h : store) :
  agree h0 h -> read_staged r h = Some ((sh_staged sh, staged s), h).
Proof.
  intros A. apply (read_staged_holds h r sh s), (agree_holds h0); assumption.
Qed.

Lemma read_unstaged_agree (h : store) :
  agree h0 h -> read_unstaged r h = Some ((sh_unstaged sh, unstaged s), h).
Proof.
  intros A. apply (read_unstaged_holds h r sh s), (agree_holds h0); assumption.
Qed.

Lemma read_samples_agree (h : store) :
  agree h0 h -> read_samples r h = Some (sh_buckets sh, h).
Proof.
  intros A. apply (read_samples_holds h r sh s), (agree_holds h0); assumption.
Qed.

Lemma bucket_agree (h : store) (b : bucket) :
  agree h0 h ->
  arr_at h (bucket_loc b (sh_buckets sh)) (bucket_get b (samples s)).
Proof.
  intros A. apply (holds_bucket h r sh s b), (agree_holds h0); assumption.
Qed.

Lemma includeStaged_st_agree (opts : MessageOptions) (h : store) :
  agree h0 h ->
  includeStaged_st r opts h = Some (includeStaged s opts, h).
Proof.
  intros A. unfold includeStaged_st, includeStaged.
  destruct (truthy (stagedOnly opts)); [reflexivity|].
  unfold bindS. rewrite (read_staged_agree h A). reflexivity.
Qed.

Lemma staged_parts_local (h : store) (p : loc) (ps : list jsstring) :
  local_arr h0 h p ps ->
  exists h',
    (st <- read_staged r ;;
     addPart_st p (Staged.added (snd st)) "added" ;;;
     st <- read_staged r ;;
     addPart_st p (Staged.modified (snd st)) "modified" ;;;
     st <- read_staged r ;;
     addPart_st p (Staged.deleted (snd st)) "deleted" ;;;
     st <- read_staged r ;;
     addPart_st p (Staged.renamed (snd st) + Staged.copied (snd st))
                "renamed")%st h = Some (tt, h') /\
    local_arr h0 h' p
      (addPart (Staged.renamed (staged s) + Staged.copied (staged s))
               "renamed"
         (addPart (Staged.deleted (staged s)) "deleted"
            (addPart (Staged.modified (staged s)) "modified"
               (addPart (Staged.added (staged s)) "added" ps)))).
Proof.
  intros A1.
  destruct (addPart_st_local _ _ _ _ (Staged.added (staged s)) "added" A1)
    as (h1 & E1 & A2).
  destruct (addPart_st_local _ _ _ _ (Staged.modified (staged s))
                             "modified" A2) as (h2 & E2 & A3).
  destruct (addPart_st_local _ _ _ _ (Staged.deleted (staged s))
                             "deleted" A3) as (h3 & E3 & A4).
  destruct (addPart_st_local _ _ _ _
              (Staged.renamed (staged s) + Staged.copied (staged s))
              "renamed" A4) as (h4 & E4 & A5).
  exists h4. split; [|exact A5].
  unfold bindS.
  rewrite (read_staged_agree h (proj1 A1)). cbn [snd]. rewrite E1.
  rewrite (read_staged_agree h1 (proj1 A2)). cbn [snd]. rewrite E2.
  rewrite (read_staged_agree h2 (proj1 A3)). cbn [snd]. rewrite E3.
  rewrite (read_staged_agree h3 (proj1 A4)). cbn [snd]. exact E4.
Qed.

Lemma unstaged_parts_local (h : store) (p : loc) (ps : list jsstring) :
  local_arr h0 h p ps ->
  exists h',
    (us <- read_unstaged r ;;
     addPart_st p (Unstaged.modified (snd us)) "modified (unstaged)" ;;;
     us <- read_unstaged r ;;
     addPart_st p (Unstaged.deleted (snd us)) "deleted (unstaged)" ;;;
     v <- read_summary r ;;
     addPart_st p (sc_untracked v) "untracked" ;;;
     v <- read_summary r ;;
     addPart_st p (sc_conflicts v) "conflict")%st h = Some (tt, h') /\
    local_arr h0 h' p
      (addPart (conflicts s) "conflict"
         (addPart (untracked s) "untracked"
            (addPart (Unstaged.deleted (unstaged s)) "deleted (unstaged)"
               (addPart (Unstaged.modified (unstaged s))
                        "modified (unstaged)" ps)))).
Proof.
  intros A1.
  destruct (addPart_st_local _ _ _ _ (Unstaged.modified (unstaged s))
                             "modified (unstaged)" A1) as (h1 & E1 & A2).
  destruct (addPart_st_local _ _ _ _ (Unstaged.deleted (unstaged s))
                             "deleted (unstaged)" A2) as (h2 & E2 & A3).
  destruct (addPart_st_local _ _ _ _ (untracked s) "untracked" A3)
    as (h3 & E3 & A4).
  destruct (addPart_st_local _ _ _ _ (conflicts s) "conflict" A4)
    as (h4 & E4 & A5).
  exists h4. split; [|exact A5].
  unfold bindS.
  rewrite (read_unstaged_agree h (proj1 A1)). cbn [snd]. rewrite E1.
  rewrite (read_unstaged_agree h1 (proj1 A2)). cbn [snd]. rewrite E2.
  rewrite (read_summary_agree h2 (proj1 A3)). cbn [sc_untracked].
  rewrite E3.
  rewrite (read_summary_agree h3 (proj1 A4)). cbn [sc_conflicts].
  exact E4.
Qed.


Lemma limitList_st_ok (h : store) (l : loc) (items : list jsstring) :
  arr_at h l items ->
  exists l' x,
    limitList_st l h = Some ((l', snd (limitList items)), h ++ x) /\
    arr_at (h ++ x) l' (fst (limitList items)).
Proof.
  intros E. unfold limitList_st, limitList, bindS.
  rewrite (read_arr_ok _ _ _ E).
  destruct (MAX_FILE_SAMPLES <? len items).
  - exists (List.length h), [CArray (firstn (Z.to_nat MAX_FILE_SAMPLES) items)].
    split; [reflexivity|].
    unfold arr_at. cbn [fst]. rewrite nth_error_app2 by lia.
    rewrite Nat.sub_diag. reflexivity.
  - exists l, []. rewrite app_nil_r. split; [reflexivity|exact E].
Qed.

Lemma pushLine_st_ok (h : store) (bp : loc) (b : list jsstring)
      (category : string) (L : loc * Z) (items : list jsstring) :
  arr_at h bp b -> arr_at h (fst L) items ->
  pushLine_st bp category L h =
    Some (tt, upd bp (CArray (pushLine category (items, snd L) b)) h).
Proof.
  intros B E. unfold pushLine_st, pushLine, bindS.
  rewrite (read_arr_ok _ _ _ E). cbn [fst].
  destruct (nonempty items).
  - apply push_arr_ok; exact B.
  - unfold retS. now rewrite (upd_same _ _ _ B).
Qed.

(** The two blocks of [addPart] calls. *)
Lemma title_parts_local (opts : MessageOptions) (h : store) (p : loc) :
  local_arr h0 h p [] ->
  exists h1 h',
    (if includeStaged s opts then
       st <- read_staged r ;;
       addPart_st p (Staged.added (snd st)) "added" ;;;
       st <- read_staged r ;;
       addPart_st p (Staged.modified (snd st)) "modified" ;;;
       st <- read_staged r ;;
       addPart_st p (Staged.deleted (snd st)) "deleted" ;;;
       st <- read_staged r ;;
       addPart_st p (Staged.renamed (snd st) + Staged.copied (snd st))
                  "renamed"
     else retS tt)%st h = Some (tt, h1) /\
    (if negb (truthy (stagedOnly opts)) then
       us <- read_unstaged r ;;
       addPart_st p (Unstaged.modified (snd us)) "modified (unstaged)" ;;;
       us <- read_unstaged r ;;
       addPart_st p (Unstaged.deleted (snd us)) "deleted (unstaged)" ;;;
       v <- read_summary r ;;
       addPart_st p (sc_untracked v) "untracked" ;;;
       v <- read_summary r ;;
       addPart_st p (sc_conflicts v) "conflict"
     else retS tt)%st h1 = Some (tt, h') /\
    local_arr h0 h' p (titleParts s opts).
Proof.
  intros A. unfold titleParts. cbv zeta.
  destruct (includeStaged s opts).
  - destruct (staged_parts_local h p [] A) as (h1 & E1 & A1).
    exists h1. destruct (negb (truthy (stagedOnly opts))).
    + destruct (unstaged_parts_local h1 p _ A1) as (h2 & E2 & A2).
      exists h2. split; [exact E1|]. split; [exact E2|exact A2].
    + exists h1. split; [exact E1|]. split; [reflexivity|exact A1].
  - exists h. destruct (negb (truthy (stagedOnly opts))).
    + destruct (unstaged_parts_local h p _ A) as (h2 & E2 & A2).
      exists h2. split; [reflexivity|]. split; [exact E2|exact A2].
    + exists h. split; [reflexivity|]. split; [reflexivity|exact A].
Qed.

(** [buildSimpleMessage] over the store: it returns the message of the
    summary that the store holds, and every object of the store is as it
    was; what it adds are arrays of its own. *)
Lemma buildSimpleMessage_st_run (opts : MessageOptions) :
  exists h',
    buildSimpleMessage_st r opts h0 = Some (buildSimpleMessage s opts, h') /\
    agree h0 h'.
Proof.
  assert (A1 : local_arr h0 (h0 ++ [CArray []]) (List.length h0) []).
  { split; [apply agree_app, agree_refl|]. split; [lia|].
    unfold arr_at. rewrite nth_error_app2 by lia.
    rewrite Nat.sub_diag. reflexivity. }
  destruct (title_parts_local opts _ _ A1)
    as (hs & h1 & Es & E1 & (G1 & P1 & T1)).
  destruct (limitList_st_ok h1 _ _ (bucket_agree h1 BAdded G1))
    as (la & xa & Ea & Aa).
  pose proof (agree_app _ _ xa G1) as G2.
  destruct (limitList_st_ok _ _ _ (bucket_agree _ BModified G2))
    as (lm & xm & Em & Am).
  pose proof (agree_app _ _ xm G2) as G3.
  destruct (limitList_st_ok _ _ _ (bucket_agree _ BDeleted G3))
    as (ld & xd & Ed & Ad).
  pose proof (agree_app _ _ xd G3) as G4.
  destruct (limitList_st_ok _ _ _ (bucket_agree _ BRenamed G4))
    as (lr & xr & Er & Ar).
  pose proof (agree_app _ _ xr G4) as G5.
  destruct (limitList_st_ok _ _ _ (bucket_agree _ BUntracked G5))
    as (lu & xu & Eu & Au).
  pose proof (agree_app _ _ xu G5) as G6.
  set (h6 := ((((h1 ++ xa) ++ xm) ++ xd) ++ xr) ++ xu) in *.
  set (bp := List.length h6).
  set (h7 := h6 ++ [CArray []]).
  assert (Aa' : arr_at h6 la (fst (limitList (Samples.added (samples s)))))
    by (unfold h6; do 4 apply arr_at_app; exact Aa).
  assert (Am' : arr_at h6 lm (fst (limitList (Samples.modified (samples s)))))
    by (unfold h6; do 3 apply arr_at_app; exact Am).
  assert (Ad' : arr_at h6 ld (fst (limitList (Samples.deleted (samples s)))))
    by (unfold h6; do 2 apply arr_at_app; exact Ad).
  assert (Ar' : arr_at h6 lr (fst (limitList (Samples.renamed (samples s)))))
    by (unfold h6; do 1 apply arr_at_app; exact Ar).
  assert (B0 : arr_at h7 bp []).
  { unfold arr_at, h7, bp. rewrite nth_error_app2 by lia.
    rewrite Nat.sub_diag. reflexivity. }
  assert (K : forall l items c,
             arr_at h6 l items -> arr_at (upd bp c h7) l items).
  { intros l items c E. apply arr_at_upd_other.
    - apply arr_at_app; exact E.
    - apply nth_error_bound in E. unfold bp. lia. }
  assert (K0 : forall l items, arr_at h6 l items -> arr_at h7 l items)
    by (intros; apply arr_at_app; assumption).
  assert (U : forall c c', upd bp c' (upd bp c h7) = upd bp c' h7).
  { intros c c'. unfold h7, bp. clear. induction h6; simpl; congruence. }
  assert (Ub : forall b, arr_at (upd bp (CArray b) h7) bp b)
    by (intros b; eapply arr_at_upd; exact B0).
  assert (G7 : forall c, agree h0 (upd bp c h7)).
  { intros c. apply agree_upd; [apply agree_app; exact G6|].
    pose proof (proj1 (nth_error_Some h0 0)).
    unfold bp, h6. rewrite !length_app.
    assert (List.length h0 <= List.length h1)%nat; [|lia].
    destruct (Nat.le_gt_cases (List.length h0) (List.length h1)) as [L|L];
      [exact L|exfalso].
    assert (N : nth_error h1 (List.length h1) = None)
      by (apply nth_error_None; lia).
    rewrite (G1 _ L) in N. apply nth_error_None in N. lia. }
  exists (upd bp (CArray (bodyParts s opts)) h7). split.
  - unfold buildSimpleMessage_st.
    unfold bindS at 1. unfold alloc at 1. cbv beta iota.
    unfold bindS at 1. rewrite (read_summary_agree _ (proj1 A1)).
    cbv beta iota zeta. cbn [sc_branch].
    unfold bindS at 1. rewrite (includeStaged_st_agree opts _ (proj1 A1)).
    cbv beta iota.
    unfold bindS at 1. rewrite Es. cbv beta iota.
    unfold bindS at 1. rewrite E1. cbv beta iota.
    unfold bindS at 1. rewrite (read_arr_ok _ _ _ T1). cbv beta iota.
    unfold bindS at 1. rewrite (read_summary_agree _ G1).
    cbv beta iota. cbn [sc_ahead sc_behind].
    unfold bindS at 1. rewrite (read_samples_agree _ G1). cbv beta iota.
    unfold bindS at 1. change (sa_added (sh_buckets sh))
      with (bucket_loc BAdded (sh_buckets sh)). rewrite Ea. cbv beta iota.
    unfold bindS at 1. change (sa_modified (sh_buckets sh))
      with (bucket_loc BModified (sh_buckets sh)). rewrite Em. cbv beta iota.
    unfold bindS at 1. change (sa_deleted (sh_buckets sh))
      with (bucket_loc BDeleted (sh_buckets sh)). rewrite Ed. cbv beta iota.
    unfold bindS at 1. change (sa_renamed (sh_buckets sh))
      with (bucket_loc BRenamed (sh_buckets sh)). rewrite Er. cbv beta iota.
    unfold bindS at 1. change (sa_untracked (sh_buckets sh))
      with (bucket_loc BUntracked (sh_buckets sh)). rewrite Eu.
    cbv beta iota.
    unfold bindS at 1. unfold alloc at 1. cbv beta iota.
    fold h6. fold bp. fold h7.
    unfold bindS at 1.
    rewrite (pushLine_st_ok h7 bp [] "added" (la, _) _ B0 (K0 _ _ Aa')).
    cbv beta iota.
    unfold bindS at 1.
    rewrite (pushLine_st_ok _ bp _ "modified" (lm, _) _ (Ub _) (K _ _ _ Am')).
    cbv beta iota. rewrite U.
    unfold bindS at 1.
    rewrite (pushLine_st_ok _ bp _ "deleted" (ld, _) _ (Ub _) (K _ _ _ Ad')).
    cbv beta iota. rewrite U.
    unfold bindS at 1.
    rewrite (pushLine_st_ok _ bp _ "renamed" (lr, _) _ (Ub _) (K _ _ _ Ar')).
    cbv beta iota. rewrite U.
    unfold bindS at 1.
    destruct (negb (truthy (stagedOnly opts))) eqn:SO.
    + rewrite (pushLine_st_ok _ bp _ "untracked" (lu, _) _ (Ub _) (K _ _ _ Au)).
      cbv beta iota. rewrite U.
      unfold bindS at 1. rewrite (read_arr_ok _ _ _ (Ub _)).
      cbv beta iota. unfold retS.
      unfold buildSimpleMessage, bodyParts, title, titleCore.
      cbv zeta. cbn [fst snd bucket_get]. rewrite SO.
      rewrite <- ?surjective_pairing.
      apply (f_equal Some). apply f_equal2; [|reflexivity].
      destruct (titleParts s opts);
        match goal with
        | |- match ?b with [] => _ | _ => _ end = _ => destruct b
        end; reflexivity.
    + unfold retS at 1. cbv beta iota.
      unfold bindS at 1. rewrite (read_arr_ok _ _ _ (Ub _)).
      cbv beta iota. unfold retS.
      unfold buildSimpleMessage, bodyParts, title, titleCore.
      cbv zeta. cbn [fst snd bucket_get]. rewrite SO.
      rewrite <- ?surjective_pairing.
      apply (f_equal Some). apply f_equal2; [|reflexivity].
      destruct (titleParts s opts);
        match goal with
        | |- match ?b with [] => _ | _ => _ end = _ => destruct b
        end; reflexivity.
  - apply G7.
Qed.

End BuildOverStore.

(** Of the options only the truth value of [stagedOnly] is read. *)
Lemma buildSimpleMessage_stagedOnly (s : StatusSummary)
      (o1 o2 : MessageOptions) :
  truthy (stagedOnly o1) = truthy (stagedOnly o2) ->
  buildSimpleMessage s o1 = buildSimpleMessage s o2.
Proof.
  intros H.
  unfold buildSimpleMessage, bodyParts, title, titleCore, titleParts,
    includeStaged.
  now rewrite H.
Qed.

(** C9.  Over the store of objects, where an effect on anything but the
    result would show:
    - on every store [parseStatus] returns; its result is a new object,
      the summary it holds is [parseStatus output], a function of the
      text alone, and every object that was in the store is as it was;
    - parsing the same text a second time, in the store the first call
      left, gives another object, and the two hold the same summary;
    - [buildSimpleMessage] returns the message of the summary that the
      store holds at its argument, a function of the values in it and of
      the options alone; every object that was in the store is as it
      was, the summary among them (what the call adds are the arrays it
      makes for itself);
    - so two summaries that hold the same values, at whatever places of
      whatever stores, give with the same options the same string. *)
Theorem parse_and_build_deterministic :
  (forall output h, exists r h' sh,
      parseStatus_st output h = Some (r, h') /\
      holds h' r sh (parseStatus output) /\
      (List.length h <= r)%nat /\
      agree h h') /\
  (forall output h, exists r1 h1 sh1 r2 h2 sh2,
      parseStatus_st output h = Some (r1, h1) /\
      parseStatus_st output h1 = Some (r2, h2) /\
      r1 <> r2 /\
      holds h2 r1 sh1 (parseStatus output) /\
      holds h2 r2 sh2 (parseStatus output)) /\
  (forall h r sh s opts,
      holds h r sh s ->
      exists h',
        buildSimpleMessage_st r opts h
          = Some (buildSimpleMessage s opts, h') /\
        agree h h' /\ holds h' r sh s) /\
  (forall h1 r1 sh1 h2 r2 sh2 s opts,
      holds h1 r1 sh1 s -> holds h2 r2 sh2 s ->
      option_map fst (buildSimpleMessage_st r1 opts h1)
        = option_map fst (buildSimpleMessage_st r2 opts h2)).
Proof.
  split; [exact parseStatus_st_spec|]. split; [|split].
  - intros output h.
    destruct (parseStatus_st_spec output h)
      as (r1 & h1 & sh1 & E1 & H1 & L1 & F1).
    destruct (parseStatus_st_spec output h1)
      as (r2 & h2 & sh2 & E2 & H2 & L2 & F2).
    exists r1, h1, sh1, r2, h2, sh2.
    split; [exact E1|]. split; [exact E2|].
    split; [|split; [exact (holds_frame _ _ _ _ _ H1 F2)|exact H2]].
    destruct H1 as (H1 & _). apply nth_error_bound in H1. lia.
  - intros h r sh s opts H.
    destruct (buildSimpleMessage_st_run h r sh s H opts) as (h' & E & A).
    exists h'. split; [exact E|]. split; [exact A|].
    exact (holds_frame _ _ _ _ _ H A).
  - intros h1 r1 sh1 h2 r2 sh2 s opts H1 H2.
    destruct (buildSimpleMessage_st_run h1 r1 sh1 s H1 opts) as (k1 & E1 & _).
    destruct (buildSimpleMessage_st_run h2 r2 sh2 s H2 opts) as (k2 & E2 & _).
    rewrite E1, E2. reflexivity.
Qed.

Lemma parse_and_build_deterministic_witness :
  let output := u "? a.txt" in
  exists r h sh h',
    parseStatus_st output [] = Some (r, h) /\
    holds h r sh (parseStatus output) /\
    buildSimpleMessage_st r opts_default h =
      Some (u "1 untracked" ++ [LF; LF] ++ u "untracked: a.txt", h').
Proof.
  cbv zeta.
  destruct (proj1 parse_and_build_deterministic (u "? a.txt") [])
    as (r & h & sh & E & H & _).
  destruct (proj1 (proj2 (proj2 parse_and_build_deterministic))
                  h r sh _ opts_default H) as (h' & E' & _).
  exists r, h, sh, h'. split; [exact E|]. split; [exact H|exact E'].
Defined.

(** ** C10: the parser never fills a bucket beyond the cap *)

(** C10.  For every summary produced by [parseStatus], each of the five
    sample lists has at most [MAX_FILE_SAMPLES] = 10 entries (exactly the
    smaller of 10 and the number of entries recorded for it);
    consequently [limitList] reports no overflow for any of them and every
    body line of [buildSimpleMessage] is the plain
    ["<category>: <samples>"], never followed by the [" (+<n> more)"]
    suffix. *)
Theorem parser_summaries_never_overflow
        (output : jsstring) (opts : MessageOptions) :
  let s := parseStatus output in
  len (Samples.added (samples s)) <= 10 /\
  len (Samples.modified (samples s)) <= 10 /\
  len (Samples.deleted (samples s)) <= 10 /\
  len (Samples.renamed (samples s)) <= 10 /\
  len (Samples.untracked (samples s)) <= 10 /\
  buckets_exact s /\
  limitList (Samples.added (samples s)) = (Samples.added (samples s), 0) /\
  limitList (Samples.modified (samples s))
    = (Samples.modified (samples s), 0) /\
  limitList (Samples.deleted (samples s)) = (Samples.deleted (samples s), 0) /\
  limitList (Samples.renamed (samples s)) = (Samples.renamed (samples s), 0) /\
  limitList (Samples.untracked (samples s))
    = (Samples.untracked (samples s), 0) /\
  bodyParts s opts = plainBody (samples s) opts.
Proof.
  pose proof (parseStatus_inv output) as Hinv.
  pose proof (summary_inv_capped _ Hinv) as Hcap.
  pose proof Hcap as (Ha & Hm & Hd & Hr & Hu).
  cbv zeta.
  repeat (split; [assumption|]).
  split; [apply Hinv|].
  repeat (split; [apply limitList_under; assumption|]).
  now apply bodyParts_plain.
Qed.

(* ================================================================== *)
(** * Further properties *)

(** ** Strings cut to length *)

Lemma len_app {X} (a b : list X) : len (a ++ b) = len a + len b.
Proof. unfold len. rewrite length_app. lia. Qed.

Lemma len_nonneg {X} (a : list X) : 0 <= len a.
Proof. unfold len. lia. Qed.

Lemma len_firstn {X} (n : nat) (a : list X) :
  len (firstn n a) = Z.min (Z.of_nat n) (len a).
Proof. unfold len. rewrite length_firstn. lia. Qed.

Lemma substring_0 (b : Z) (s : jsstring) :
  substring 0 b s = firstn (Z.to_nat b) s.
Proof.
  unfold substring, clamp.
  replace (Z.to_nat (Z.min (Z.max 0 0) (len s))) with 0%nat
    by (pose proof (len_nonneg s); lia).
  rewrite Nat.min_0_l, Nat.max_0_l, Nat.sub_0_r. cbn [skipn].
  destruct (Z_le_gt_dec b (len s)).
  - f_equal. lia.
  - replace (Z.to_nat (Z.min (Z.max b 0) (len s))) with (List.length s)
      by (unfold len in *; lia).
    rewrite firstn_all. symmetry. apply firstn_all2. unfold len in *. lia.
Qed.

Lemma substring_from_skipn (a : Z) (s : jsstring) :
  substring_from a s = skipn (Z.to_nat a) s.
Proof.
  unfold substring_from, substring, clamp.
  pose proof (len_nonneg s) as Hs.
  replace (Z.to_nat (Z.min (Z.max (len s) 0) (len s))) with (List.length s)
    by (unfold len in *; lia).
  destruct (Z_le_gt_dec a (len s)).
  - replace (Z.to_nat (Z.min (Z.max a 0) (len s))) with (Z.to_nat a) by lia.
    assert (Z.to_nat a <= List.length s)%nat by (unfold len in *; lia).
    rewrite Nat.min_l, Nat.max_r by lia.
    apply firstn_all2. rewrite length_skipn. lia.
  - replace (Z.to_nat (Z.min (Z.max a 0) (len s))) with (List.length s)
      by (unfold len in *; lia).
    rewrite Nat.min_id, Nat.max_id, Nat.sub_diag. cbn [firstn].
    symmetry. apply skipn_all2. unfold len in *. lia.
Qed.

(** X1: the result of [truncate] is never longer than the larger of
    [maxLength] and the length of the suffix. *)
Theorem truncate_bound (str : jsstring) (maxLength : Z) (suffix : jsstring) :
  len (truncate str maxLength suffix) <= Z.max maxLength (len suffix).
Proof.
  unfold truncate.
  pose proof (len_nonneg suffix) as Hs.
  destruct str as [|c r].
  - cbn. lia.
  - cbn [nonempty negb orb].
    destruct (Z.leb_spec (len (c :: r)) maxLength) as [H|H]; [lia|].
    rewrite len_app, substring_0, len_firstn. lia.
Qed.

(** X2: truncating twice is truncating once. *)
Theorem truncate_idempotent (str : jsstring) (maxLength : Z)
        (suffix : jsstring) :
  truncate (truncate str maxLength suffix) maxLength suffix
  = truncate str maxLength suffix.
Proof.
  pose proof (len_nonneg suffix) as Hs.
  unfold truncate at 2 3.
  destruct str as [|c r]; [reflexivity|].
  cbn [nonempty negb orb].
  destruct (Z.leb_spec (len (c :: r)) maxLength) as [H|H].
  - unfold truncate. cbn [nonempty negb orb].
    destruct (Z.leb_spec (len (c :: r)) maxLength); [reflexivity|lia].
  - rewrite substring_0.
    set (t := firstn (Z.to_nat (maxLength - len suffix)) (c :: r) ++ suffix).
    assert (Ht : len t = Z.min (Z.max (maxLength - len suffix) 0) (len (c :: r))
                         + len suffix).
    { unfold t. rewrite len_app, len_firstn. lia. }
    destruct (Z_le_gt_dec (len suffix) maxLength) as [Hle|Hgt].
    + unfold truncate.
      replace (len t <=? maxLength) with true by (symmetry; apply Z.leb_le; lia).
      now rewrite orb_true_r.
    + unfold truncate.
      assert (Hp : firstn (Z.to_nat (maxLength - len suffix)) (c :: r) = []).
      { replace (Z.to_nat (maxLength - len suffix)) with 0%nat by lia.
        reflexivity. }
      unfold t in *. rewrite Hp in *. cbn [app] in *.
      destruct suffix as [|d suffix']; [reflexivity|].
      cbn [nonempty negb orb].
      destruct (Z.leb_spec (len (d :: suffix')) maxLength); [lia|].
      rewrite substring_0.
      replace (Z.to_nat (maxLength - len (d :: suffix'))) with 0%nat by lia.
      reflexivity.
Qed.

Lemma maskString_split (p m q : jsstring) (start end_ : Z) :
  len p = start -> len q = end_ -> m <> [] ->
  maskString (Some (p ++ m ++ q)) start end_ = p ++ u "..." ++ q.
Proof.
  intros Hp Hq Hm. unfold maskString.
  assert (Hl : len (p ++ m ++ q) = start + len m + end_)
    by (rewrite !len_app; lia).
  assert (0 < len m) by (destruct m; [congruence|unfold len; cbn; lia]).
  replace (nonempty (p ++ m ++ q)) with true
    by (destruct p; [destruct m; [congruence|]|]; reflexivity).
  cbn [negb orb].
  destruct (Z.leb_spec (len (p ++ m ++ q)) (start + end_)); [lia|].
  rewrite substring_0, substring_from_skipn.
  f_equal; [|f_equal].
  - replace (Z.to_nat start) with (List.length p + 0)%nat
      by (unfold len in *; lia).
    rewrite firstn_app_2. cbn. apply app_nil_r.
  - rewrite app_assoc.
    replace (Z.to_nat (len ((p ++ m) ++ q) - end_))
      with (List.length (p ++ m))
      by (rewrite <- app_assoc, Hl; subst start; rewrite length_app;
          unfold len in *; lia).
    apply skipn_app_length.
Qed.

(** X3: [maskString] shows the first [start] and the last [end] code units
    and nothing of what lies between them. *)
Theorem maskString_shape (p m q : jsstring) (start end_ : Z) :
  len p = start -> len q = end_ -> m <> [] ->
  maskString (Some (p ++ m ++ q)) start end_ = p ++ u "..." ++ q.
Proof. apply maskString_split. Qed.

Lemma maskString_shape_witness :
  maskString (Some (u "AIzaSyDummyKey12345678901234567890")) 8 4
  = u "AIzaSyDu...7890".
Proof.
  exact (maskString_shape (u "AIzaSyDu") (u "mmyKey1234567890123456")
                          (u "7890") 8 4 eq_refl eq_refl
                          ltac:(discriminate)).
Defined.

(** ** Keys and the configuration *)

Lemma trimStart_all_space (w : jsstring) :
  forallb is_space w = true -> trimStart w = [].
Proof.
  intros H. rewrite <- (app_nil_r w). now rewrite trimStart_spaces.
Qed.

Lemma trimStart_app (s t : jsstring) :
  trimStart s <> [] -> trimStart (s ++ t) = trimStart s ++ t.
Proof.
  induction s as [|c s IH]; cbn [trimStart app]; [congruence|].
  destruct (is_space c); auto.
Qed.

Lemma trimStart_nil_spaces (s : jsstring) :
  trimStart s = [] -> forallb is_space s = true.
Proof.
  induction s as [|c s IH]; cbn [trimStart forallb]; [reflexivity|].
  destruct (is_space c); [auto|discriminate].
Qed.

Lemma trim_padding (w s w' : jsstring) :
  forallb is_space w = true -> forallb is_space w' = true ->
  trim (w ++ s ++ w') = trim s.
Proof.
  intros Hw Hw'. unfold trim. rewrite trimStart_spaces by assumption.
  destruct (trimStart s) eqn:E.
  - apply trimStart_nil_spaces in E.
    rewrite trimStart_all_space
      by (rewrite forallb_app, E, Hw'; reflexivity).
    reflexivity.
  - rewrite trimStart_app by congruence. rewrite E.
    now apply trimEnd_app_spaces.
Qed.

(** X4: white space around a key does not change whether [validateApiKey]
    accepts it. *)
Theorem validateApiKey_padding (w s w' : jsstring) :
  forallb is_space w = true -> forallb is_space w' = true ->
  validateApiKey (JString (w ++ s ++ w')) = validateApiKey (JString s).
Proof.
  intros Hw Hw'. unfold validateApiKey. cbn [js_truthy].
  pose proof (trim_padding w s w' Hw Hw') as Ht.
  destruct s as [|c s].
  - cbn [nonempty negb]. rewrite app_nil_l in *.
    destruct (w ++ w') eqn:E; [reflexivity|].
    cbn [nonempty negb]. rewrite Ht. reflexivity.
  - replace (nonempty (w ++ (c :: s) ++ w')) with true
      by (destruct w; reflexivity).
    cbn [nonempty negb]. now rewrite Ht.
Qed.

Lemma validateApiKey_padding_witness :
  validateApiKey
    (JString (u "  " ++ u "AIzaSyDummyKey12345678901234567890" ++ [LF]))
  = true.
Proof.
  rewrite (validateApiKey_padding (u "  ")
             (u "AIzaSyDummyKey12345678901234567890") [LF]
             eq_refl eq_refl).
  reflexivity.
Defined.

Lemma trim_len (s : jsstring) : len (trim s) <= len s.
Proof.
  unfold trim.
  destruct (trimStart_suffix s) as (w & Hs & _).
  destruct (trimEnd_prefix (trimStart s)) as (w' & Ht).
  rewrite Hs at 2. rewrite Ht at 2. rewrite !len_app.
  pose proof (len_nonneg w). pose proof (len_nonneg w'). lia.
Qed.

Lemma validateApiKey_string (v : jsval) :
  validateApiKey v = true -> exists s, v = JString s /\ 20 <= len s.
Proof.
  unfold validateApiKey.
  destruct v as [| |s|b]; cbn [js_truthy negb]; try discriminate.
  - destruct (nonempty s); cbn [negb]; [|discriminate].
    intros H. apply andb_true_iff in H as [H _]. apply Z.leb_le in H.
    exists s. split; [reflexivity|]. pose proof (trim_len s). lia.
  - destruct b; discriminate.
Qed.

Lemma split_8_4 (s : jsstring) :
  20 <= len s ->
  exists p m q, s = p ++ m ++ q /\ len p = 8 /\ len q = 4 /\ 8 <= len m.
Proof.
  intros H.
  exists (firstn 8 s), (firstn (List.length s - 12) (skipn 8 s)),
    (skipn (List.length s - 4) s).
  assert (Hn : (20 <= List.length s)%nat) by (unfold len in H; lia).
  repeat split.
  - rewrite <- (firstn_skipn 8 s) at 1. f_equal.
    rewrite <- (firstn_skipn (List.length s - 12) (skipn 8 s)) at 1.
    f_equal. rewrite skipn_skipn. f_equal. lia.
  - unfold len. rewrite length_firstn. lia.
  - unfold len. rewrite length_skipn. lia.
  - unfold len. rewrite length_firstn, length_skipn. lia.
Qed.

(** X5: for a configuration that [hasConfig] accepts, [displayConfig]
    returns, as the key, its first 8 and last 4 code units around
    ["..."]; at least 8 code units of the key are left out. *)
Theorem displayConfig_masks_key (config : option Config.t) :
  hasConfig config = true ->
  exists c p m q,
    config = Some c /\
    Config.apiKey c = JString (p ++ m ++ q) /\
    len p = 8 /\ len q = 4 /\ 8 <= len m /\
    displayConfig config =
      Some (DisplayConfig.mk true (Some (p ++ u "..." ++ q))
              (Some (js_or (Config.model c) (JString (u "default"))))).
Proof.
  intros H. unfold displayConfig. rewrite H.
  destruct config as [c|]; [|discriminate].
  cbn [hasConfig] in H. apply andb_true_iff in H as [_ H].
  apply validateApiKey_string in H as (s & Hs & Hl).
  destruct (split_8_4 s Hl) as (p & m & q & E & Hp & Hq & Hm).
  exists c, p, m, q. rewrite Hs. repeat split; try assumption.
  - now rewrite E.
  - cbn [maskString_val ret bind]. rewrite E.
    rewrite maskString_split; auto.
    destruct m; [unfold len in Hm; cbn in Hm; lia|discriminate].
Qed.

Lemma displayConfig_masks_key_witness :
  let c := Config.mk (JString (u "AIzaSyDummyKey12345678901234567890"))
                     JUndefined in
  hasConfig (Some c) = true /\
  exists c' p m q,
    Some c = Some c' /\
    Config.apiKey c' = JString (p ++ m ++ q) /\
    len p = 8 /\ len q = 4 /\ 8 <= len m /\
    displayConfig (Some c) =
      Some (DisplayConfig.mk true (Some (p ++ u "..." ++ q))
              (Some (js_or (Config.model c') (JString (u "default"))))).
Proof.
  intros c. split; [reflexivity|].
  exact (displayConfig_masks_key (Some c) eq_refl).
Defined.

(** X6: when the main command finds that an API key is available
    ([hasApiKey]), [getApiKey] returns a truthy value, so that
    [generateWithGemini] does not stop with [NO_API_KEY]. *)
Theorem hasApiKey_getApiKey (config : option Config.t)
        (GEMINI_API_KEY : option jsstring) :
  hasApiKey config GEMINI_API_KEY = true ->
  js_truthy (getApiKey config GEMINI_API_KEY) = true.
Proof.
  unfold hasApiKey, getApiKey, js_or. intros H.
  destruct (js_truthy (opt_field Config.apiKey config)) eqn:E1.
  - now rewrite E1.
  - destruct (js_truthy (env_val GEMINI_API_KEY)) eqn:E2.
    + now rewrite E2.
    + rewrite orb_false_r in H.
      destruct config as [c|]; [|discriminate].
      cbn [hasConfig] in H. apply andb_true_iff in H as [_ H].
      apply validateApiKey_string in H as (s & Hs & Hl).
      cbn [opt_field] in E1. rewrite Hs in E1. cbn [js_truthy] in E1.
      destruct s; [unfold len in Hl; cbn in Hl; lia|discriminate].
Qed.

Lemma hasApiKey_getApiKey_witness :
  hasApiKey None (Some (u "k")) = true /\
  js_truthy (getApiKey None (Some (u "k"))) = true.
Proof.
  split; [reflexivity|].
  exact (hasApiKey_getApiKey None (Some (u "k")) eq_refl).
Defined.

(** ** Retrying *)

Section RetryFacts.
Context {St T : Type}.
Variable fn : St -> (T + thrown) * St.
Variables maxAttempts delay : Z.

Lemma retry_loop_trace_nonempty (a : Z) (rest : list Z)
      (lastError : option thrown) (st : St) :
  trace (retry_loop fn maxAttempts delay (a :: rest) lastError st) <> [].
Proof.
  cbn [retry_loop]. destruct (fn st) as [[v|e] st']; [discriminate|].
  destruct (no_retry e); discriminate.
Qed.

Lemma retry_loop_waits (n k : nat) (lastError : option thrown) (st : St) :
  (k + n = Z.to_nat maxAttempts)%nat ->
  let r := retry_loop fn maxAttempts delay
             (map Z.of_nat (seq (S k) n)) lastError st in
  (List.length (trace r) <= n)%nat /\
  waits r = map (fun j => delay * 2 ^ Z.of_nat j)
                (seq k (List.length (trace r) - 1)).
Proof.
  revert k lastError st.
  induction n as [|n IH]; intros k lastError st Hk; cbn zeta.
  - cbn. split; [lia|reflexivity].
  - cbn [seq map retry_loop].
    destruct (fn st) as [[v|e] st']; [cbn; split; [lia|reflexivity]|].
    destruct (no_retry e); [cbn; split; [lia|reflexivity]|].
    cbn [trace waits List.length].
    specialize (IH (S k) (Some e) st' ltac:(lia)). cbn zeta in IH.
    destruct IH as [IHl IHw]. split; [lia|].
    rewrite IHw, Nat.sub_succ, Nat.sub_0_r.
    destruct n as [|n].
    + cbn [seq map retry_loop trace List.length].
      destruct (Z.ltb_spec (Z.of_nat (S k)) maxAttempts); [lia|].
      reflexivity.
    + pose proof (retry_loop_trace_nonempty (Z.of_nat (S (S k)))
                    (map Z.of_nat (seq (S (S (S k))) n)) (Some e) st')
        as Hne.
      change (Z.of_nat (S (S k)) :: map Z.of_nat (seq (S (S (S k))) n))
        with (map Z.of_nat (seq (S (S k)) (S n))) in Hne.
      destruct (trace _) as [|o tr]; [congruence|].
      cbn [List.length]. rewrite Nat.sub_succ, Nat.sub_0_r.
      destruct (Z.ltb_spec (Z.of_nat (S k)) maxAttempts); [|lia].
      cbn [seq map app]. unfold API_RETRY_BACKOFF. do 3 f_equal. lia.
Qed.

(** X7: [retry] calls [fn] at most [maxAttempts] times, and before the
    calls number 2, 3, ... it waits [delay], [2 * delay], [4 * delay], ...
    milliseconds: one wait between two calls, none after the last. *)
Theorem retry_backoff (st : St) :
  let r := retry fn maxAttempts delay st in
  Z.of_nat (List.length (trace r)) <= Z.max 0 maxAttempts /\
  waits r = backoff delay (List.length (trace r)).
Proof.
  cbn zeta. unfold retry, backoff.
  destruct (retry_loop_waits (Z.to_nat maxAttempts) 0 None st eq_refl)
    as [Hl Hw].
  split; [lia|exact Hw].
Qed.

Lemma retry_loop_outcome (attempts : list Z) (lastError : option thrown)
      (st : St) :
  let r := retry_loop fn maxAttempts delay attempts lastError st in
  match attempts with
  | [] => trace r = [] /\ outcome r = inr (last_or_failed lastError)
  | _ =>
      exists pre o,
        trace r = pre ++ [o] /\ Forall retried pre /\
        match o with
        | inl v => outcome r = inl v
        | inr e =>
            if no_retry e then outcome r = inr e
            else List.length (trace r) = List.length attempts /\
                 outcome r = inr (last_or_failed (Some e))
        end
  end.
Proof.
  revert lastError st.
  induction attempts as [|a rest IH]; intros lastError st; cbn zeta.
  - now split.
  - cbn [retry_loop].
    destruct (fn st) as [[v|e] st'] eqn:E.
    + exists [], (inl v). now repeat split.
    + destruct (no_retry e) eqn:F.
      * exists [], (inr e). rewrite F. now repeat split.
      * specialize (IH (Some e) st'). cbn zeta in IH.
        cbn [trace outcome].
        destruct rest as [|b rest].
        -- destruct IH as [Ht Ho]. rewrite Ht, Ho.
           exists [], (inr e). rewrite F. now repeat split.
        -- destruct IH as (pre & o & Ht & Hpre & Ho).
           exists (inr e :: pre), o. rewrite Ht.
           split; [reflexivity|]. split.
           ++ constructor; [now exists e|assumption].
           ++ destruct o as [v|e']; [assumption|].
              destruct (no_retry e'); [assumption|].
              destruct Ho as [Hlen Ho]. split; [|assumption].
              rewrite <- Ht in *. cbn [List.length]. now rewrite Hlen.
Qed.

(** X8: [retry] stops at the first call of [fn] that returns, or that
    throws an error whose code is VALIDATION_ERROR or CONFIG_ERROR, and
    ends as that call did; every earlier call threw something else.  When
    the last call threw something else, all [maxAttempts] calls were made
    and what it threw is thrown again, ["Retry failed"] in place of a
    falsy value.  With no call at all ([maxAttempts] below 1) the result
    is the error ["Retry failed"]. *)
Theorem retry_outcome (st : St) :
  let r := retry fn maxAttempts delay st in
  (trace r = [] ->
   maxAttempts < 1 /\
   outcome r = inr (ErrorObj (u "Retry failed") JUndefined)) /\
  (forall pre o, trace r = pre ++ [o] ->
     Forall retried pre /\
     match o with
     | inl v => outcome r = inl v
     | inr e =>
         if no_retry e then outcome r = inr e
         else Z.of_nat (List.length (trace r)) = maxAttempts /\
              outcome r = inr (last_or_failed (Some e))
     end).
Proof.
  cbn zeta. unfold retry.
  pose proof (retry_loop_outcome
                (map Z.of_nat (seq 1 (Z.to_nat maxAttempts))) None st) as H.
  cbn zeta in H.
  destruct (Z.to_nat maxAttempts) as [|n] eqn:En.
  - cbn [seq map] in *. destruct H as [Ht Ho]. split.
    + intros _. split; [lia|exact Ho].
    + intros pre o E. rewrite Ht in E. now destruct pre.
  - cbn [seq map] in *. destruct H as (pre & o & Ht & Hpre & Ho). split.
    + intros E. rewrite E in Ht. now destruct pre.
    + intros pre' o' E. rewrite Ht in E.
      apply app_inj_tail in E as [<- <-]. split; [assumption|].
      destruct o as [v|e]; [assumption|].
      destruct (no_retry e); [assumption|].
      destruct Ho as [Hl Ho]. split; [|assumption].
      rewrite Hl. cbn [List.length]. rewrite length_map, length_seq. lia.
Qed.
End RetryFacts.

(** ** The levels of the logger *)

Lemma no_lower_not_inherited (key : jsstring) :
  no_lower key = true -> existsb (str_eqb key) OBJECT_PROTOTYPE = false.
Proof.
  intros H. apply not_true_is_false. intros E.
  apply existsb_exists in E as (k & Hin & Hk).
  apply str_eqb_eq in Hk. subst k.
  cbn in Hin.
  repeat (destruct Hin as [Hin|Hin];
          [rewrite <- Hin in H; vm_compute in H; discriminate|]).
  exact Hin.
Qed.

Section LoggerFacts.
Variable toUpperCase : jsstring -> jsstring.
Context {X : Type}.

Lemma Logger_new_level (lvl : jsstring) (verbose : bool) :
  no_lower (toUpperCase lvl) = true ->
  Logger.level (Logger.new toUpperCase lvl verbose) =
  Some (if str_eqb (toUpperCase lvl) (u "WARN") then LEVEL_WARN
        else if str_eqb (toUpperCase lvl) (u "DEBUG") then LEVEL_DEBUG
        else LEVEL_INFO).
Proof.
  intros Hup. unfold Logger.new, LOG_LEVELS. cbn [Logger.level].
  rewrite (no_lower_not_inherited _ Hup).
  destruct (str_eqb (toUpperCase lvl) (u "ERROR")) eqn:E1.
  { apply str_eqb_eq in E1. rewrite E1. reflexivity. }
  destruct (str_eqb (toUpperCase lvl) (u "WARN")) eqn:E2; [reflexivity|].
  destruct (str_eqb (toUpperCase lvl) (u "INFO")) eqn:E3.
  { apply str_eqb_eq in E3. rewrite E3. reflexivity. }
  destruct (str_eqb (toUpperCase lvl) (u "DEBUG")); reflexivity.
Qed.

(** X9: whatever level name a logger is created with, it writes errors
    and warnings; it writes informational messages unless the name is
    WARN, so also when the name is ERROR; it writes debug messages
    exactly when the name is DEBUG or [verbose] is set. *)
Theorem Logger_levels (lvl : jsstring) (verbose : bool) (args : list X) :
  no_lower (toUpperCase lvl) = true ->
  let l := Logger.new toUpperCase lvl verbose in
  Logger.error l args = Some (inl (u "ERROR:") :: map inr args) /\
  Logger.warn l args = Some (inl (u "WARN:") :: map inr args) /\
  (Logger.info l args = None <-> toUpperCase lvl = u "WARN") /\
  (Logger.debug l args = None <->
   toUpperCase lvl <> u "DEBUG" /\ verbose = false).
Proof.
  intros Hup. cbn zeta.
  unfold Logger.error, Logger.warn, Logger.info, Logger.debug,
    Logger.level_ge.
  rewrite (Logger_new_level lvl verbose Hup).
  change (Logger.verbose (Logger.new toUpperCase lvl verbose)) with verbose.
  destruct (str_eqb (toUpperCase lvl) (u "WARN")) eqn:E2.
  - apply str_eqb_eq in E2. rewrite E2. cbn.
    split; [reflexivity|split; [reflexivity|split; split]];
      try reflexivity.
    + destruct verbose; [discriminate|]. intros _. now split.
    + now intros [_ ->].
  - assert (N2 : toUpperCase lvl <> u "WARN")
      by (intros E; rewrite E in E2; discriminate E2).
    destruct (str_eqb (toUpperCase lvl) (u "DEBUG")) eqn:E4.
    + apply str_eqb_eq in E4. cbn.
      split; [reflexivity|split; [reflexivity|split; split]];
        try discriminate.
      * intros E. exfalso. apply N2. exact E.
      * intros [H _]. exfalso. apply H. exact E4.
    + assert (N4 : toUpperCase lvl <> u "DEBUG")
        by (intros E; rewrite E in E4; discriminate E4).
      cbn.
      split; [reflexivity|split; [reflexivity|split; split]];
        try discriminate.
      * intros E. exfalso. apply N2. exact E.
      * destruct verbose; [discriminate|]. intros _. split; [exact N4|reflexivity].
      * now intros [_ ->].
Qed.
End LoggerFacts.

Lemma Logger_levels_witness :
  no_lower (ascii_upper (u "error")) = true /\
  Logger.info (Logger.new ascii_upper (u "error") false) [u "starting"]
  <> None.
Proof.
  split; [reflexivity|].
  intros E.
  apply (proj1 (proj1 (proj2 (proj2
           (Logger_levels ascii_upper (u "error") false [u "starting"]
                          eq_refl))))) in E.
  discriminate E.
Defined.

(** ** Decimal numerals *)

Lemma uint_units_digits (d : Decimal.uint) :
  forallb is_digit (uint_units d) = true.
Proof. induction d; cbn [uint_units forallb]; auto. Qed.

Lemma num_positive_digit (n : Z) : 0 < n -> starts_with_digit (num n).
Proof.
  intros H. destruct n as [|p|p]; try lia.
  unfold num. cbn [Z.to_int].
  pose proof (Unsigned.to_uint_nonnil p) as Hn.
  pose proof (uint_units_digits (Pos.to_uint p)) as Hd.
  destruct (Pos.to_uint p); [congruence|..];
    cbn [uint_units forallb] in *; apply andb_true_iff in Hd as [Hc _];
    eexists _, _; (split; [reflexivity|exact Hc]).
Qed.

Lemma num_no_LF (n : Z) : ~ In LF (num n).
Proof.
  assert (Hd : forall d, ~ In LF (uint_units d)).
  { intros d H. pose proof (uint_units_digits d) as Hf.
    rewrite forallb_forall in Hf. apply Hf in H. discriminate H. }
  unfold num. destruct (Z.to_int n) as [d|d].
  - apply Hd.
  - intros [H|H]; [discriminate H|now apply Hd in H].
Qed.

(** ** Whether there is anything to commit *)

Lemma titleParts_digits (s : StatusSummary) (opts : MessageOptions) :
  Forall starts_with_digit (titleParts s opts).
Proof.
  assert (Hadd : forall n label parts,
             Forall starts_with_digit parts ->
             Forall starts_with_digit (addPart n label parts)).
  { intros n label parts Hp. unfold addPart.
    destruct (Z.ltb_spec 0 n) as [Hn|Hn]; [|assumption].
    apply Forall_app. split; [assumption|].
    constructor; [|constructor].
    destruct (num_positive_digit n Hn) as (c & r & E & Hc).
    unfold plural. rewrite E. now exists c, (r ++ u " " ++ u label ++
      (if n =? 1 then [] else u "s")). }
  unfold titleParts.
  destruct (includeStaged s opts), (negb (truthy (stagedOnly opts)));
    repeat apply Hadd; constructor.
Qed.

Lemma titleCore_no_changes (s : StatusSummary) (opts : MessageOptions) :
  titleCore s opts = u "no changes" <-> titleParts s opts = [].
Proof.
  unfold titleCore. pose proof (titleParts_digits s opts) as Hd.
  destruct (titleParts s opts) as [|p ps]; [tauto|].
  split; [|discriminate]. intros E. exfalso.
  inversion Hd as [|? ? (c & r & Ep & Hc) _]; subst.
  destruct ps; cbn [join app] in E; inversion E; subst; discriminate Hc.
Qed.

Lemma titleParts_nil (s : StatusSummary) (opts : MessageOptions) :
  counts_ok s ->
  titleParts s opts = [] <->
  hasChanges s opts = false /\
  (truthy (stagedOnly opts) = true \/ conflicts s = 0).
Proof.
  intros (H1 & H2 & H3 & H4 & H5 & H6 & H7 & H8 & H9).
  unfold titleParts, includeStaged, hasChanges.
  rewrite !addPart_app.
  destruct (truthy (stagedOnly opts)); cbn [negb orb andb].
  - rewrite orb_false_r.
    repeat match goal with
           | |- context [0 <? ?x] => destruct (Z.ltb_spec 0 x)
           end;
      cbn [app]; (split; [intros E|intros [E _]]);
      first [discriminate E | lia | reflexivity
            | split; [reflexivity|now left]].
  - repeat match goal with
           | |- context [0 <? ?x] => destruct (Z.ltb_spec 0 x)
           end;
      cbn [app orb]; (split; [intros E|intros [E [F|F]]]);
      first [discriminate E | discriminate F | lia | reflexivity
            | split; [reflexivity|right; lia]].
Qed.

(** X10: for the summary of any status output, the title of the simple
    message says "no changes" exactly when [hasChanges] is false and, unless
    only staged changes are asked for, no conflict was counted.  So the
    main command, which stops when [hasChanges] is false, never shows a
    message whose title says "no changes". *)
Theorem hasChanges_title (output : jsstring) (opts : MessageOptions) :
  titleCore (parseStatus output) opts = u "no changes" <->
  hasChanges (parseStatus output) opts = false /\
  (truthy (stagedOnly opts) = true \/ conflicts (parseStatus output) = 0).
Proof.
  rewrite titleCore_no_changes.
  apply titleParts_nil. apply (parseStatus_inv output).
Qed.

(** ** Untracked and unmerged entries *)

Lemma untracked_line_not_header (line : jsstring) :
  is_untracked_line line = true -> startsWith (u "# ") line = false.
Proof.
  destruct line as [|c r]; [discriminate|].
  unfold is_untracked_line. cbn [nth_error is_chr]. intros H.
  apply N.eqb_eq in H. subst c. reflexivity.
Qed.

Lemma unmerged_line_not_header (line : jsstring) :
  is_unmerged_line line = true -> startsWith (u "# ") line = false.
Proof.
  destruct line as [|c r]; [discriminate|].
  unfold is_unmerged_line. cbn [nth_error is_chr]. intros H.
  apply N.eqb_eq in H. subst c. reflexivity.
Qed.

Lemma record_staged_untracked X p o s :
  untracked (record_staged X p o s) = untracked s /\
  conflicts (record_staged X p o s) = conflicts s /\
  Samples.untracked (samples (record_staged X p o s))
  = Samples.untracked (samples s).
Proof. unfold record_staged. split_ifs; repeat split. Qed.

Lemma record_unstaged_untracked Y p s :
  untracked (record_unstaged Y p s) = untracked s /\
  conflicts (record_unstaged Y p s) = conflicts s /\
  Samples.untracked (samples (record_unstaged Y p s))
  = Samples.untracked (samples s).
Proof. unfold record_unstaged. split_ifs; repeat split. Qed.

Lemma changed_entry_untracked type line s :
  untracked (changed_entry type line s) = untracked s /\
  conflicts (changed_entry type line s) = conflicts s /\
  Samples.untracked (samples (changed_entry type line s))
  = Samples.untracked (samples s).
Proof.
  unfold changed_entry.
  destruct (len (split_ws line) <? 2); [now repeat split|].
  destruct (nth_error (split_ws line) 1) as [xy|]; [|now repeat split].
  destruct (len xy <? 2); [now repeat split|].
  match goal with
  | |- context [record_unstaged ?Y ?p (record_staged ?X ?p ?o s)] =>
      destruct (record_unstaged_untracked Y p (record_staged X p o s))
        as (A1 & A2 & A3);
      destruct (record_staged_untracked X p o s) as (B1 & B2 & B3)
  end.
  repeat split; congruence.
Qed.

Lemma processLine_untracked (s : StatusSummary) (line : jsstring) :
  untracked (processLine s line)
  = untracked s + (if is_untracked_line line then 1 else 0) /\
  conflicts (processLine s line)
  = conflicts s + (if is_unmerged_line line then 1 else 0) /\
  Samples.untracked (samples (processLine s line))
  = if is_untracked_line line
    then push_sample (Samples.untracked (samples s)) (slice 2 line)
    else Samples.untracked (samples s).
Proof.
  unfold processLine.
  destruct (startsWith (u "# ") line) eqn:Eh.
  - assert (Hq : is_untracked_line line = false).
    { destruct (is_untracked_line line) eqn:E; [|reflexivity].
      apply untracked_line_not_header in E. congruence. }
    assert (Hu : is_unmerged_line line = false).
    { destruct (is_unmerged_line line) eqn:E; [|reflexivity].
      apply unmerged_line_not_header in E. congruence. }
    rewrite Hq, Hu, !Z.add_0_r.
    destruct (startsWith (u "# branch.head ") line); [now repeat split|].
    destruct (startsWith (u "# branch.ab ") line); [|now repeat split].
    destruct (re_ab _) as [[m1 m2]|]; now repeat split.
  - fold (is_untracked_line line). fold (is_unmerged_line line).
    destruct (is_untracked_line line) eqn:Eq.
    + assert (Hu : is_unmerged_line line = false).
      { destruct line as [|c r]; [reflexivity|].
        unfold is_untracked_line, is_unmerged_line in *.
        cbn [nth_error is_chr] in *. apply N.eqb_eq in Eq. now subst c. }
      rewrite Hu. cbn. repeat split; lia.
    + destruct (is_chr (nth_error line 0) "!") eqn:Ei.
      * assert (Hu : is_unmerged_line line = false).
        { destruct line as [|c r]; [reflexivity|].
          unfold is_unmerged_line in *.
          cbn [nth_error is_chr] in *. apply N.eqb_eq in Ei. now subst c. }
        rewrite Hu. repeat split; lia.
      * destruct (is_unmerged_line line) eqn:Eu.
        -- cbn. repeat split; lia.
        -- rewrite !Z.add_0_r.
           destruct (is_chr (nth_error line 0) "1" ||
                     is_chr (nth_error line 0) "2");
             [apply changed_entry_untracked|now repeat split].
Qed.

Lemma firstn_push_sample (l : list jsstring) (p : jsstring)
      (rest : list jsstring) :
  len l <= MAX_FILE_SAMPLES ->
  firstn 10 (push_sample l p ++ rest) = firstn 10 (l ++ p :: rest).
Proof.
  intros H. unfold push_sample.
  destruct (Z.ltb_spec (len l) MAX_FILE_SAMPLES) as [Hlt|Hge].
  - now rewrite <- app_assoc.
  - assert (Hl : List.length l = 10%nat)
      by (unfold len, MAX_FILE_SAMPLES in *; lia).
    rewrite <- Hl, !firstn_app, !Nat.sub_diag, !firstn_all. reflexivity.
Qed.

Lemma fold_processLine_untracked (ls : list jsstring) (s : StatusSummary) :
  len (Samples.untracked (samples s)) <= MAX_FILE_SAMPLES ->
  let r := fold_left processLine ls s in
  let qs := filter is_untracked_line ls in
  untracked r = untracked s + len qs /\
  conflicts r = conflicts s + len (filter is_unmerged_line ls) /\
  Samples.untracked (samples r)
  = firstn 10 (Samples.untracked (samples s) ++ map (slice 2) qs).
Proof.
  revert s. induction ls as [|l ls IH]; intros s Hs; cbn zeta.
  - cbn [fold_left filter map]. rewrite app_nil_r.
    repeat split; try (unfold len; cbn; lia).
    symmetry. apply firstn_all2. unfold len, MAX_FILE_SAMPLES in Hs. lia.
  - cbn [fold_left filter].
    destruct (processLine_untracked s l) as (P1 & P2 & P3).
    assert (Hs' : len (Samples.untracked (samples (processLine s l)))
                  <= MAX_FILE_SAMPLES).
    { rewrite P3. destruct (is_untracked_line l); [|assumption].
      destruct (push_sample_len (Samples.untracked (samples s)) (slice 2 l))
        as [[? ?]|[? ?]]; lia. }
    specialize (IH (processLine s l) Hs'). cbn zeta in IH.
    destruct IH as (I1 & I2 & I3).
    rewrite I1, I2, I3, P1, P2, P3.
    destruct (is_untracked_line l), (is_unmerged_line l);
      cbn [map]; repeat split;
      try (unfold len; cbn [List.length]; lia);
      try reflexivity; now apply firstn_push_sample.
Qed.

Lemma parseStatus_untracked_conflicts (output : jsstring) :
  let s := parseStatus output in
  let qs := filter is_untracked_line (lines_of output) in
  untracked s = len qs /\
  Samples.untracked (samples s) = firstn 10 (map (slice 2) qs) /\
  conflicts s = len (filter is_unmerged_line (lines_of output)).
Proof.
  cbn zeta. unfold parseStatus.
  destruct (fold_processLine_untracked (lines_of output) empty_summary)
    as (H1 & H2 & H3); [unfold len, MAX_FILE_SAMPLES; cbn; lia|].
  cbn [empty_summary untracked conflicts samples Samples.untracked app] in *.
  repeat split; [lia|assumption|lia].
Qed.

(** X11: the untracked counter is the number of lines that start with [?],
    the untracked samples are the paths (the line from its third code unit
    on) of the first ten of them, in their order, and the conflict counter
    is the number of lines that start with [u]. *)
Theorem parseStatus_untracked (output : jsstring) :
  let s := parseStatus output in
  let qs := filter is_untracked_line (lines_of output) in
  untracked s = len qs /\
  Samples.untracked (samples s) = firstn 10 (map (slice 2) qs) /\
  conflicts s = len (filter is_unmerged_line (lines_of output)).
Proof. apply parseStatus_untracked_conflicts. Qed.

Lemma processLine_header_or_unmerged (s : StatusSummary) (line : jsstring) :
  startsWith (u "# ") line || is_unmerged_line line = true ->
  staged (processLine s line) = staged s /\
  unstaged (processLine s line) = unstaged s /\
  untracked (processLine s line) = untracked s.
Proof.
  intros H. unfold processLine.
  destruct (startsWith (u "# ") line) eqn:Eh.
  - destruct (startsWith (u "# branch.head ") line); [now repeat split|].
    destruct (startsWith (u "# branch.ab ") line); [|now repeat split].
    destruct (re_ab _) as [[m1 m2]|]; now repeat split.
  - cbn [orb] in H.
    destruct line as [|c r]; [discriminate|].
    unfold is_unmerged_line in H. cbn [nth_error is_chr] in *.
    apply N.eqb_eq in H. subst c. now repeat split.
Qed.

(** X12: when every line of the status output is a header or an unmerged
    entry, [hasChanges] is false, whatever the number of conflicts
    counted: the main command then reports that there is nothing to
    commit. *)
Theorem unmerged_only_no_changes (output : jsstring) (opts : MessageOptions) :
  Forall (fun l => startsWith (u "# ") l || is_unmerged_line l = true)
         (lines_of output) ->
  hasChanges (parseStatus output) opts = false /\
  conflicts (parseStatus output)
  = len (filter is_unmerged_line (lines_of output)).
Proof.
  intros H. split; [|apply parseStatus_untracked_conflicts].
  unfold parseStatus.
  assert (G : forall ls s,
             Forall (fun l => startsWith (u "# ") l || is_unmerged_line l
                              = true) ls ->
             staged (fold_left processLine ls s) = staged s /\
             unstaged (fold_left processLine ls s) = unstaged s /\
             untracked (fold_left processLine ls s) = untracked s).
  { induction ls as [|l ls IH]; intros s Hl; [now repeat split|].
    inversion Hl as [|? ? Hh Ht]; subst. cbn [fold_left].
    destruct (IH (processLine s l) Ht) as (A1 & A2 & A3).
    destruct (processLine_header_or_unmerged s l Hh) as (B1 & B2 & B3).
    repeat split; congruence. }
  destruct (G (lines_of output) empty_summary H) as (A1 & A2 & A3).
  unfold hasChanges. rewrite A1, A2, A3. cbn.
  now rewrite andb_false_r.
Qed.

Lemma unmerged_only_no_changes_witness :
  let output :=
    u "# branch.head main" ++ [LF] ++
    u "u UU N... 100644 100644 100644 100644 h1 h2 h3 file.txt" ++ [LF] in
  Forall (fun l => startsWith (u "# ") l || is_unmerged_line l = true)
         (lines_of output) /\
  hasChanges (parseStatus output) opts_default = false /\
  conflicts (parseStatus output) = 1.
Proof.
  intros output.
  assert (H : Forall (fun l => startsWith (u "# ") l || is_unmerged_line l
                               = true) (lines_of output))
    by (repeat constructor).
  split; [exact H|].
  exact (unmerged_only_no_changes output opts_default H).
Defined.

(** ** Line ends *)

Lemma split_lines_to_crlf (s : jsstring) :
  ~ In CR s -> split_lines (to_crlf s) = split_lines s.
Proof.
  induction s as [|c s IH]; intros H; [reflexivity|].
  assert (Hc : c <> CR) by (intros E; apply H; now left).
  assert (Hs : ~ In CR s) by (intros E; apply H; now right).
  specialize (IH Hs).
  cbn [to_crlf].
  destruct (N.eqb_spec c LF) as [E|E].
  - subst c. rewrite (split_lines_cons CR), (split_lines_cons LF).
    cbn [N.eqb CR LF Pos.eqb startsWith andb].
    rewrite (split_lines_cons 10%N). cbn [N.eqb LF Pos.eqb].
    now rewrite IH.
  - rewrite !split_lines_cons.
    destruct (N.eqb_spec c LF); [contradiction|].
    destruct (N.eqb_spec c CR); [contradiction|].
    cbn [andb]. now rewrite IH.
Qed.

(** X13: a status output whose lines end with carriage return and line feed
    is parsed as the same output with line feeds alone. *)
Theorem parseStatus_crlf (output : jsstring) :
  ~ In CR output -> parseStatus (to_crlf output) = parseStatus output.
Proof.
  intros H. unfold parseStatus, lines_of.
  now rewrite split_lines_to_crlf.
Qed.

Lemma parseStatus_crlf_witness :
  let output := u "# branch.head main" ++ [LF] ++ u "? new.txt" ++ [LF] in
  ~ In CR output /\
  parseStatus (u "# branch.head main" ++ [CR; LF] ++
               u "? new.txt" ++ [CR; LF])
  = parseStatus output.
Proof.
  intros output.
  assert (H : ~ In CR output).
  { intros E. unfold output in E. cbn in E.
    repeat (destruct E as [E|E]; [discriminate E|]). exact E. }
  split; [exact H|].
  exact (parseStatus_crlf output H).
Defined.

(** ** The title is one line *)

Lemma substr_In (a b : jsstring) (c : N) : substr a b -> In c a -> In c b.
Proof.
  intros (x & y & E) H. subst b. apply in_or_app. right.
  apply in_or_app. now left.
Qed.

Lemma split_lines_no_LF (t l : jsstring) :
  In l (split_lines t) -> ~ In LF l.
Proof.
  revert l. induction t as [|c t IH]; intros l H.
  - cbn in H. destruct H as [<-|[]]. intros [].
  - rewrite split_lines_cons in H.
    destruct (N.eqb_spec c LF) as [E|E].
    + destruct H as [<-|H]; [intros []|now apply IH].
    + destruct (N.eqb c CR && startsWith [LF] t); [now apply IH|].
      destruct (split_lines t) as [|h tl] eqn:Es.
      * destruct H as [<-|[]]. intros [F|[]]. now apply E.
      * destruct H as [<-|H].
        -- intros [F|F]; [now apply E|]. apply (IH h); [now left|exact F].
        -- apply IH. now right.
Qed.

Lemma lines_of_no_LF (t l : jsstring) : In l (lines_of t) -> ~ In LF l.
Proof.
  unfold lines_of. intros H. apply filter_In in H as [H _].
  now apply split_lines_no_LF in H.
Qed.

Lemma processLine_branch (s : StatusSummary) (line : jsstring) :
  branch (processLine s line) = branch s \/
  branch (processLine s line)
  = Some (trim (slice (List.length (u "# branch.head ")) line)).
Proof.
  unfold processLine.
  destruct (startsWith (u "# ") line).
  - destruct (startsWith (u "# branch.head ") line); [now right|left].
    destruct (startsWith (u "# branch.ab ") line); [|reflexivity].
    destruct (re_ab _) as [[m1 m2]|]; reflexivity.
  - left.
    destruct (is_chr (nth_error line 0) "?"); [reflexivity|].
    destruct (is_chr (nth_error line 0) "!"); [reflexivity|].
    destruct (is_chr (nth_error line 0) "u"); [reflexivity|].
    destruct (is_chr (nth_error line 0) "1" || is_chr (nth_error line 0) "2");
      [apply changed_entry_ab|reflexivity].
Qed.

Lemma parseStatus_branch_no_LF (output b : jsstring) :
  branch (parseStatus output) = Some b -> ~ In LF b.
Proof.
  unfold parseStatus.
  assert (G : forall ls s,
             (forall l, In l ls -> ~ In LF l) ->
             (forall b, branch s = Some b -> ~ In LF b) ->
             forall b, branch (fold_left processLine ls s) = Some b ->
                       ~ In LF b).
  { induction ls as [|l ls IH]; intros s Hl Hs; [exact Hs|].
    cbn [fold_left]. apply IH; [intros; apply Hl; now right|].
    intros b' Hb.
    destruct (processLine_branch s l) as [E|E]; rewrite E in Hb.
    - now apply Hs.
    - injection Hb as <-. intros F.
      apply (Hl l (or_introl eq_refl)).
      eapply substr_In; [|exact F].
      eapply substr_trans; [apply substr_trim|].
      exact (substr_slice (List.length (u "# branch.head ")) l). }
  apply G; [apply lines_of_no_LF|discriminate].
Qed.

Lemma join_no_LF (sep : jsstring) (l : list jsstring) :
  ~ In LF sep -> Forall (fun p => ~ In LF p) l -> ~ In LF (join sep l).
Proof.
  intros Hsep. induction l as [|p l IH]; intros H; [intros []|].
  inversion H as [|? ? Hp Hl]; subst.
  destruct l as [|q l]; [exact Hp|].
  change (join sep (p :: q :: l)) with (p ++ sep ++ join sep (q :: l)).
  intros F. apply in_app_or in F as [F|F]; [now apply Hp|].
  apply in_app_or in F as [F|F]; [now apply Hsep|now apply IH].
Qed.

Lemma addPart_no_LF (n : Z) (label : string) (parts : list jsstring) :
  ~ In LF (u label) ->
  Forall (fun p => ~ In LF p) parts ->
  Forall (fun p => ~ In LF p) (addPart n label parts).
Proof.
  intros Hl Hp. unfold addPart. destruct (0 <? n); [|assumption].
  apply Forall_app. split; [assumption|]. constructor; [|constructor].
  unfold plural. intros F.
  apply in_app_or in F as [F|F]; [now apply num_no_LF in F|].
  apply in_app_or in F as [F|F];
    [cbn in F; destruct F as [F|[]]; discriminate F|].
  apply in_app_or in F as [F|F]; [now apply Hl|].
  destruct (n =? 1); cbn in F; [exact F|].
  destruct F as [F|[]]; discriminate F.
Qed.

Ltac literal_no_LF :=
  let F := fresh in
  intros F; cbn in F;
  repeat (destruct F as [F|F]; [discriminate F|]); exact F.

Lemma titleParts_no_LF (s : StatusSummary) (opts : MessageOptions) :
  Forall (fun p => ~ In LF p) (titleParts s opts).
Proof.
  unfold titleParts.
  destruct (includeStaged s opts), (negb (truthy (stagedOnly opts)));
    repeat (apply addPart_no_LF; [literal_no_LF|]); constructor.
Qed.

Lemma title_no_LF (output : jsstring) (opts : MessageOptions) :
  ~ In LF (title (parseStatus output) opts).
Proof.
  unfold title. intros F.
  apply in_app_or in F as [F|F].
  - unfold titleCore in F.
    pose proof (titleParts_no_LF (parseStatus output) opts) as Hp.
    destruct (titleParts (parseStatus output) opts) as [|p ps];
      [revert F; literal_no_LF|].
    revert F. apply join_no_LF; [literal_no_LF|exact Hp].
  - apply in_app_or in F as [F|F].
    + destruct (branch (parseStatus output)) as [[|c b]|] eqn:Eb;
        cbn [nonempty] in F; try contradiction.
      simpl in F.
      repeat (destruct F as [F|F]; [discriminate F|]).
      exact (parseStatus_branch_no_LF output (c :: b) Eb F).
    + destruct (negb (ahead (parseStatus output) =? 0) ||
                negb (behind (parseStatus output) =? 0)); [|exact F].
      apply in_app_or in F as [F|F]; [revert F; literal_no_LF|].
      apply in_app_or in F as [F|F]; [now apply num_no_LF in F|].
      apply in_app_or in F as [F|F]; [revert F; literal_no_LF|].
      now apply num_no_LF in F.
Qed.

(** X14: the title of the simple message built from the summary of any
    status output is one line: none of its code units is a line feed. *)
Theorem title_single_line (output : jsstring) (opts : MessageOptions) :
  Forall (fun c => c <> LF) (title (parseStatus output) opts).
Proof.
  apply Forall_forall. intros c Hc ->.
  exact (title_no_LF output opts Hc).
Qed.

(** ** The number of changed files *)

Lemma set_add_length (x : jsstring) (fs : list jsstring) :
  (List.length (set_add x fs) <= S (List.length fs))%nat.
Proof.
  unfold set_add. destruct (existsb (str_eqb x) fs); [lia|].
  rewrite length_app. cbn. lia.
Qed.

Lemma add_all_length (l fs : list jsstring) :
  (List.length (add_all l fs) <= List.length l + List.length fs)%nat.
Proof.
  unfold add_all. revert fs.
  induction l as [|x l IH]; intros fs; cbn [fold_left List.length]; [lia|].
  specialize (IH (set_add x fs)). pose proof (set_add_length x fs). lia.
Qed.

Lemma fold_add_rename_length (l fs : list jsstring) :
  (List.length (fold_left add_rename l fs)
   <= 2 * List.length l + List.length fs)%nat.
Proof.
  revert fs.
  induction l as [|x l IH]; intros fs; cbn [fold_left List.length]; [lia|].
  specialize (IH (add_rename fs x)).
  assert (List.length (add_rename fs x) <= 2 + List.length fs)%nat.
  { unfold add_rename. destruct (re_rename x) as [[m1 m2]|].
    - pose proof (set_add_length m2 (set_add m1 fs)).
      pose proof (set_add_length m1 fs). lia.
    - pose proof (set_add_length x fs). lia. }
  lia.
Qed.

Lemma getChangedFiles_length (output : jsstring) (stagedOnly : bool) :
  len (getChangedFiles (parseStatus output) stagedOnly)
  <= if stagedOnly then 50 else 60.
Proof.
  destruct (summary_inv_capped _ (parseStatus_inv output))
    as (Ha & Hm & Hd & Hr & Hu).
  unfold len, MAX_FILE_SAMPLES in *.
  unfold getChangedFiles.
  set (sm := samples (parseStatus output)) in *.
  destruct stagedOnly.
  - pose proof (fold_add_rename_length (Samples.renamed sm)
                  (add_all (Samples.deleted sm)
                     (add_all (Samples.modified sm)
                        (add_all (Samples.added sm) [])))).
    pose proof (add_all_length (Samples.deleted sm)
                  (add_all (Samples.modified sm)
                     (add_all (Samples.added sm) []))).
    pose proof (add_all_length (Samples.modified sm)
                  (add_all (Samples.added sm) [])).
    pose proof (add_all_length (Samples.added sm) []).
    cbn [List.length] in *. lia.
  - pose proof (fold_add_rename_length (Samples.renamed sm)
                  (add_all (Samples.added sm ++ Samples.modified sm ++
                            Samples.deleted sm ++ Samples.untracked sm) [])).
    pose proof (add_all_length (Samples.added sm ++ Samples.modified sm ++
                            Samples.deleted sm ++ Samples.untracked sm) []).
    rewrite !length_app in *. cbn [List.length] in *. lia.
Qed.

(** X15: whatever the size of the status output, [getChangedFiles] lists
    at most 60 files for its summary, and at most 50 when only staged
    changes are asked for. *)
Theorem getChangedFiles_bounded (output : jsstring) (stagedOnly : bool) :
  len (getChangedFiles (parseStatus output) stagedOnly)
  <= if stagedOnly then 50 else 60.
Proof. apply getChangedFiles_length. Qed.

(** ** The size of the diff *)

Lemma uint_units_length (d : Decimal.uint) :
  List.length (uint_units d) = Decimal.nb_digits d.
Proof. induction d; cbn [uint_units List.length Decimal.nb_digits]; auto. Qed.

Lemma num_two_digits (n : Z) : 0 <= n < 100 -> len (num n) <= 2.
Proof.
  intros H.
  assert (E : n = Z.of_nat (Z.to_nat n)) by lia.
  assert (L : (Z.to_nat n < 100)%nat) by lia.
  rewrite E. generalize dependent (Z.to_nat n). clear. intros k _ L.
  do 100 (destruct k as [|k]; [vm_compute; discriminate|]). lia.
Qed.

Section GetDiffFacts.
Variable runGit : list jsstring -> exn jsstring.

Lemma getDiff_length (files : list jsstring) (stagedOnly : bool) :
  len (getDiff runGit files stagedOnly)
  <= MAX_DIFF_SIZE + len TRUNCATED +
     (if len files <=? MAX_FILES_FOR_DIFF then 0
      else len (not_shown (len files - MAX_FILES_FOR_DIFF))).
Proof.
  unfold getDiff.
  assert (HT : 0 <= len TRUNCATED) by apply len_nonneg.
  assert (HN : forall k, 0 <= len (not_shown k)) by (intros; apply len_nonneg).
  assert (HM : 0 <= MAX_DIFF_SIZE) by (unfold MAX_DIFF_SIZE; lia).
  destruct (Z.eqb_spec (len files) 0) as [E0|E0].
  { change (len (@nil N)) with 0.
    destruct (len files <=? MAX_FILES_FOR_DIFF);
      [|specialize (HN (len files - MAX_FILES_FOR_DIFF))]; lia. }
  cbn zeta.
  match goal with
  | |- context [match ?a with Some _ => _ | None => _ end] => destruct a as [d|]
  end.
  2:{ change (len (@nil N)) with 0.
      destruct (len files <=? MAX_FILES_FOR_DIFF);
        [|specialize (HN (len files - MAX_FILES_FOR_DIFF))]; lia. }
  assert (Hcap : len (if MAX_DIFF_SIZE <? len d
                      then substring 0 MAX_DIFF_SIZE d ++ TRUNCATED else d)
                 <= MAX_DIFF_SIZE + len TRUNCATED).
  { destruct (Z.ltb_spec MAX_DIFF_SIZE (len d)).
    - rewrite len_app, substring_0, len_firstn. lia.
    - lia. }
  rewrite len_firstn.
  unfold MAX_FILES_FOR_DIFF in *.
  destruct (Z.leb_spec (len files) 20) as [Hle|Hgt].
  - destruct (Z.ltb_spec 0 (len files - Z.min (Z.of_nat (Z.to_nat 20))
                                             (len files))); [lia|].
    lia.
  - replace (len files - Z.min (Z.of_nat (Z.to_nat 20)) (len files))
      with (len files - 20) by lia.
    destruct (Z.ltb_spec 0 (len files - 20)); [|lia].
    rewrite len_app. lia.
Qed.

Lemma getDiff_failure (files : list jsstring) (stagedOnly : bool) :
  (files = [] -> getDiff runGit files stagedOnly = []) /\
  (runGit (map u ["diff"; "--cached"; "--"]%string ++
           firstn (Z.to_nat MAX_FILES_FOR_DIFF) files) = None ->
   getDiff runGit files stagedOnly = []) /\
  (stagedOnly = false ->
   runGit (map u ["diff"; "--"]%string ++
           firstn (Z.to_nat MAX_FILES_FOR_DIFF) files) = None ->
   getDiff runGit files stagedOnly = []).
Proof.
  unfold getDiff. split; [|split].
  - now intros ->.
  - intros H. destruct (len files =? 0); [reflexivity|].
    rewrite H. now destruct stagedOnly.
  - intros -> H. destruct (len files =? 0); [reflexivity|].
    rewrite H. cbn [bind].
    now destruct (runGit (map u ["diff"; "--cached"; "--"]%string ++ _)).
Qed.

(** X16: whatever git prints, the text [getDiff] returns is at most
    [MAX_DIFF_SIZE] code units long, not counting the two notes it can
    append.  It is empty for an empty list of files, and when a git
    command fails: the one on the index, or, unless only staged changes
    are asked for, the one on the work tree. *)
Theorem getDiff_bounded (files : list jsstring) (stagedOnly : bool) :
  len (getDiff runGit files stagedOnly)
  <= MAX_DIFF_SIZE + len TRUNCATED +
     (if len files <=? MAX_FILES_FOR_DIFF then 0
      else len (not_shown (len files - MAX_FILES_FOR_DIFF))) /\
  (files = [] -> getDiff runGit files stagedOnly = []) /\
  (runGit (map u ["diff"; "--cached"; "--"]%string ++
           firstn (Z.to_nat MAX_FILES_FOR_DIFF) files) = None ->
   getDiff runGit files stagedOnly = []) /\
  (stagedOnly = false ->
   runGit (map u ["diff"; "--"]%string ++
           firstn (Z.to_nat MAX_FILES_FOR_DIFF) files) = None ->
   getDiff runGit files stagedOnly = []).
Proof. split; [apply getDiff_length|apply getDiff_failure]. Qed.

(** X17: the diff the main command asks for, of the changed files of the
    summary of a status output, is at most 50072 code units long,
    whatever the status output and whatever git prints. *)
Theorem getDiff_of_status_bounded (output : jsstring) (stagedOnly : bool) :
  len (getDiff runGit (getChangedFiles (parseStatus output) stagedOnly)
               stagedOnly) <= 50072.
Proof.
  pose proof (getDiff_length
                (getChangedFiles (parseStatus output) stagedOnly) stagedOnly)
    as H.
  pose proof (getChangedFiles_length output stagedOnly) as Hb.
  set (files := getChangedFiles (parseStatus output) stagedOnly) in *.
  assert (Hf : len files <= 60) by (destruct stagedOnly; lia).
  change (len TRUNCATED) with 26 in H.
  unfold MAX_DIFF_SIZE, MAX_FILES_FOR_DIFF in H.
  destruct (Z.leb_spec (len files) 20); [lia|].
  assert (Hn : len (not_shown (len files - 20)) <= 46).
  { unfold not_shown. rewrite !len_app.
    pose proof (num_two_digits (len files - 20) ltac:(lia)).
    change (len [LF; LF]) with 2. change (len (u "[")) with 1.
    change (len (u " more file(s) changed but diff not shown]")) with 41.
    lia. }
  lia.
Qed.
End GetDiffFacts.

Lemma getDiff_bounded_witness :
  let failing := fun _ : list jsstring => @None jsstring in
  let printing := fun _ : list jsstring => Some (u "+x") in
  getDiff printing [] false = [] /\
  failing (map u ["diff"; "--cached"; "--"]%string ++ [u "a.txt"]) = None /\
  getDiff failing [u "a.txt"] true = [] /\
  getDiff failing [u "a.txt"] false = [].
Proof.
  intros failing printing.
  split; [exact (proj1 (proj2 (getDiff_bounded printing [] false)) eq_refl)|].
  split; [reflexivity|].
  split.
  - exact (proj1 (proj2 (proj2 (getDiff_bounded failing [u "a.txt"] true)))
                 eq_refl).
  - exact (proj2 (proj2 (proj2 (getDiff_bounded failing [u "a.txt"] false)))
                 eq_refl eq_refl).
Defined.

(** ** Global replacement *)

Section ReplaceFacts.
Variable m : jsstring -> option (jsstring * jsstring).

Lemma replace_from_skip (a r : jsstring) :
  replace_from m (List.length a) (a ++ r) = replace_from m 0 r.
Proof.
  induction a as [|c a IH]; [destruct r; reflexivity|].
  cbn [List.length app replace_from]. exact IH.
Qed.

Lemma replace_all_match (a r replacement : jsstring) :
  a <> [] -> m (a ++ r) = Some (replacement, r) ->
  replace_all m (a ++ r) = replacement ++ replace_all m r.
Proof.
  destruct a as [|c a]; [congruence|]. intros _ H.
  unfold replace_all. cbn [app replace_from].
  change (c :: a ++ r) with ((c :: a) ++ r). rewrite H.
  f_equal.
  replace (List.length ((c :: a) ++ r) - List.length r - 1)%nat
    with (List.length a)
    by (rewrite length_app; cbn [List.length]; lia).
  apply replace_from_skip.
Qed.

Lemma replace_all_pass (a r : jsstring) :
  (forall x y, a = x ++ y -> y <> [] -> m (y ++ r) = None) ->
  replace_all m (a ++ r) = a ++ replace_all m r.
Proof.
  unfold replace_all. induction a as [|c a IH]; intros H; [reflexivity|].
  cbn [app replace_from].
  change (c :: a ++ r) with ((c :: a) ++ r).
  rewrite (H [] (c :: a) eq_refl ltac:(discriminate)).
  cbn [app]. f_equal. apply IH.
  intros x y -> Hy. apply (H (c :: x) y eq_refl Hy).
Qed.
End ReplaceFacts.

(** ** Where a pattern cannot start *)

Lemma absent_no_brace (p' a r : jsstring) :
  no_brace a = true -> absent (OPEN_BRACE :: p') a r.
Proof.
  intros H x y -> Hy. unfold no_brace in H.
  rewrite forallb_app in H. apply andb_true_iff in H as [_ H].
  destruct y as [|c y]; [congruence|].
  cbn [forallb] in H. apply andb_true_iff in H as [Hc _].
  cbn [app startsWith]. apply negb_true_iff in Hc.
  rewrite N.eqb_sym, Hc. reflexivity.
Qed.

Lemma absent_no_open (p' v r : jsstring) :
  no_open v -> startsWith [OPEN_BRACE] r = false ->
  absent (OPEN_BRACE :: OPEN_BRACE :: p') v r.
Proof.
  intros Hv Hr x y -> Hy.
  destruct y as [|c y]; [congruence|].
  cbn [app startsWith].
  destruct (N.eqb_spec OPEN_BRACE c) as [<-|]; [|reflexivity].
  cbn [andb].
  destruct y as [|d y].
  - cbn [app]. destruct r as [|e r]; [reflexivity|].
    cbn [startsWith] in *. rewrite andb_true_r in Hr. now rewrite Hr.
  - cbn [app]. destruct (N.eqb_spec OPEN_BRACE d) as [<-|]; [|reflexivity].
    exfalso. unfold no_open in Hv.
    assert (E : has_sub (u "{{") (x ++ OPEN_BRACE :: OPEN_BRACE :: y) = true).
    { apply has_sub_app_l. apply has_sub_start. reflexivity. }
    congruence.
Qed.

Lemma no_brace_no_open (s : jsstring) : no_brace s = true -> no_open s.
Proof.
  unfold no_open, no_brace. induction s as [|c s IH]; [reflexivity|].
  cbn [forallb has_sub]. intros H. apply andb_true_iff in H as [Hc Hs].
  rewrite (IH Hs), orb_false_r.
  cbn [u startsWith]. apply negb_true_iff in Hc.
  change (N_of_ascii "{") with OPEN_BRACE.
  rewrite N.eqb_sym, Hc. reflexivity.
Qed.

Lemma no_open_cons (c : N) (s : jsstring) :
  c <> OPEN_BRACE -> no_open s -> no_open (c :: s).
Proof.
  unfold no_open. intros Hc Hs. cbn [has_sub]. rewrite Hs, orb_false_r.
  cbn [u startsWith]. change (N_of_ascii "{") with OPEN_BRACE.
  destruct (N.eqb_spec OPEN_BRACE c); [congruence|reflexivity].
Qed.

Lemma no_open_app (a b : jsstring) :
  no_open a -> no_open b -> startsWith [OPEN_BRACE] b = false ->
  no_open (a ++ b).
Proof.
  intros Ha Hb Hs. unfold no_open in *.
  induction a as [|c a IH]; [exact Hb|].
  cbn [app has_sub] in *. apply orb_false_iff in Ha as [Hc Ha].
  rewrite (IH Ha), orb_false_r.
  pose proof (absent_no_open [] (c :: a) b) as Habs.
  apply (Habs ltac:(unfold no_open; cbn [has_sub]; now rewrite Hc, Ha) Hs
              [] (c :: a) eq_refl ltac:(discriminate)).
Qed.

Lemma no_brace_app_open (a b : jsstring) :
  no_brace a = true -> no_open b -> no_open (a ++ b).
Proof.
  intros Ha Hb. induction a as [|c a IH]; [exact Hb|].
  cbn [no_brace forallb] in Ha. apply andb_true_iff in Ha as [Hc Ha].
  cbn [app]. apply no_open_cons; [|now apply IH].
  intros ->. discriminate Hc.
Qed.

Lemma num_no_brace (n : Z) : no_brace (num n) = true.
Proof.
  assert (Hd : forall d, no_brace (uint_units d) = true)
    by (induction d; cbn [uint_units no_brace forallb]; auto).
  unfold num. destruct (Z.to_int n); [apply Hd|].
  cbn [no_brace forallb]. apply Hd.
Qed.

Lemma no_brace_app (a b : jsstring) :
  no_brace (a ++ b) = no_brace a && no_brace b.
Proof. apply forallb_app. Qed.

(** ** The conditional blocks *)

Lemma word_not_space (c : N) : is_word c = true -> is_space c = false.
Proof.
  unfold is_word, is_space. intros H.
  repeat rewrite ?orb_true_iff, ?andb_true_iff, ?N.leb_le, ?N.eqb_eq in H.
  repeat rewrite ?orb_false_iff, ?andb_false_iff, ?N.leb_gt, ?N.eqb_neq.
  lia.
Qed.

Lemma forallb_is_any (s : jsstring) : forallb is_any s = true.
Proof. induction s; cbn; auto. Qed.

Lemma re_if_at_block (key content rest : jsstring) :
  key <> [] -> forallb is_word key = true ->
  absent (u "{{/if}}") content (u "{{/if}}" ++ rest) ->
  re_if_at (if_block key content ++ rest) = Some (key, content, rest).
Proof.
  intros Hk Hw Habs. unfold re_if_at, if_block.
  rewrite <- !app_assoc, lit_app.
  apply greedy_plus_max; [discriminate|reflexivity| |].
  { destruct key as [|c key]; [congruence|].
    cbn [forallb] in Hw. apply andb_true_iff in Hw as [Hc _].
    cbn [app stops]. now rewrite (word_not_space c Hc). }
  apply greedy_plus_max; [exact Hk|exact Hw|reflexivity|].
  rewrite lit_app.
  apply lazy_star_first; [apply forallb_is_any|now rewrite lit_app|].
  intros m1 m2 E Hm2. unfold lit.
  now rewrite (Habs m1 m2 E Hm2).
Qed.

Section TemplateFacts.
Variable inherited_text : jsstring -> jsstring.
Variable data : TemplateData.t.

Lemma if_at_none (s : jsstring) :
  startsWith (u "{{#if") s = false -> if_at data s = None.
Proof. intros H. unfold if_at, re_if_at, lit. now rewrite H. Qed.

Lemma if_pass (a r : jsstring) :
  absent (u "{{#if") a r ->
  replace_all (if_at data) (a ++ r) = a ++ replace_all (if_at data) r.
Proof.
  intros H. apply replace_all_pass. intros x y E Hy.
  apply if_at_none. now apply (H x y).
Qed.

Lemma if_pass_no_brace (a r : jsstring) :
  no_brace a = true ->
  replace_all (if_at data) (a ++ r) = a ++ replace_all (if_at data) r.
Proof. intros H. apply if_pass. now apply absent_no_brace. Qed.

Lemma if_pass_no_open (v r : jsstring) :
  no_open v -> startsWith [OPEN_BRACE] r = false ->
  replace_all (if_at data) (v ++ r) = v ++ replace_all (if_at data) r.
Proof. intros Hv Hr. apply if_pass. now apply absent_no_open. Qed.

Lemma if_block_replaced (key content rest : jsstring) :
  key <> [] -> forallb is_word key = true ->
  absent (u "{{/if}}") content (u "{{/if}}" ++ rest) ->
  replace_all (if_at data) (if_block key content ++ rest)
  = (if tvalue_truthy (data_get data key) then content else [])
    ++ replace_all (if_at data) rest.
Proof.
  intros Hk Hw Habs. apply replace_all_match; [discriminate|].
  unfold if_at. now rewrite re_if_at_block.
Qed.
End TemplateFacts.

(** ** The default template *)

Lemma absent_b_sound (p s r : jsstring) :
  absent_b p s r = true -> absent p s r.
Proof.
  induction s as [|c s IH]; intros H x y E Hy.
  - destruct x, y; try discriminate E. congruence.
  - cbn [absent_b] in H. apply andb_true_iff in H as [H1 H2].
    destruct x as [|d x].
    + cbn [app] in E. subst y. now apply negb_true_iff in H1.
    + injection E as -> ->. now apply (IH H2 x y).
Qed.

Lemma absent_app (p a b r : jsstring) :
  absent p a (b ++ r) -> absent p b r -> absent p (a ++ b) r.
Proof.
  intros Ha Hb x y E Hy.
  revert x E. induction a as [|c a IH]; intros x E.
  - now apply (Hb x y).
  - destruct x as [|d x].
    + cbn [app] in E. subst y.
      cbn [app]. rewrite <- app_assoc.
      exact (Ha [] (c :: a) eq_refl ltac:(discriminate)).
    + cbn [app] in E. injection E as <- E.
      apply (IH (fun x' y' E' => Ha (c :: x') y' (f_equal (cons c) E')) x E).
Qed.

Section DefaultTemplate.
Variable inherited_text : jsstring -> jsstring.

Lemma default_after_variables (data : TemplateData.t) :
  replace_all (var_at inherited_text data) DEFAULT_TEMPLATE
  = after_variables data.
Proof.
  unfold after_variables, if_block. repeat rewrite <- app_assoc.
  destruct data as [b c [bs|] f [d|] ms mb]; vm_compute; reflexivity.
Qed.

Lemma requirements_no_brace (a b : jsstring) :
  no_brace a = true -> no_brace b = true ->
  no_brace ([LF; LF] ++ requirements a b) = true.
Proof.
  intros Ha Hb. unfold requirements.
  rewrite !no_brace_app, Ha, Hb. reflexivity.
Qed.

Lemma if_pass_end (data : TemplateData.t) (a : jsstring) :
  no_brace a = true -> replace_all (if_at data) a = a.
Proof.
  intros H. rewrite <- (app_nil_r a) at 1.
  rewrite if_pass_no_brace by assumption. apply app_nil_r.
Qed.

Lemma render_default (data : TemplateData.t) :
  no_open (TemplateData.branch data) ->
  no_open (TemplateData.changes data) ->
  (forall s, TemplateData.branchStatus data = Some s -> no_open s) ->
  no_open (TemplateData.files data) ->
  (forall s, TemplateData.diff data = Some s -> no_open s) ->
  renderTemplate inherited_text DEFAULT_TEMPLATE data = default_prompt data.
Proof.
  intros HB HC HS HF HD.
  unfold renderTemplate. rewrite default_after_variables.
  unfold after_variables.
  set (BS := match TemplateData.branchStatus data with
             | Some s => s | None => u "null" end).
  set (D := match TemplateData.diff data with
            | Some s => s | None => u "null" end).
  assert (HBS : no_open BS).
  { unfold BS. destruct (TemplateData.branchStatus data) as [s|];
      [now apply HS|reflexivity]. }
  assert (HDD : no_open D).
  { unfold D. destruct (TemplateData.diff data) as [s|];
      [now apply HD|reflexivity]. }
  rewrite if_pass_no_brace by reflexivity.
  rewrite if_pass_no_open by (assumption || reflexivity).
  rewrite if_pass_no_brace by reflexivity.
  rewrite if_pass_no_open by (assumption || reflexivity).
  rewrite (if_pass_no_brace data [LF]) by reflexivity.
  rewrite if_block_replaced; [|discriminate|reflexivity|].
  2:{ apply absent_app; [now apply absent_no_brace|].
      apply absent_app; [|now apply absent_no_brace].
      now apply absent_no_open. }
  rewrite if_pass_no_brace by reflexivity.
  rewrite if_pass_no_open by (assumption || reflexivity).
  rewrite (if_pass_no_brace data [LF; LF]) by reflexivity.
  rewrite if_block_replaced; [|discriminate|reflexivity|].
  2:{ apply absent_app; [now apply absent_no_brace|].
      apply absent_app; [now apply absent_no_open|].
      apply absent_b_sound. reflexivity. }
  rewrite if_pass_end
    by (apply requirements_no_brace; apply num_no_brace).
  unfold default_prompt.
  change (data_get data (u "branchStatus"))
    with (nullable (TemplateData.branchStatus data)).
  change (data_get data (u "diff"))
    with (nullable (TemplateData.diff data)).
  unfold BS, D.
  destruct (TemplateData.branchStatus data) as [[|c s]|],
           (TemplateData.diff data) as [[|e d]|];
    cbn [nullable tvalue_truthy nonempty];
    repeat rewrite <- app_assoc; reflexivity.
Qed.
End DefaultTemplate.

(** ** The prompt *)

Lemma no_brace_join (sep : jsstring) (l : list jsstring) :
  no_brace sep = true -> Forall (fun p => no_brace p = true) l ->
  no_brace (join sep l) = true.
Proof.
  intros Hs. induction l as [|p l IH]; intros H; [reflexivity|].
  inversion H as [|? ? Hp Hl]; subst.
  destruct l as [|q l]; [exact Hp|].
  change (join sep (p :: q :: l)) with (p ++ sep ++ join sep (q :: l)).
  rewrite !no_brace_app, Hp, Hs, (IH Hl). reflexivity.
Qed.

Lemma pushChange_no_brace (n : Z) (text : string) (l : list jsstring) :
  no_brace (u text) = true ->
  Forall (fun p => no_brace p = true) l ->
  Forall (fun p => no_brace p = true) (pushChange n text l).
Proof.
  intros Ht Hl. unfold pushChange. destruct (0 <? n); [|assumption].
  apply Forall_app. split; [assumption|]. constructor; [|constructor].
  now rewrite no_brace_app, num_no_brace, Ht.
Qed.

Lemma changeSummary_no_brace (s : StatusSummary) (opts : MessageOptions) :
  Forall (fun p => no_brace p = true) (changeSummary s opts).
Proof.
  unfold changeSummary.
  destruct (negb (truthy (stagedOnly opts)));
    repeat (apply pushChange_no_brace; [reflexivity|]); constructor.
Qed.

Lemma Forall_take {X : Type} (P : X -> Prop) (n : nat) (l : list X) :
  Forall P l -> Forall P (firstn n l).
Proof.
  revert n. induction l as [|x l IH]; intros [|n] H; cbn [firstn];
    try constructor; inversion H; subst; auto.
Qed.

Lemma filesList_no_open (files : list jsstring) :
  Forall no_open files -> no_open (filesList files).
Proof.
  intros H. unfold filesList.
  assert (Hj : forall l, Forall no_open l ->
                 no_open (join [LF] (map (fun f => u "- " ++ f) l))).
  { induction l as [|x l IH]; intros Hl; [reflexivity|].
    inversion Hl as [|? ? Hx Hl']; subst.
    assert (Hx' : no_open (u "- " ++ x))
      by (apply no_brace_app_open; [reflexivity|exact Hx]).
    destruct l as [|y l]; [exact Hx'|].
    change (join [LF] (map (fun f => u "- " ++ f) (x :: y :: l)))
      with ((u "- " ++ x) ++ [LF] ++
            join [LF] (map (fun f => u "- " ++ f) (y :: l))).
    apply no_open_app; [exact Hx'| |reflexivity].
    apply no_open_cons; [discriminate|]. now apply IH. }
  assert (Hf : no_open (join [LF] (map (fun f => u "- " ++ f)
                 (firstn (Z.to_nat MAX_FILE_LIST_DISPLAY) files)))).
  { apply Hj. now apply Forall_take. }
  destruct (MAX_FILE_LIST_DISPLAY <? len files).
  - apply no_open_app; [exact Hf| |reflexivity].
    apply no_brace_no_open.
    now rewrite !no_brace_app, num_no_brace.
  - now rewrite app_nil_r.
Qed.

Section PromptFacts.
Variable inherited_text : jsstring -> jsstring.
Variable stored : jsstring -> option jsstring.

Lemma buildPrompt_default_eq (summary : StatusSummary) (diff : jsstring)
        (files : list jsstring) (opts : MessageOptions) :
  no_open (branch_or_unknown summary) ->
  Forall no_open files ->
  no_open diff ->
  buildPromptFromTemplate inherited_text stored summary diff files opts
                          (u "default")
  = default_prompt (templateData summary diff files opts).
Proof.
  intros HB HF HD. unfold buildPromptFromTemplate, getTemplate.
  cbn [str_eqb u N.eqb Pos.eqb N_of_ascii andb].
  change (if str_eqb (u "default") (u "default") then DEFAULT_TEMPLATE
          else match stored (u "default") with
               | Some content => content
               | None => DEFAULT_TEMPLATE
               end) with DEFAULT_TEMPLATE.
  apply render_default; cbn [templateData TemplateData.branch
    TemplateData.changes TemplateData.branchStatus TemplateData.files
    TemplateData.diff].
  - exact HB.
  - apply no_brace_no_open. apply no_brace_join; [reflexivity|].
    apply changeSummary_no_brace.
  - intros s E. unfold branchStatus in E.
    destruct ((0 <? ahead summary) || (0 <? behind summary));
      [|discriminate].
    replace s with (num (ahead summary) ++ u " ahead, " ++
                    num (behind summary) ++ u " behind remote")
      by congruence.
    apply no_brace_no_open.
    now rewrite !no_brace_app, !num_no_brace.
  - now apply filesList_no_open.
  - intros s E. destruct (nonempty diff); [|discriminate].
    now injection E as <-.
Qed.

(** X18: with the default template, and when neither the branch name, nor
    a file name, nor the diff holds two opening braces in a row, the
    prompt is the text of the template with the values in the place of
    their names, the block on the branch status kept when the branch is
    ahead or behind, and the block on the diff kept, from its first line
    to its last and so with both alternatives and the line [{{else}}]
    between them, when the diff is not empty, and dropped as a whole when
    it is empty. *)
Theorem buildPrompt_default (summary : StatusSummary) (diff : jsstring)
        (files : list jsstring) (opts : MessageOptions) :
  no_open (branch_or_unknown summary) ->
  Forall no_open files ->
  no_open diff ->
  buildPromptFromTemplate inherited_text stored summary diff files opts
                          (u "default")
  = default_prompt (templateData summary diff files opts).
Proof. apply buildPrompt_default_eq. Qed.
End PromptFacts.

Lemma buildPrompt_default_witness :
  let summary := parseStatus (u "# branch.head main" ++ [LF] ++
                              u "1 M. N... 100644 100644 100644 h1 h2 a.txt") in
  let diff := u "+x = {1}" in
  let files := [u "a.txt"] in
  no_open (branch_or_unknown summary) /\
  Forall no_open files /\
  no_open diff /\
  buildPromptFromTemplate (fun _ => []) (fun _ => None) summary diff files
                          opts_default (u "default")
  = default_prompt (templateData summary diff files opts_default).
Proof.
  intros summary diff files.
  assert (HB : no_open (branch_or_unknown summary)) by reflexivity.
  assert (HF : Forall no_open files) by (repeat constructor).
  assert (HD : no_open diff) by reflexivity.
  split; [exact HB|split; [exact HF|split; [exact HD|]]].
  exact (buildPrompt_default (fun _ => []) (fun _ => None) summary diff files
                             opts_default HB HF HD).
Defined.

Lemma substr_after (s a t : jsstring) : substr s t -> substr s (a ++ t).
Proof. intros H. eapply substr_trans; [exact H|apply substr_suffix]. Qed.

Section ElseFacts.
Variable inherited_text : jsstring -> jsstring.
Variable stored : jsstring -> option jsstring.

(** X19: the default template's [{{else}}] is not interpreted: whenever
    there is a diff, the prompt holds, right after the diff, the line
    [{{else}}] and the sentence that no diff is available. *)
Theorem prompt_keeps_else (summary : StatusSummary) (diff : jsstring)
        (files : list jsstring) (opts : MessageOptions) :
  no_open (branch_or_unknown summary) ->
  Forall no_open files ->
  no_open diff ->
  diff <> [] ->
  substr (u "Git diff:" ++ [LF] ++ diff ++ [LF] ++ u "{{else}}" ++ [LF] ++
          u "No diff available (likely new/untracked files)")
         (buildPromptFromTemplate inherited_text stored summary diff files
                                  opts (u "default")).
Proof.
  intros HB HF HD Hne.
  rewrite buildPrompt_default_eq by assumption.
  unfold default_prompt, templateData.
  cbn [TemplateData.branch TemplateData.changes TemplateData.branchStatus
       TemplateData.files TemplateData.diff TemplateData.maxSubjectLength
       TemplateData.maxBodyLength].
  destruct diff as [|c d]; [congruence|]. cbn [nonempty].
  do 12 apply substr_after.
  exists [LF],
    ([LF] ++ [LF; LF] ++
     requirements (num MAX_SUBJECT_LENGTH) (num MAX_BODY_LINE_LENGTH)).
  repeat rewrite <- app_assoc. reflexivity.
Qed.
End ElseFacts.

Lemma prompt_keeps_else_witness :
  let summary := parseStatus (u "# branch.head main" ++ [LF] ++
                              u "1 M. N... 100644 100644 100644 h1 h2 a.txt") in
  let diff := u "+x = {1}" in
  let files := [u "a.txt"] in
  no_open (branch_or_unknown summary) /\
  Forall no_open files /\
  no_open diff /\
  diff <> [] /\
  substr (u "Git diff:" ++ [LF] ++ diff ++ [LF] ++ u "{{else}}" ++ [LF] ++
          u "No diff available (likely new/untracked files)")
         (buildPromptFromTemplate (fun _ => []) (fun _ => None) summary diff
                                  files opts_default (u "default")).
Proof.
  intros summary diff files.
  assert (HB : no_open (branch_or_unknown summary)) by reflexivity.
  assert (HF : Forall no_open files) by (repeat constructor).
  assert (HD : no_open diff) by reflexivity.
  assert (HN : diff <> []) by discriminate.
  split; [exact HB|split; [exact HF|split; [exact HD|split; [exact HN|]]]].
  exact (prompt_keeps_else (fun _ => []) (fun _ => None) summary diff files
                           opts_default HB HF HD HN).
Defined.

Section PlainFacts.
Variable inherited_text : jsstring -> jsstring.

Lemma var_at_none (data : TemplateData.t) (s : jsstring) :
  startsWith (u "{{") s = false -> var_at inherited_text data s = None.
Proof. intros H. unfold var_at, re_var_at, lit. now rewrite H. Qed.

(** X20: a template that holds no two opening braces in a row is rendered
    as it is, whatever the data. *)
Theorem renderTemplate_plain (template : jsstring) (data : TemplateData.t) :
  no_open template ->
  renderTemplate inherited_text template data = template.
Proof.
  intros H. unfold renderTemplate.
  assert (A : forall p', absent (OPEN_BRACE :: OPEN_BRACE :: p') template [])
    by (intros p'; now apply absent_no_open).
  assert (E1 : replace_all (var_at inherited_text data) template = template).
  { rewrite <- (app_nil_r template) at 1.
    rewrite replace_all_pass; [apply app_nil_r|].
    intros x y E Hy. apply var_at_none. exact (A [] x y E Hy). }
  rewrite E1.
  rewrite <- (app_nil_r template) at 1.
  rewrite if_pass; [apply app_nil_r|]. exact (A (u "#if")).
Qed.
End PlainFacts.

Lemma renderTemplate_plain_witness :
  no_open (u "Write a commit message. Use {braces} freely.") /\
  renderTemplate (fun _ => []) (u "Write a commit message. Use {braces} freely.")
                 (TemplateData.mk [] [] None [] None 72 72)
  = u "Write a commit message. Use {braces} freely.".
Proof.
  split; [reflexivity|].
  exact (renderTemplate_plain
           (fun _ => []) (u "Write a commit message. Use {braces} freely.")
           (TemplateData.mk [] [] None [] None 72 72) eq_refl).
Defined.
